(** * Order lifecycle of the restaurant backend

    A shallow embedding of the order routes of the two servers of the
    repository:

    - [Mongo]: the document-store server (routes [POST /api/order],
      [GET /api/order/:id], [GET /api/orders], [PUT /api/order/:id/status]
      over a Mongoose model, with the [inMemoryOrders] fallback);
    - [Postgres]: the relational server ([server-postgres.js]), whose routes
      call the [Order] model of [models/Order.js].

    Modelling conventions.

    - Request values are JavaScript values ([JsVal]): [undefined], [null],
      booleans, numbers (the integer-valued ones, a [Z]), [NaN], strings,
      dates and arrays of line items; a line item is a record with an
      optional [prepTime] / [prep_time].
    - A handler is a computation over the server state that may throw; the
      [try { ... } catch] of every route turns a throw into a 500 reply.
    - The state keeps a chronological [trace] of the successful store writes
      and of the socket emissions, so that their order can be stated.
    - What the route reads from its surroundings (the clock, the
      connection's [readyState], the identifier the driver assigns, whether
      the driver raises) is the [Env] of the request. One request reads the
      clock once.
    - A Mongoose collection is the list of its documents, oldest first; a
      call of the model rejects when the connection is not open or the
      driver raises. A document keeps the values of the request: the casts
      of the schema are not modelled.
    - [models/Order.js] is not among the sources: the four functions of the
      relational [Order] model are modelled from the specification. *)

From Stdlib Require Import ZArith List String Ascii Bool Lia.
From Stdlib Require Import Decimal DecimalString DecimalPos DecimalZ.
From Stdlib Require Import Sorting.Sorted Sorting.Permutation.
From Stdlib Require Import QArith.
Import ListNotations.
Local Open Scope string_scope.
Local Open Scope list_scope.
Local Open Scope Z_scope.

(** ** JavaScript values *)

(** A line item of an order, [{name, price, quantity, category, prepTime?}];
    the relational server also reads [prep_time]. *)
Record Item : Type := mkItem {
  name : string;
  price : Z;
  quantity : Z;
  category : string;
  prepTime : option Z;
  prep_time : option Z
}.

Inductive JsVal : Type :=
| JUndefined
| JNull
| JBool (b : bool)
| JNum (n : Z)
| JNaN
| JStr (s : string)
| JDate (ms : Z)
| JArr (elems : list Item).

(** A plain object, as a list of its own properties in insertion order. *)
Definition Object : Type := list (string * JsVal).

Fixpoint lookup (k : string) (o : Object) : option JsVal :=
  match o with
  | [] => None
  | (k', v) :: r => if String.eqb k' k then Some v else lookup k r
  end.

(** [ToBoolean]: what [!v] negates. *)
Definition truthy (v : JsVal) : bool :=
  match v with
  | JUndefined | JNull | JNaN => false
  | JBool b => b
  | JNum n => negb (n =? 0)
  | JStr s => negb (String.eqb s "")
  | JDate _ | JArr _ => true
  end.

(** [v.length], for a [v] that is neither [null] nor [undefined]. *)
Definition js_length (v : JsVal) : JsVal :=
  match v with
  | JArr l => JNum (Z.of_nat (List.length l))
  | JStr s => JNum (Z.of_nat (String.length s))
  | _ => JUndefined
  end.

(** [a || d] on an optional number: an absent and a zero [a] are falsy. *)
Definition js_or (a : option Z) (d : Z) : Z :=
  match a with
  | Some n => if n =? 0 then d else n
  | None => d
  end.

(** The result of [Math.max]: a number, or [-Infinity] for no argument. *)
Inductive Number : Type :=
| Fin (n : Z)
| NegInfinity.

Fixpoint Math_max (xs : list Z) : Number :=
  match xs with
  | [] => NegInfinity
  | x :: r =>
      match Math_max r with
      | Fin m => Fin (Z.max x m)
      | NegInfinity => Fin x
      end
  end.

Definition plus (a : Number) (b : Z) : Number :=
  match a with
  | Fin n => Fin (n + b)
  | NegInfinity => NegInfinity
  end.

(** [JSON.stringify] writes a non-finite number as [null]. *)
Definition Number_toJSON (a : Number) : JsVal :=
  match a with
  | Fin n => JNum n
  | NegInfinity => JNull
  end.

(** [n.toString()] of an integer. *)
Definition toString (n : Z) : string := NilZero.string_of_int (Z.to_int n).

(** [list.includes(v)] for a list of strings: only an equal string is found. *)
Definition includes (l : list string) (v : JsVal) : bool :=
  match v with
  | JStr s => existsb (String.eqb s) l
  | _ => false
  end.

Definition validStatuses : list string :=
  ["pending"; "confirmed"; "preparing"; "ready"; "served"; "cancelled"].

(** Sorting by a time, latest first ([.sort({ createdAt: -1 })],
    [ORDER BY ... DESC]). *)
Fixpoint insert_desc {A : Type} (time : A -> Z) (o : A) (l : list A)
  : list A :=
  match l with
  | [] => [o]
  | x :: r => if time x <? time o then o :: l else x :: insert_desc time o r
  end.

Definition sort_desc {A : Type} (time : A -> Z) (l : list A) : list A :=
  fold_right (insert_desc time) [] l.

(** ** Requests and replies *)

Module Req.
(** The body of [POST /api/order]; an absent field is [JUndefined]. *)
Record order : Type := mk_order {
  tableNo : JsVal;
  items : JsVal;
  total : JsVal
}.

(** The query of [GET /api/orders]; an absent parameter is [None]. *)
Record query : Type := mk_query {
  status : option string;
  table : option string
}.
End Req.

(** [res.status(code).json({success: true, data})] and
    [res.status(code).json({success: false, error})]; the [count] and the
    [message] that some replies add are left out. *)
Inductive Reply (A : Type) : Type :=
| Success (code : Z) (data : A)
| Failure (code : Z) (error : string).
Arguments Success {A} code data.
Arguments Failure {A} code error.

Definition code_of {A : Type} (r : Reply A) : Z :=
  match r with
  | Success c _ => c
  | Failure c _ => c
  end.

(** The error taxonomy of the specification, by reply code. *)
Definition ValidationError {A : Type} (r : Reply A) : Prop := code_of r = 400.

(** A socket.io room: ['chef_portal'], or ['table_' + tableNo]. *)
Inductive Room : Type :=
| chef_portal
| table_ (tableNo : JsVal).

(** ** Computations that change the server state and may throw *)

Inductive Completion (A : Type) : Type :=
| Normal (a : A)
| Throw (error : string).
Arguments Normal {A} a.
Arguments Throw {A} error.

Definition Eff (S A : Type) : Type := S -> Completion A * S.

Definition ret {S A : Type} (a : A) : Eff S A := fun s => (Normal a, s).

Definition throw {S A : Type} (error : string) : Eff S A :=
  fun s => (Throw error, s).

Definition bind {S A B : Type} (m : Eff S A) (k : A -> Eff S B) : Eff S B :=
  fun s =>
    match m s with
    | (Normal a, s') => k a s'
    | (Throw error, s') => (Throw error, s')
    end.

Declare Scope eff_scope.
Delimit Scope eff_scope with eff.
Notation "x <- m ;; k" := (bind m (fun x => k))
  (at level 61, m at next level, right associativity) : eff_scope.
Notation "m ;; k" := (bind m (fun _ => k))
  (at level 61, right associativity) : eff_scope.
Local Open Scope eff_scope.

(** The [try { ... } catch (error) { res.status(500).json(...) }] that wraps
    the body of every route: a throw becomes a 500 reply carrying the error's
    message, and the state reached when it was thrown is kept. *)
Definition route {S A : Type} (m : Eff S (Reply A)) : S -> Reply A * S :=
  fun s =>
    match m s with
    | (Normal r, s') => (r, s')
    | (Throw error, s') => (Failure 500 error, s')
    end.

(** [items.map(f)]: only an array has [map]; on a string the call throws a
    [TypeError] with this message. *)
Definition items_map {S : Type} (f : Item -> Z) (items : JsVal)
  : Eff S (list Z) :=
  match items with
  | JArr l => ret (map f l)
  | _ => throw "items.map is not a function"
  end.

(** ** The document-store server *)

Module Mongo.

(** An order: a document of the [Order] collection ([orderSchema]), or an
    object of [inMemoryOrders], which has no [updatedAt]. *)
Record Order : Type := mkOrder {
  _id : string;
  tableNo : JsVal;
  items : JsVal;
  total : JsVal;
  status : JsVal;
  createdAt : Z;
  updatedAt : option Z;
  estimatedTime : Number
}.

(** The order as the object that is sent to a socket. *)
Definition toJSON (o : Order) : Object :=
  [("_id", JStr (_id o)); ("tableNo", tableNo o); ("items", items o);
   ("total", total o); ("status", status o);
   ("createdAt", JDate (createdAt o))]
  ++ match updatedAt o with
     | Some t => [("updatedAt", JDate t)]
     | None => []
     end
  ++ [("estimatedTime", Number_toJSON (estimatedTime o))].

Inductive Store : Type := Collection | Memory.

(** What a request leaves behind, in the order it happened. *)
Inductive Effect : Type :=
| Write (store : Store) (o : Order)
| Emit (room : Room) (event : string) (payload : Object).

Definition is_write (x : Effect) : bool :=
  match x with Write _ _ => true | Emit _ _ _ => false end.

Definition is_emit (x : Effect) : bool :=
  match x with Write _ _ => false | Emit _ _ _ => true end.

Record Server : Type := mkServer {
  orders : list Order;          (* the Order collection *)
  inMemoryOrders : list Order;  (* let inMemoryOrders = [] *)
  trace : list Effect
}.

Definition init : Server :=
  {| orders := []; inMemoryOrders := []; trace := [] |}.

(** *** ObjectIds *)

(** An [ObjectId] is a number of twelve bytes; its text is 24 hexadecimal
    digits, in lower case. *)
Definition hex_digits : list ascii :=
  ["0"; "1"; "2"; "3"; "4"; "5"; "6"; "7"; "8"; "9"; "a"; "b"; "c"; "d"; "e";
   "f"]%char.

Definition hex_digit (d : Z) : ascii := nth (Z.to_nat d) hex_digits "0"%char.

(** The last [k] hexadecimal digits of [n]. *)
Fixpoint hex_list (k : nat) (n : Z) : list ascii :=
  match k with
  | O => []
  | S k' => hex_list k' (n / 16) ++ [hex_digit (n mod 16)]
  end.

(** [objectId.toHexString()] *)
Definition toHexString (n : Z) : string :=
  string_of_list_ascii (hex_list 24 n).

Definition is_hex (c : ascii) : bool :=
  let n := Z.of_nat (nat_of_ascii c) in
  ((48 <=? n) && (n <=? 57)) || ((97 <=? n) && (n <=? 102))
  || ((65 <=? n) && (n <=? 70)).

Definition to_lower (c : ascii) : ascii :=
  let n := Z.of_nat (nat_of_ascii c) in
  if (65 <=? n) && (n <=? 90) then ascii_of_nat (nat_of_ascii c + 32) else c.

Definition toLowerCase (s : string) : string :=
  string_of_list_ascii (map to_lower (list_ascii_of_string s)).

(** The cast of the id of a request to an [ObjectId], which Mongoose does
    before it asks the store: a text of 24 hexadecimal digits, in either
    case, is the id with that text in lower case; on any other text the cast
    fails ([None]). *)
Definition castObjectId (id : string) : option string :=
  if Nat.eqb (String.length id) 24
     && forallb is_hex (list_ascii_of_string id)
  then Some (toLowerCase id)
  else None.

Definition quote : string := String (ascii_of_nat 34) EmptyString.

(** The message of the [CastError] for the id of a request. *)
Definition CastError (id : string) : string :=
  String.concat ""
    ["Cast to ObjectId failed for value "; quote; id; quote;
     " (type string) at path "; quote; "_id"; quote; " for model "; quote;
     "Order"; quote].

Record Env : Type := mkEnv {
  readyState : Z;     (* mongoose.connection.readyState *)
  now : Z;            (* Date.now() *)
  oid : Z;            (* the ObjectId the driver draws for a new document *)
  driver_ok : bool    (* false: the driver call of this request rejects *)
}.

(** The [_id] that the driver gives a new document, as its text. *)
Definition objectId (e : Env) : string := toHexString (oid e).

(** *** socket.io and the two stores *)

(** [io.to(room).emit(event, payload)] *)
Definition io_emit (room : Room) (event : string) (payload : Object)
  : Eff Server unit :=
  fun s =>
    (Normal tt,
     {| orders := orders s; inMemoryOrders := inMemoryOrders s;
        trace := trace s ++ [Emit room event payload] |}).

(** [inMemoryOrders.push(order)] *)
Definition inMemoryOrders_push (o : Order) : Eff Server unit :=
  fun s =>
    (Normal tt,
     {| orders := orders s; inMemoryOrders := inMemoryOrders s ++ [o];
        trace := trace s ++ [Write Memory o] |}).

(** Every call of the Mongoose model waits for the driver: it rejects when
    the connection is not open or the driver raises. *)
Definition driver (e : Env) : Eff Server unit :=
  fun s =>
    if (readyState e =? 1) && driver_ok e then (Normal tt, s)
    else (Throw "MongooseError", s).

(** [new Order({ tableNo, items, total, estimatedTime })]: the schema
    defaults give [status], [createdAt] and [updatedAt]. *)
Definition new_Order (e : Env) (tableNo items total : JsVal)
    (estimatedTime : Number) : Order :=
  {| _id := objectId e; tableNo := tableNo; items := items; total := total;
     status := JStr "pending"; createdAt := now e; updatedAt := Some (now e);
     estimatedTime := estimatedTime |}.

(** The object literal of the fallback path; it has no [updatedAt]. *)
Definition memory_Order (e : Env) (tableNo items total : JsVal)
    (estimatedTime : Number) : Order :=
  {| _id := toString (now e); tableNo := tableNo; items := items;
     total := total; estimatedTime := estimatedTime;
     status := JStr "pending"; createdAt := now e; updatedAt := None |}.

(** [await order.save()] *)
Definition save (e : Env) (o : Order) : Eff Server unit :=
  driver e ;;
  fun s =>
    (Normal tt,
     {| orders := orders s ++ [o]; inMemoryOrders := inMemoryOrders s;
        trace := trace s ++ [Write Collection o] |}).

Definition has_id (id : string) (o : Order) : bool := String.eqb (_id o) id.

(** [await Order.findById(id)]: the document, or [null]; the call rejects
    with a [CastError] when the id is not the text of an [ObjectId]. *)
Definition findById (e : Env) (id : string) : Eff Server (option Order) :=
  match castObjectId id with
  | None => throw (CastError id)
  | Some _id =>
      driver e ;;
      fun s => (Normal (find (has_id _id) (orders s)), s)
  end.

Definition set_status (st : JsVal) (t : Z) (o : Order) : Order :=
  {| _id := _id o; tableNo := tableNo o; items := items o; total := total o;
     status := st; createdAt := createdAt o; updatedAt := Some t;
     estimatedTime := estimatedTime o |}.

Fixpoint update_first (id : string) (f : Order -> Order) (l : list Order)
  : list Order :=
  match l with
  | [] => []
  | o :: r => if has_id id o then f o :: r else o :: update_first id f r
  end.

(** [await Order.findByIdAndUpdate(id, { status, updatedAt }, { new: true })]:
    the document after the update, or [null] when there is none; the call
    rejects with a [CastError] when the id is not the text of an
    [ObjectId]. *)
Definition findByIdAndUpdate (e : Env) (id : string) (st : JsVal) (t : Z)
  : Eff Server (option Order) :=
  match castObjectId id with
  | None => throw (CastError id)
  | Some _id =>
      driver e ;;
      fun s =>
        match find (has_id _id) (orders s) with
        | None => (Normal None, s)
        | Some o =>
            (Normal (Some (set_status st t o)),
             {| orders := update_first _id (set_status st t) (orders s);
                inMemoryOrders := inMemoryOrders s;
                trace := trace s ++ [Write Collection (set_status st t o)] |})
        end
  end.

(** The Mongo filter [{ status }] or [{}]. *)
Definition matches (filter : option string) (o : Order) : bool :=
  match filter with
  | None => true
  | Some st =>
      match status o with
      | JStr s => String.eqb s st
      | _ => false
      end
  end.

(** [await Order.find(filter).sort({ createdAt: -1 })] *)
Definition find_sorted (e : Env) (filter : option string)
  : Eff Server (list Order) :=
  driver e ;;
  fun s =>
    (Normal (sort_desc createdAt (List.filter (matches filter) (orders s))),
     s).

(** *** The routes *)

(** [app.post('/api/order', ...)] *)
Definition post_order (e : Env) (body : Req.order)
  : Server -> Reply Order * Server :=
  route (
    let tableNo := Req.tableNo body in
    let items := Req.items body in
    let total := Req.total body in
    if negb (truthy tableNo) || negb (truthy items)
       || negb (truthy (js_length items)) || negb (truthy total)
    then ret (Failure 400 "Missing required fields")
    else
      prepTimes <- items_map (fun item => js_or (prepTime item) 15) items ;;
      let estimatedTime := plus (Math_max prepTimes) 5 in
      if negb (readyState e =? 1) then
        let order := memory_Order e tableNo items total estimatedTime in
        inMemoryOrders_push order ;;
        io_emit chef_portal "newOrder" (toJSON order) ;;
        io_emit (table_ tableNo) "orderConfirmed" (toJSON order) ;;
        ret (Success 201 order)
      else
        let order := new_Order e tableNo items total estimatedTime in
        save e order ;;
        io_emit chef_portal "newOrder" (toJSON order) ;;
        io_emit (table_ tableNo) "orderConfirmed" (toJSON order) ;;
        ret (Success 201 order)).

(** [app.get('/api/order/:id', ...)] *)
Definition get_order (e : Env) (id : string)
  : Server -> Reply Order * Server :=
  route (
    if negb (readyState e =? 1) then
      fun s =>
        match find (has_id id) (inMemoryOrders s) with
        | None => ret (Failure 404 "Order not found") s
        | Some order => ret (Success 200 order) s
        end
    else
      order <- findById e id ;;
      match order with
      | None => ret (Failure 404 "Order not found")
      | Some order => ret (Success 200 order)
      end).

(** [status ? { status } : {}] on a query parameter. *)
Definition status_filter (q : Req.query) : option string :=
  match Req.status q with
  | Some st => if String.eqb st "" then None else Some st
  | None => None
  end.

(** [app.get('/api/orders', ...)] *)
Definition get_orders (e : Env) (q : Req.query)
  : Server -> Reply (list Order) * Server :=
  route (
    let filter := status_filter q in
    orders <- find_sorted e filter ;;
    ret (Success 200 orders)).

(** [{ orderId: order._id, status: order.status }] *)
Definition status_payload (order : Order) : Object :=
  [("orderId", JStr (_id order)); ("status", status order)].

(** [app.put('/api/order/:id/status', ...)], with [status] the field of
    the body. *)
Definition put_status (e : Env) (id : string) (status : JsVal)
  : Server -> Reply Order * Server :=
  route (
    if negb (includes validStatuses status)
    then ret (Failure 400 "Invalid status")
    else
      order <- findByIdAndUpdate e id status (now e) ;;
      match order with
      | None => ret (Failure 404 "Order not found")
      | Some order =>
          io_emit (table_ (tableNo order)) "orderStatusUpdate"
            (status_payload order) ;;
          io_emit chef_portal "orderStatusUpdated" (status_payload order) ;;
          ret (Success 200 order)
      end).

(** *** Runs of the server *)

Inductive Call : Type :=
| PlaceOrder (body : Req.order)
| GetOrder (id : string)
| ListOrders (q : Req.query)
| UpdateStatus (id : string) (status : JsVal).

Definition exec (e : Env) (c : Call) (s : Server) : Server :=
  match c with
  | PlaceOrder body => snd (post_order e body s)
  | GetOrder id => snd (get_order e id s)
  | ListOrders q => snd (get_orders e q s)
  | UpdateStatus id status => snd (put_status e id status s)
  end.

Inductive reachable : Server -> Prop :=
| reachable_init : reachable init
| reachable_exec (e : Env) (c : Call) (s : Server) :
    reachable s -> reachable (exec e c s).

End Mongo.

(** ** [parseInt] *)

(** The ASCII white space that [parseInt] skips (tab, line feed, vertical
    tab, form feed, carriage return, space). *)
Definition is_space (c : ascii) : bool :=
  let n := Z.of_nat (nat_of_ascii c) in
  ((9 <=? n) && (n <=? 13)) || (n =? 32).

Fixpoint skip_spaces (s : string) : string :=
  match s with
  | String c r => if is_space c then skip_spaces r else s
  | EmptyString => s
  end.

Definition digit_of (radix : Z) (c : ascii) : option Z :=
  let n := Z.of_nat (nat_of_ascii c) in
  let d :=
    if (48 <=? n) && (n <=? 57) then n - 48
    else if (97 <=? n) && (n <=? 122) then n - 87
    else if (65 <=? n) && (n <=? 90) then n - 55
    else radix in
  if d <? radix then Some d else None.

(** The value of the longest prefix of digits, [acc] being the value read so
    far ([None]: no digit yet). *)
Fixpoint digits (radix : Z) (s : string) (acc : option Z) : option Z :=
  match s with
  | String c r =>
      match digit_of radix c with
      | Some d =>
          digits radix r
            (Some (radix * match acc with Some a => a | None => 0 end + d))
      | None => acc
      end
  | EmptyString => acc
  end.

(** [parseInt(s)], without a radix argument. *)
Definition parseInt (s : string) : JsVal :=
  let s1 := skip_spaces s in
  let '(sign, s2) :=
    match s1 with
    | String "-" r => (-1, r)
    | String "+" r => (1, r)
    | _ => (1, s1)
    end in
  let '(radix, s3) :=
    match s2 with
    | String "0" (String "x" r) => (16, r)
    | String "0" (String "X" r) => (16, r)
    | _ => (10, s2)
    end in
  match digits radix s3 None with
  | Some n => JNum (sign * n)
  | None => JNaN
  end.

Definition isNaN (v : JsVal) : bool :=
  match v with
  | JNaN => true
  | _ => false
  end.

(** ** The relational server *)

Module Postgres.

(** A row of the [orders] table, as the routes read it ([order.id],
    [order.table_no], ...). *)
Record Row : Type := mkRow {
  id : Z;
  table_no : JsVal;
  items : JsVal;
  total : JsVal;
  status : JsVal;
  estimated_time : Number;
  created_at : Z;
  updated_at : Z
}.

Inductive Effect : Type :=
| Write (r : Row)
| Emit (room : Room) (event : string) (payload : Object).

Definition is_write (x : Effect) : bool :=
  match x with Write _ => true | Emit _ _ _ => false end.

Definition is_emit (x : Effect) : bool :=
  match x with Write _ => false | Emit _ _ _ => true end.

Record Server : Type := mkServer {
  rows : list Row;  (* the orders table *)
  trace : list Effect
}.

Definition init : Server := {| rows := []; trace := [] |}.

Record Env : Type := mkEnv {
  now : Z;        (* the time of the request *)
  pool_ok : bool  (* false: the query of this request rejects *)
}.

(** [io.to(room).emit(event, payload)] *)
Definition io_emit (room : Room) (event : string) (payload : Object)
  : Eff Server unit :=
  fun s =>
    (Normal tt,
     {| rows := rows s; trace := trace s ++ [Emit room event payload] |}).

(** *** The [Order] model *)

Definition query (e : Env) : Eff Server unit :=
  fun s => if pool_ok e then (Normal tt, s) else (Throw "DatabaseError", s).

(** The object that [Order.create] receives. *)
Module New.
Record fields : Type := mk {
  tableNo : JsVal;
  items : JsVal;
  total : JsVal;
  estimatedTime : Number;
  status : JsVal
}.
End New.

(** Modelled from the spec: [Order.create] of [models/Order.js], which is
    not among the sources. The store creates the order from the fields it
    is given and assigns its identity (the next serial number) and its two
    timestamps. *)
Definition Order_create (e : Env) (f : New.fields) : Eff Server Row :=
  query e ;;
  fun s =>
    let row :=
      {| id := Z.of_nat (List.length (rows s)) + 1;
         table_no := New.tableNo f; items := New.items f;
         total := New.total f; status := New.status f;
         estimated_time := New.estimatedTime f; created_at := now e;
         updated_at := now e |} in
    (Normal row,
     {| rows := rows s ++ [row]; trace := trace s ++ [Write row] |}).

(** An identifier reaches the model as a number ([parseInt(orderId)]) or as
    the text of the path ([req.params.id]). *)
Definition has_id (key : JsVal) (r : Row) : bool :=
  match key with
  | JNum n => id r =? n
  | JStr s => String.eqb s (toString (id r))
  | _ => false
  end.

(** Modelled from the spec: [Order.findById] of [models/Order.js], which
    is not among the sources. The order with that id, or [null] if no
    order with that id exists; a pure read. *)
Definition Order_findById (e : Env) (key : JsVal)
  : Eff Server (option Row) :=
  query e ;;
  fun s => (Normal (find (has_id key) (rows s)), s).

Definition set_status (st : JsVal) (t : Z) (r : Row) : Row :=
  {| id := id r; table_no := table_no r; items := items r; total := total r;
     status := st; estimated_time := estimated_time r;
     created_at := created_at r; updated_at := t |}.

Fixpoint update_first (key : JsVal) (f : Row -> Row) (l : list Row)
  : list Row :=
  match l with
  | [] => []
  | r :: l' => if has_id key r then f r :: l' else r :: update_first key f l'
  end.

(** Modelled from the spec: [Order.updateStatus] of [models/Order.js],
    which is not among the sources. Sets the status of the order with that
    id and updates its [updatedAt] timestamp; [null] if no order with that
    id exists. *)
Definition Order_updateStatus (e : Env) (key : JsVal) (st : JsVal)
  : Eff Server (option Row) :=
  query e ;;
  fun s =>
    match find (has_id key) (rows s) with
    | None => (Normal None, s)
    | Some r =>
        (Normal (Some (set_status st (now e) r)),
         {| rows := update_first key (set_status st (now e)) (rows s);
            trace := trace s ++ [Write (set_status st (now e) r)] |})
    end.

(** The [filters] object of [GET /api/orders]; [None] is a property that
    was not set. *)
Module Filters.
Record t : Type := mk {
  status : option string;
  tableNo : option JsVal
}.
End Filters.

Definition matches (f : Filters.t) (r : Row) : bool :=
  match Filters.status f with
  | None => true
  | Some st =>
      match status r with
      | JStr s => String.eqb s st
      | _ => false
      end
  end
  &&
  match Filters.tableNo f with
  | None => true
  | Some (JNum n) =>
      match table_no r with
      | JNum m => m =? n
      | _ => false
      end
  | Some _ => false
  end.

(** Modelled from the spec: [Order.findAll] of [models/Order.js], which is
    not among the sources. All orders matching the optional filters, by
    creation time descending. *)
Definition Order_findAll (e : Env) (f : Filters.t)
  : Eff Server (list Row) :=
  query e ;;
  fun s =>
    (Normal (sort_desc created_at (List.filter (matches f) (rows s))), s).

(** *** The routes *)

(** The order record of a reply. *)
Definition record (order : Row) : Object :=
  [("id", JNum (id order)); ("tableNo", table_no order);
   ("items", items order); ("total", total order);
   ("status", status order);
   ("estimatedTime", Number_toJSON (estimated_time order));
   ("createdAt", JDate (created_at order));
   ("updatedAt", JDate (updated_at order))].

(** The payload of [newOrder]. *)
Definition newOrder_payload (order : Row) : Object :=
  [("orderId", JNum (id order)); ("tableNo", table_no order);
   ("items", items order); ("total", total order);
   ("status", status order); ("createdAt", JDate (created_at order));
   ("estimatedTime", Number_toJSON (estimated_time order))].

(** The payload of [orderConfirmed]. *)
Definition orderConfirmed_payload (order : Row) : Object :=
  [("orderId", JNum (id order)); ("status", status order);
   ("estimatedTime", Number_toJSON (estimated_time order))].

(** The payload of [orderStatusUpdate]. *)
Definition orderStatusUpdate_payload (fullOrder : Row) : Object :=
  [("orderId", JNum (id fullOrder)); ("status", status fullOrder);
   ("updatedAt", JDate (updated_at fullOrder))].

(** The payload of [orderStatusUpdated]. *)
Definition orderStatusUpdated_payload (fullOrder : Row) : Object :=
  [("orderId", JNum (id fullOrder)); ("status", status fullOrder)].

(** [app.post('/api/order', ...)] *)
Definition post_order (e : Env) (body : Req.order)
  : Server -> Reply Object * Server :=
  route (
    let tableNo := Req.tableNo body in
    let items := Req.items body in
    let total := Req.total body in
    if negb (truthy tableNo) || negb (truthy items)
       || negb (truthy (js_length items)) || negb (truthy total)
    then ret (Failure 400 "Missing required fields: tableNo, items, total")
    else
      prepTimes <-
        items_map
          (fun item => js_or (prepTime item) (js_or (prep_time item) 15))
          items ;;
      let estimatedTime := plus (Math_max prepTimes) 5 in
      order <-
        Order_create e
          {| New.tableNo := tableNo; New.items := items; New.total := total;
             New.estimatedTime := estimatedTime;
             New.status := JStr "pending" |} ;;
      io_emit chef_portal "newOrder" (newOrder_payload order) ;;
      io_emit (table_ tableNo) "orderConfirmed"
        (orderConfirmed_payload order) ;;
      ret (Success 201 (record order))).

(** [app.get('/api/order/:id', ...)] *)
Definition get_order (e : Env) (id : string)
  : Server -> Reply Object * Server :=
  route (
    order <- Order_findById e (JStr id) ;;
    match order with
    | None => ret (Failure 404 "Order not found")
    | Some order => ret (Success 200 (record order))
    end).

(** [if (v) ...] on a query parameter. *)
Definition given (v : option string) : bool :=
  match v with
  | Some s => negb (String.eqb s "")
  | None => false
  end.

(** The order record of the list, which names the id [orderId]. *)
Definition transformed (order : Row) : Object :=
  [("orderId", JNum (id order)); ("tableNo", table_no order);
   ("items", items order); ("total", total order);
   ("status", status order);
   ("estimatedTime", Number_toJSON (estimated_time order));
   ("createdAt", JDate (created_at order));
   ("updatedAt", JDate (updated_at order))].

(** [app.get('/api/orders', ...)] *)
Definition get_orders (e : Env) (q : Req.query)
  : Server -> Reply (list Object) * Server :=
  route (
    let filters :=
      {| Filters.status :=
           if given (Req.status q) then Req.status q else None;
         Filters.tableNo :=
           if given (Req.table q) then option_map parseInt (Req.table q)
           else None |} in
    orders <- Order_findAll e filters ;;
    ret (Success 200 (map transformed orders))).

(** [app.put('/api/order/:id/status', ...)], with [status] the field of
    the body. *)
Definition put_status (e : Env) (orderId : string) (status : JsVal)
  : Server -> Reply Object * Server :=
  route (
    if String.eqb orderId "" || String.eqb orderId "undefined"
       || isNaN (parseInt orderId)
    then ret (Failure 400 "Invalid order ID")
    else if negb (includes validStatuses status)
    then ret (Failure 400 "Invalid status")
    else
      updatedOrder <- Order_updateStatus e (parseInt orderId) status ;;
      match updatedOrder with
      | None => ret (Failure 404 "Order not found")
      | Some _ =>
          fullOrder <- Order_findById e (parseInt orderId) ;;
          match fullOrder with
          | None =>
              throw "Cannot read properties of null (reading 'table_no')"
          | Some fullOrder =>
              io_emit (table_ (table_no fullOrder)) "orderStatusUpdate"
                (orderStatusUpdate_payload fullOrder) ;;
              io_emit chef_portal "orderStatusUpdated"
                (orderStatusUpdated_payload fullOrder) ;;
              ret (Success 200 (record fullOrder))
          end
      end).

(** *** Runs of the server *)

Inductive Call : Type :=
| PlaceOrder (body : Req.order)
| GetOrder (id : string)
| ListOrders (q : Req.query)
| UpdateStatus (id : string) (status : JsVal).

Definition exec (e : Env) (c : Call) (s : Server) : Server :=
  match c with
  | PlaceOrder body => snd (post_order e body s)
  | GetOrder id => snd (get_order e id s)
  | ListOrders q => snd (get_orders e q s)
  | UpdateStatus id status => snd (put_status e id status s)
  end.

Inductive reachable : Server -> Prop :=
| reachable_init : reachable init
| reachable_exec (e : Env) (c : Call) (s : Server) :
    reachable s -> reachable (exec e c s).

End Postgres.

(** ** The vocabulary of the specification *)

(** A value that is absent from the request. *)
Definition absent (v : JsVal) : Prop := v = JUndefined \/ v = JNull.

Definition positive_integer (v : JsVal) : Prop := exists n, v = JNum n /\ 0 < n.

Definition non_empty_sequence (v : JsVal) : Prop :=
  exists item rest, v = JArr (item :: rest).

(** A positive number. *)
Definition positive_number (v : JsVal) : Prop := exists n, v = JNum n /\ 0 < n.

(** One of the six recognized status values. *)
Definition recognized (v : JsVal) : Prop :=
  exists s, v = JStr s /\ In s validStatuses.

(** [m] is the maximum of the non-empty list [xs]. *)
Definition maximum (m : Z) (xs : list Z) : Prop :=
  In m xs /\ Forall (fun x => x <= m) xs.

(** The preparation time of an item as the specification words it: the
    item's [prepTime], 15 when it is absent. *)
Definition spec_prepTime (item : Item) : Z :=
  match prepTime item with
  | Some t => t
  | None => 15
  end.

(** The payload carries the snapshot of an order record, but for the
    properties named in [omitted]: every other property of the record is in
    the payload, the identity possibly under the name [orderId]. *)
Definition snapshot_without (omitted : list string) (payload record : Object)
  : Prop :=
  forall k v,
    ~ In k omitted ->
    lookup k record = Some v ->
    lookup k payload = Some v \/
    (k = "id" /\ lookup "orderId" payload = Some v).

Definition full_snapshot (payload record : Object) : Prop :=
  snapshot_without [] payload record.

(** In the part [new] that a request adds to the trace, every emission comes
    after a store write. *)
Definition after_write {E : Type} (is_write is_emit : E -> bool)
    (new : list E) : Prop :=
  forall pre x post,
    new = pre ++ x :: post -> is_emit x = true -> existsb is_write pre = true.

(** The list is in creation-time-descending order. *)
Definition descending {A : Type} (time : A -> Z) (l : list A) : Prop :=
  Sorted (fun a b => time b <= time a) l.

(** The document-store server with another in-memory list. *)
Definition with_memory (mem : list Mongo.Order) (s : Mongo.Server)
  : Mongo.Server :=
  {| Mongo.orders := Mongo.orders s; Mongo.inMemoryOrders := mem;
     Mongo.trace := Mongo.trace s |}.

(** The order that [POST /api/order] of the document-store server creates:
    a document of the collection when the connection is open, an object of
    [inMemoryOrders] otherwise. *)
Definition mongo_store (e : Mongo.Env) : Mongo.Store :=
  if Mongo.readyState e =? 1 then Mongo.Collection else Mongo.Memory.

Definition mongo_order (e : Mongo.Env) (body : Req.order) (l : list Item)
  : Mongo.Order :=
  let estimatedTime :=
    plus (Math_max (map (fun item => js_or (prepTime item) 15) l)) 5 in
  match mongo_store e with
  | Mongo.Collection =>
      Mongo.new_Order e (Req.tableNo body) (JArr l) (Req.total body)
        estimatedTime
  | Mongo.Memory =>
      Mongo.memory_Order e (Req.tableNo body) (JArr l) (Req.total body)
        estimatedTime
  end.

(** The state that placing the order [o] leaves: one write, then the two
    emissions. *)
Definition mongo_placed (store : Mongo.Store) (o : Mongo.Order)
    (tableNo : JsVal) (s : Mongo.Server) : Mongo.Server :=
  {| Mongo.orders :=
       match store with
       | Mongo.Collection => Mongo.orders s ++ [o]
       | Mongo.Memory => Mongo.orders s
       end;
     Mongo.inMemoryOrders :=
       match store with
       | Mongo.Collection => Mongo.inMemoryOrders s
       | Mongo.Memory => Mongo.inMemoryOrders s ++ [o]
       end;
     Mongo.trace :=
       Mongo.trace s
       ++ [Mongo.Write store o;
           Mongo.Emit chef_portal "newOrder" (Mongo.toJSON o);
           Mongo.Emit (table_ tableNo) "orderConfirmed" (Mongo.toJSON o)] |}.

(** The row that [POST /api/order] of the relational server creates. *)
Definition pg_order (e : Postgres.Env) (body : Req.order) (l : list Item)
    (s : Postgres.Server) : Postgres.Row :=
  {| Postgres.id := Z.of_nat (List.length (Postgres.rows s)) + 1;
     Postgres.table_no := Req.tableNo body;
     Postgres.items := JArr l;
     Postgres.total := Req.total body;
     Postgres.status := JStr "pending";
     Postgres.estimated_time :=
       plus
         (Math_max
            (map
               (fun item => js_or (prepTime item) (js_or (prep_time item) 15))
               l)) 5;
     Postgres.created_at := Postgres.now e;
     Postgres.updated_at := Postgres.now e |}.

Definition pg_placed (row : Postgres.Row) (tableNo : JsVal)
    (s : Postgres.Server) : Postgres.Server :=
  {| Postgres.rows := Postgres.rows s ++ [row];
     Postgres.trace :=
       Postgres.trace s
       ++ [Postgres.Write row;
           Postgres.Emit chef_portal "newOrder" (Postgres.newOrder_payload row);
           Postgres.Emit (table_ tableNo) "orderConfirmed"
             (Postgres.orderConfirmed_payload row)] |}.

(** The state that a status update of the document [o] leaves. *)
Definition mongo_updated (e : Mongo.Env) (id : string) (st : JsVal)
    (o : Mongo.Order) (s : Mongo.Server) : Mongo.Server :=
  let o' := Mongo.set_status st (Mongo.now e) o in
  {| Mongo.orders :=
       Mongo.update_first id (Mongo.set_status st (Mongo.now e))
         (Mongo.orders s);
     Mongo.inMemoryOrders := Mongo.inMemoryOrders s;
     Mongo.trace :=
       Mongo.trace s
       ++ [Mongo.Write Mongo.Collection o';
           Mongo.Emit (table_ (Mongo.tableNo o')) "orderStatusUpdate"
             (Mongo.status_payload o');
           Mongo.Emit chef_portal "orderStatusUpdated"
             (Mongo.status_payload o')] |}.

(** The state that a status update of the row [r] leaves. *)
Definition pg_updated (e : Postgres.Env) (key : JsVal) (st : JsVal)
    (r : Postgres.Row) (s : Postgres.Server) : Postgres.Server :=
  let r' := Postgres.set_status st (Postgres.now e) r in
  {| Postgres.rows :=
       Postgres.update_first key (Postgres.set_status st (Postgres.now e))
         (Postgres.rows s);
     Postgres.trace :=
       Postgres.trace s
       ++ [Postgres.Write r';
           Postgres.Emit (table_ (Postgres.table_no r')) "orderStatusUpdate"
             (Postgres.orderStatusUpdate_payload r');
           Postgres.Emit chef_portal "orderStatusUpdated"
             (Postgres.orderStatusUpdated_payload r')] |}.

(** ** Sample requests *)

Definition pizza : Item :=
  {| name := "Pizza"; price := 349; quantity := 2; category := "main";
     prepTime := Some 20; prep_time := None |}.

Definition water : Item :=
  {| name := "Water"; price := 20; quantity := 1; category := "beverage";
     prepTime := Some 0; prep_time := None |}.

Definition table4_pizza : Req.order :=
  {| Req.tableNo := JNum 4; Req.items := JArr [pizza]; Req.total := JNum 698 |}.

Definition table4_water : Req.order :=
  {| Req.tableNo := JNum 4; Req.items := JArr [water]; Req.total := JNum 20 |}.

Definition table_minus1 : Req.order :=
  {| Req.tableNo := JNum (-1); Req.items := JArr [pizza];
     Req.total := JNum 698 |}.

Definition no_items : Req.order :=
  {| Req.tableNo := JNum 4; Req.items := JArr []; Req.total := JNum 698 |}.

(** Two [ObjectId]s and their texts. *)
Definition oid1_value : Z := 0x507f1f77bcf86cd799439011.
Definition oid2_value : Z := 0x507f1f77bcf86cd799439012.
Definition oid1 : string := "507f1f77bcf86cd799439011".
Definition oid2 : string := "507f1f77bcf86cd799439012".

(** The first id in upper case. *)
Definition oid1_upper : string := "507F1F77BCF86CD799439011".

(** The connection is open and the driver answers at time [t]. *)
Definition online (t : Z) : Mongo.Env :=
  {| Mongo.readyState := 1; Mongo.now := t; Mongo.oid := oid1_value;
     Mongo.driver_ok := true |}.

(** The connection is down at time [t]. *)
Definition offline (t : Z) : Mongo.Env :=
  {| Mongo.readyState := 0; Mongo.now := t; Mongo.oid := oid1_value;
     Mongo.driver_ok := true |}.

Definition pg_up (t : Z) : Postgres.Env :=
  {| Postgres.now := t; Postgres.pool_ok := true |}.

Definition table1_pizza : Req.order :=
  {| Req.tableNo := JNum 1; Req.items := JArr [pizza]; Req.total := JNum 698 |}.

Definition table2_pizza : Req.order :=
  {| Req.tableNo := JNum 2; Req.items := JArr [pizza]; Req.total := JNum 698 |}.

(** The document-store server after an order of table 4 was placed at time
    1000, the connection being open. *)
Definition mongo_one_order : Mongo.Server :=
  snd (Mongo.post_order (online 1000) table4_pizza Mongo.init).

(** The same server after the order was set to [preparing] at time 2000. *)
Definition mongo_preparing : Mongo.Server :=
  snd (Mongo.put_status (online 2000) oid1 (JStr "preparing") mongo_one_order).

(** And after it was set to [ready], again at time 2000. *)
Definition mongo_ready : Mongo.Server :=
  snd (Mongo.put_status (online 2000) oid1 (JStr "ready") mongo_preparing).

(** The document-store server after table 1 ordered at time 1000 and table 2
    at time 2000. *)
Definition mongo_two_tables : Mongo.Server :=
  snd (Mongo.post_order
         {| Mongo.readyState := 1; Mongo.now := 2000; Mongo.oid := oid2_value;
            Mongo.driver_ok := true |}
         table2_pizza
         (snd (Mongo.post_order (online 1000) table1_pizza Mongo.init))).

(** The relational server after the same two orders. *)
Definition pg_two_tables : Postgres.Server :=
  snd (Postgres.post_order (pg_up 2000) table2_pizza
         (snd (Postgres.post_order (pg_up 1000) table1_pizza Postgres.init))).

(** [GET /api/orders?tableNo=2] *)
Definition of_table2 : Req.query :=
  {| Req.status := None; Req.table := Some "2" |}.

(** The document-store server after an order of table 4 was placed at time
    1000, the connection being down. *)
Definition mongo_fallback_order : Mongo.Server :=
  snd (Mongo.post_order (offline 1000) table4_pizza Mongo.init).

(** The relational server after an order of table 4 was placed. *)
Definition pg_one_order : Postgres.Server :=
  snd (Postgres.post_order (pg_up 1000) table4_pizza Postgres.init).

(** ** Runs of the document-store server *)

(** The part of an order that no route writes after the order is created. *)
Definition mongo_identity (o : Mongo.Order)
  : string * JsVal * JsVal * JsVal * Z * Number :=
  (Mongo._id o, Mongo.tableNo o, Mongo.items o, Mongo.total o,
   Mongo.createdAt o, Mongo.estimatedTime o).

(** [l'] continues [l]. *)
Definition extends {A : Type} (l l' : list A) : Prop :=
  exists rest, l' = l ++ rest.

(** The server gets from the first state to the second by some requests. *)
Inductive mongo_run : Mongo.Server -> Mongo.Server -> Prop :=
| mongo_run_refl (s : Mongo.Server) : mongo_run s s
| mongo_run_step (e : Mongo.Env) (c : Mongo.Call) (s s' : Mongo.Server) :
    mongo_run s s' -> mongo_run s (Mongo.exec e c s').

(** The states that the server reaches when the clock never goes back: [t]
    is the latest reading. *)
Inductive mongo_timed : Z -> Mongo.Server -> Prop :=
| mongo_timed_init (t : Z) : mongo_timed t Mongo.init
| mongo_timed_exec (e : Mongo.Env) (c : Mongo.Call) (s : Mongo.Server)
    (t : Z) :
    mongo_timed t s -> t <= Mongo.now e ->
    mongo_timed (Mongo.now e) (Mongo.exec e c s).



(** The emissions of the event [event]. *)
Definition mongo_emits (event : string) (x : Mongo.Effect) : bool :=
  match x with
  | Mongo.Emit _ ev _ => String.eqb ev event
  | Mongo.Write _ _ => false
  end.

Definition count {A : Type} (p : A -> bool) (l : list A) : nat :=
  List.length (List.filter p l).

(** A request whose [items] is a text. *)
Definition items_as_text : Req.order :=
  {| Req.tableNo := JNum 4; Req.items := JStr "pizza";
     Req.total := JNum 698 |}.

(** The same pizza order, placed twice in the millisecond 1000 while the
    connection is down. *)
Definition mongo_same_millisecond : Mongo.Server :=
  snd (Mongo.post_order (offline 1000) table2_pizza mongo_fallback_order).

(** ** The QR-code routes *)

(** Both servers have the same two routes, [POST /api/generate-qr-codes] and
    [GET /api/qr-codes-list], over the directory [qr-codes]. *)

Module QR.

Infix "+s" := String.append (at level 50, left associativity).

(** The directory: its entries, each a name and what the file holds (for an
    image of [QRCode.toFile], the URL it encodes). *)
Definition Dir : Type := list (string * string).

(** The disk: the directory, or [None] when it does not exist. *)
Definition Disk : Type := option Dir.

Record Env : Type := mkEnv {
  toFile_ok : Z -> bool  (* false: QRCode.toFile rejects for this table *)
}.

Definition frontendURL : string := "http://localhost:5173".







(** [file.endsWith(suffix)] *)
Fixpoint endsWith (suffix file : string) : bool :=
  if String.eqb file suffix then true
  else
    match file with
    | EmptyString => false
    | String _ r => endsWith suffix r
    end.

(** [\d] *)
Definition is_digit (c : ascii) : bool :=
  let n := Z.of_nat (nat_of_ascii c) in (48 <=? n) && (n <=? 57).

(** The text after the prefix [p], when the text starts with [p]. *)
Fixpoint after_prefix (p s : string) : option string :=
  match p, s with
  | EmptyString, _ => Some s
  | String a p', String b s' =>
      if Ascii.eqb a b then after_prefix p' s' else None
  | String _ _, EmptyString => None
  end.

(** The longest run of digits at the start of the text, and the rest. *)
Fixpoint span_digits (s : string) : string * string :=
  match s with
  | String c r =>
      if is_digit c then
        let '(ds, rest) := span_digits r in (String c ds, rest)
      else (EmptyString, s)
  | EmptyString => (EmptyString, EmptyString)
  end.

(** [/table-(\d+)\.png/] matched at the start of the text: the group. The
    greedy [\d+] takes the longest run: after a shorter one comes a digit,
    not the dot. *)
Definition match_here (s : string) : option string :=
  match after_prefix "table-" s with
  | Some r =>
      let '(ds, rest) := span_digits r in
      match ds, after_prefix ".png" rest with
      | String _ _, Some _ => Some ds
      | _, _ => None
      end
  | None => None
  end.

(** [file.match(/table-(\d+)\.png/)]: the group of the leftmost match, or
    [None] for [null]. *)
Fixpoint match_table (file : string) : option string :=
  match match_here file with
  | Some group => Some group
  | None =>
      match file with
      | EmptyString => None
      | String _ r => match_table r
      end
  end.

(** An element of [qrCodesList]. *)
Record Info : Type := mkInfo {
  tableNo : JsVal;
  fileName : string;
  url : string;
  menuUrl : string
}.

(** The text of a number in a concatenation. *)
Definition number_text (v : JsVal) : string :=
  match v with
  | JNum n => toString n
  | _ => "NaN"
  end.

(** The callback of [.map]: it throws when the name has no match. *)
Definition info_of {S : Type} (file : string) : Eff S Info :=
  match match_table file with
  | None => throw "Cannot read properties of null (reading '1')"
  | Some group =>
      let tableNo := parseInt group in
      ret {| tableNo := tableNo; fileName := file;
             url := "/api/qr-codes/" +s file;
             menuUrl :=
               "http://localhost:5173/menu?table=" +s number_text tableNo |}
  end.

(** [array.map(f)] for a callback that may throw. *)
Fixpoint each {S A B : Type} (f : A -> Eff S B) (l : list A)
  : Eff S (list B) :=
  match l with
  | [] => ret []
  | a :: r => b <- f a ;; bs <- each f r ;; ret (b :: bs)
  end.

(** [a.tableNo - b.tableNo < 0] *)
Definition before (a b : Info) : bool :=
  match tableNo a, tableNo b with
  | JNum x, JNum y => x - y <? 0
  | _, _ => false
  end.

(** [.sort((a, b) => a.tableNo - b.tableNo)], a stable sort. *)
Fixpoint insert (a : Info) (l : list Info) : list Info :=
  match l with
  | [] => [a]
  | x :: r => if before x a then x :: insert a r else a :: l
  end.

Definition sort (l : list Info) : list Info := fold_right insert [] l.

(** [app.get('/api/qr-codes-list', ...)] *)
Definition get_qr_codes_list : Disk -> Reply (list Info) * Disk :=
  route (fun disk =>
    match disk with
    | None => ret (Success 200 []) disk
    | Some d =>
        let files := map fst d in
        (qrCodesList <-
           each info_of (List.filter (endsWith ".png") files) ;;
         ret (Success 200 (sort qrCodesList))) disk
    end).

End QR.




(** The table number of a listed file is a number, and not negative. *)
Definition numbered (i : QR.Info) : Prop :=
  exists n, QR.tableNo i = JNum n /\ 0 <= n.




(** The name of the image of table [k], and the URL that it encodes. *)
Definition qr_name (k : Z) : string :=
  String.append (String.append "table-" (toString k)) ".png".

Definition qr_url (k : Z) : string :=
  String.append (String.append QR.frontendURL "/menu?table=") (toString k).

(** The record of the list for the image of table [k]. *)
Definition qr_info (k : Z) : QR.Info :=
  {| QR.tableNo := JNum k;
     QR.fileName := qr_name k;
     QR.url := String.append "/api/qr-codes/" (qr_name k);
     QR.menuUrl := qr_url k |}.

(** The record names its table: the file name holds [table-], a decimal
    numeral and [.png]; the table number is the number that the numeral
    writes; the two URLs are built on the file name and on that number. *)
Definition names_its_table (i : QR.Info) : Prop :=
  exists pre g post d,
    QR.fileName i
    = String.append pre
        (String.append "table-"
           (String.append g (String.append ".png" post))) /\
    NilZero.uint_of_string g = Some d /\
    QR.tableNo i = JNum (Z.of_uint d) /\
    QR.url i = String.append "/api/qr-codes/" (QR.fileName i) /\
    QR.menuUrl i
    = String.append "http://localhost:5173/menu?table="
        (toString (Z.of_uint d)).

(** The numbers 1 to 20. *)
Definition tables_1_20 : list Z := map Z.of_nat (seq 1 20).

(** A directory with two images and a file that is none. *)
Definition qr_sample_dir : QR.Dir :=
  [("table-10.png", "http://localhost:5173/menu?table=10");
   ("readme.txt", "notes");
   ("table-9.png", "http://localhost:5173/menu?table=9")].

(** ** The menu route of the document-store server *)

Module Menu.

(** An item of the menu: a document of the [MenuItem] collection
    ([menuItemSchema]) or an object of [seedData]. [rest] holds the
    properties that the route does not read. *)
Record MenuItem : Type := mkMenuItem {
  name : string;
  price : Z;
  category : string;
  available : option bool;
  popular : option bool;
  rating : option Q;
  rest : Object
}.

(** What the route reads: the collection, and the module [./seedData]
    ([None]: it cannot be loaded). *)
Record World : Type := mkWorld {
  items : list MenuItem;
  seedData : option (list MenuItem)
}.

(** [require('./seedData')] *)
Definition require_seedData : Eff World (list MenuItem) :=
  fun w =>
    match seedData w with
    | Some menuData => (Normal menuData, w)
    | None => (Throw "Cannot find module './seedData'", w)
    end.

(** The filter [{ category, available: true }] or [{ available: true }]. *)
Definition matches (filter : option string) (item : MenuItem) : bool :=
  match available item with
  | Some true =>
      match filter with
      | Some c => String.eqb (category item) c
      | None => true
      end
  | _ => false
  end.

(** The place of a value in a descending sort: a missing one is last. *)
Definition popular_rank (item : MenuItem) : Z :=
  match popular item with
  | Some true => 2
  | Some false => 1
  | None => 0
  end.

Definition rating_le (a b : option Q) : bool :=
  match a, b with
  | None, _ => true
  | Some _, None => false
  | Some x, Some y => Qle_bool x y
  end.

(** [a] may stand before [b] under [{ popular: -1, rating: -1 }]. *)
Definition precedes (a b : MenuItem) : bool :=
  (popular_rank b <? popular_rank a)
  || ((popular_rank a =? popular_rank b) && rating_le (rating b) (rating a)).

Fixpoint insert (a : MenuItem) (l : list MenuItem) : list MenuItem :=
  match l with
  | [] => [a]
  | x :: r => if precedes x a then x :: insert a r else a :: l
  end.

Definition sort (l : list MenuItem) : list MenuItem := fold_right insert [] l.

(** [await MenuItem.find(filter).sort({ popular: -1, rating: -1 })] *)
Definition find_sorted (e : Mongo.Env) (filter : option string)
  : Eff World (list MenuItem) :=
  fun w =>
    if (Mongo.readyState e =? 1) && Mongo.driver_ok e
    then (Normal (sort (List.filter (matches filter) (items w))), w)
    else (Throw "MongooseError", w).

(** [category ? ... : ...] on the query parameter. *)
Definition given (category : option string) : option string :=
  match category with
  | Some c => if String.eqb c "" then None else Some c
  | None => None
  end.

(** [app.get('/api/menu', ...)]: the [catch] of the route falls back on the
    seed data, and replies 500 only when they cannot be loaded. *)
Definition get_menu (e : Mongo.Env) (category : option string)
  : World -> Reply (list MenuItem) * World :=
  fun w =>
    match
      (if negb (Mongo.readyState e =? 1) then
         menuData <- require_seedData ;;
         let filteredData :=
           match given category with
           | Some c =>
               List.filter (fun item => String.eqb (Menu.category item) c)
                 menuData
           | None => menuData
           end in
         ret (Success 200 filteredData)
       else
         menuItems <- find_sorted e (given category) ;;
         ret (Success 200 menuItems)) w
    with
    | (Normal r, w') => (r, w')
    | (Throw error, w') =>
        match require_seedData w' with
        | (Normal menuData, w'') => (Success 200 menuData, w'')
        | (Throw _, w'') => (Failure 500 error, w'')
        end
    end.

(** The driver carries out an operation on an open connection only. *)
Definition driver {A : Type} (e : Mongo.Env) (op : World -> A * World)
  : Eff World A :=
  fun w =>
    if (Mongo.readyState e =? 1) && Mongo.driver_ok e
    then let (a, w') := op w in (Normal a, w')
    else (Throw "MongooseError", w).

Definition categories : list string :=
  ["appetizer"; "main"; "dessert"; "beverage"].

(** The validation of [menuItemSchema]: [name] and [category] are
    required, and the category is one of the enum. *)
Definition valid (item : MenuItem) : bool :=
  negb (String.eqb (name item) "")
  && existsb (String.eqb (category item)) categories.

(** The defaults of [menuItemSchema]: [available: true], [rating: 4.5]. *)
Definition with_defaults (item : MenuItem) : MenuItem :=
  {| name := name item;
     price := price item;
     category := category item;
     available :=
       match available item with
       | Some b => Some b
       | None => Some true
       end;
     popular := popular item;
     rating :=
       match rating item with
       | Some r => Some r
       | None => Some (45 # 10)
       end;
     rest := rest item |}.

(** [await MenuItem.deleteMany({})] *)
Definition deleteMany (e : Mongo.Env) : Eff World unit :=
  driver e (fun w => (tt, {| items := []; seedData := seedData w |})).

(** [await MenuItem.insertMany(docs)]: every document is validated before
    any is written. The [_id] that the store gives a document is not part
    of [MenuItem] here: no route reads it. *)
Definition insertMany (e : Mongo.Env) (docs : list MenuItem)
  : Eff World unit :=
  if forallb valid docs
  then
    driver e
      (fun w =>
         (tt, {| items := items w ++ map with_defaults docs;
                 seedData := seedData w |}))
  else throw "MenuItem validation failed".

(** [await MenuItem.countDocuments()] *)
Definition countDocuments (e : Mongo.Env) : Eff World Z :=
  driver e (fun w => (Z.of_nat (List.length (items w)), w)).

(** [app.post('/api/seed-menu', ...)]; the reply carries the count. *)
Definition seed_menu (e : Mongo.Env) : World -> Reply Z * World :=
  route (
    deleteMany e ;;
    menuData <- require_seedData ;;
    insertMany e menuData ;;
    ret (Success 200 (Z.of_nat (List.length menuData))))%eff.

(** [autoSeedMenu], run when the connection opens: its [catch] only logs. *)
Definition autoSeedMenu (e : Mongo.Env) (w : World) : World :=
  snd ((count <- countDocuments e ;;
        if count =? 0 then
          menuData <- require_seedData ;;
          insertMany e menuData
        else ret tt)%eff w).

End Menu.

(** A menu of three dishes, one of them sold out. *)
Definition margherita : Menu.MenuItem :=
  {| Menu.name := "Margherita Pizza"; Menu.price := 349;
     Menu.category := "main"; Menu.available := Some true;
     Menu.popular := Some true; Menu.rating := Some (48 # 10);
     Menu.rest := [] |}.

Definition tikka : Menu.MenuItem :=
  {| Menu.name := "Chicken Tikka"; Menu.price := 389;
     Menu.category := "main"; Menu.available := Some false;
     Menu.popular := Some true; Menu.rating := Some (47 # 10);
     Menu.rest := [] |}.

Definition lava_cake : Menu.MenuItem :=
  {| Menu.name := "Lava Cake"; Menu.price := 199;
     Menu.category := "dessert"; Menu.available := Some true;
     Menu.popular := Some false; Menu.rating := Some (49 # 10);
     Menu.rest := [] |}.

Definition sample_menu : Menu.World :=
  {| Menu.items := [lava_cake; tikka; margherita];
     Menu.seedData := Some [margherita; tikka; lava_cake] |}.

(** A seed list with a dish that names no category of the schema. *)
Definition soup : Menu.MenuItem :=
  {| Menu.name := "Tomato Soup"; Menu.price := 149;
     Menu.category := "starter"; Menu.available := None;
     Menu.popular := None; Menu.rating := None;
     Menu.rest := [] |}.

Definition bad_seed_menu : Menu.World :=
  {| Menu.items := [lava_cake; tikka; margherita];
     Menu.seedData := Some [margherita; soup] |}.

(** The world [w] with the collection [l]. *)
Definition with_items (l : list Menu.MenuItem) (w : Menu.World)
  : Menu.World :=
  {| Menu.items := l; Menu.seedData := Menu.seedData w |}.

(** The driver raises although the connection is open. *)
Definition driver_raises (t : Z) : Mongo.Env :=
  {| Mongo.readyState := 1; Mongo.now := t; Mongo.oid := oid1_value;
     Mongo.driver_ok := false |}.

(** ** The chat routes *)

(** The line feed, written [\n] in the sources. *)
Definition nl : string := String (ascii_of_nat 10) EmptyString.

(** A message of a conversation, as the language-model API takes it. *)
Record Message : Type := mkMessage {
  role : string;
  content : string
}.

(** The router of [routes/chat]: one question, forwarded to the API. *)
Module Chat.

Infix "+s" := String.append (at level 50, left associativity).

(** A request to the API: the [Authorization] header and the body. *)
Record Call : Type := mkCall {
  authorization : string;
  model : string;
  messages : list Message
}.

(** The requests sent so far, in the order of sending. *)
Definition Net : Type := list Call.

(** [GROQ_API_KEY] of the process, and what the API answers to a request:
    the [content] of the first choice, or [None] when the request fails or
    the answer has no first choice. *)
Record Env : Type := mkEnv {
  GROQ_API_KEY : option string;
  answer : Call -> option JsVal
}.

Definition reverse (s : string) : string :=
  string_of_list_ascii (List.rev (list_ascii_of_string s)).

(** [String.prototype.trim], on the white space of ASCII. *)
Definition trim (s : string) : string :=
  reverse (skip_spaces (reverse (skip_spaces s))).

(** [message.trim()]: only a string has [trim]. *)
Definition message_trim (message : JsVal) : Eff Net string :=
  match message with
  | JStr s => ret (trim s)
  | _ => throw "message.trim is not a function"
  end.

Definition key_set (e : Env) : bool :=
  match GROQ_API_KEY e with
  | Some k => negb (String.eqb k "")
  | None => false
  end.

Definition key_text (e : Env) : string :=
  match GROQ_API_KEY e with
  | Some k => k
  | None => "undefined"
  end.

Definition system_content : string :=
  nl +s "You are a general-purpose AI assistant like ChatGPT." +s nl
  +s nl +s "Rules:" +s nl
  +s "- Answer the user's question accurately and directly." +s nl
  +s "- Do NOT assume restaurant, food, or menu context." +s nl
  +s "- Do NOT mention dining or food unless the user explicitly asks."
  +s nl
  +s "- Provide clear technical explanations when asked." +s nl.

(** [await axios.post(GROQ_API_URL, ...)], then
    [response.data.choices[0].message.content]. *)
Definition axios_post (e : Env) (c : Call) : Eff Net JsVal :=
  fun net =>
    match answer e c with
    | Some reply => (Normal reply, net ++ [c])
    | None => (Throw "Request failed", net ++ [c])
    end.

(** [router.post('/', ...)] *)
Definition post (e : Env) (message : JsVal) : Net -> Reply JsVal * Net :=
  fun net =>
    match
      (blank <- (if negb (truthy message) then ret true
                 else
                   trimmed <- message_trim message ;;
                   ret (negb (truthy (JStr trimmed)))) ;;
       if (blank : bool) then ret (Failure 400 "Message is required")
       else if negb (key_set e)
       then ret (Failure 500 "API key not configured")
       else
         reply <- axios_post e
           {| authorization := "Bearer " +s key_text e;
              model := "mixtral-8x7b-32768";
              messages :=
                [ {| role := "system"; content := system_content |};
                  {| role := "user";
                     content :=
                       match message with JStr s => s | _ => "" end |} ]
           |} ;;
         ret (Success 200 reply))%eff net
    with
    | (Normal r, net') => (r, net')
    | (Throw _, net') => (Failure 500 "Failed to get response from AI", net')
    end.

End Chat.

(** The route [/api/chatbot] of the two servers. *)
Module Chatbot.

Infix "+s" := String.append (at level 50, left associativity).

(** A field of the request body that is no array and no object. *)
Inductive Scalar : Type :=
| SUndefined
| SNull
| SBool (b : bool)
| SNum (n : Z)
| SStr (s : string).

(** [ToBoolean] *)
Definition truthy (v : Scalar) : bool :=
  match v with
  | SUndefined | SNull => false
  | SBool b => b
  | SNum n => negb (n =? 0)
  | SStr s => negb (String.eqb s "")
  end.

(** [ToString]: what ['Table: ' + v] appends, and the property key of
    [personalityPrompts[v]]. *)
Definition text (v : Scalar) : string :=
  match v with
  | SUndefined => "undefined"
  | SNull => "null"
  | SBool true => "true"
  | SBool false => "false"
  | SNum n => toString n
  | SStr s => s
  end.

(** The body of the request. [conversationHistory] is absent or an array of
    messages; [orderId] is only logged. *)
Record body : Type := mkBody {
  message : Scalar;
  conversationHistory : option (list Message);
  tableNo : Scalar;
  personality : Scalar
}.

(** The request to [groq.chat.completions.create]. *)
Record Request : Type := mkRequest {
  messages : list Message;
  model : string
}.

(** What is read of a completion: [choices[0]?.message?.content] and
    [usage?.total_tokens], [None] for [undefined] or [null]. *)
Record Answer : Type := mkAnswer {
  choice : option string;
  total_tokens : option Z
}.

(** The requests sent so far, in the order of sending. *)
Definition Net : Type := list Request.

(** [groq] is set when the process has a [GROQ_API_KEY]; [create] is the
    outcome of a request ([None]: the call fails); [Object_prototype] gives
    the text of a property that every object inherits. *)
Record Env : Type := mkEnv {
  groq : bool;
  create : Request -> option Answer;
  Object_prototype : string -> option string
}.

Record Data : Type := mkData {
  reply : string;
  reply_personality : Scalar;
  tokensUsed : Z
}.

Definition restaurant_name : string := "Our Restaurant".
Definition restaurant_hours : string := "10:00 AM - 11:00 PM daily".

Definition personalityPrompts : list (string * string) :=
  [("family", "Answer like Technical way");
   ("friends", "Answer like Technical way");
   ("couples", "Answer like Technical way.");
   ("lovies", "Answer like Technical way");
   ("single", "Answer like Technical way")].

Fixpoint own (key : string) (o : list (string * string)) : option string :=
  match o with
  | [] => None
  | (k, v) :: r => if String.eqb k key then Some v else own key r
  end.

(** [personalityPrompts[personality] || personalityPrompts.family] *)
Definition systemPrompt (e : Env) (personality : Scalar) : string :=
  match own (text personality) personalityPrompts with
  | Some prompt => prompt
  | None =>
      match Object_prototype e (text personality) with
      | Some inherited => inherited
      | None => "Answer like Technical way"
      end
  end.

Definition popular_items : string :=
  nl +s nl +s "Popular Items: Margherita Pizza (₹349), "
  +s "Chicken Tikka (₹389), Lava Cake (₹199)".

(** [menuItems.map(item => item.name + ' (₹' + item.price + ')').join(', ')]
    behind ['\n\nMenu: ']. *)
Definition menu_line (menuItems : list Menu.MenuItem) : string :=
  nl +s nl +s "Menu: "
  +s String.concat ", "
       (map (fun item =>
               Menu.name item +s " (₹" +s toString (Menu.price item) +s ")")
          menuItems).

(** [await MenuItem.find({ available: true }).limit(15)] *)
Definition find_limit (e : Mongo.Env) (w : Menu.World)
  : Completion (list Menu.MenuItem) :=
  if (Mongo.readyState e =? 1) && Mongo.driver_ok e
  then Normal (firstn 15 (List.filter (Menu.matches None) (Menu.items w)))
  else Throw "MongooseError".

(** The [try] that builds [menuContext] in the document-store server. *)
Definition mongo_menuContext (e : Mongo.Env) (w : Menu.World) : string :=
  match
    (if Mongo.readyState e =? 1 then find_limit e w
     else
       match Menu.seedData w with
       | Some seedData => Normal (firstn 15 seedData)
       | None => Throw "Cannot find module './seedData'"
       end)
  with
  | Normal menuItems => menu_line menuItems
  | Throw _ => popular_items
  end.

(** The same [try] in the relational server: the file declares no
    [mongoose], so reading it throws and the [catch] sets the line. *)
Definition pg_menuContext : string :=
  match (Throw "mongoose is not defined" : Completion (list Menu.MenuItem))
  with
  | Normal menuItems => menu_line menuItems
  | Throw _ => popular_items
  end.

Definition system_message (e : Env) (b : body) (menuContext : string)
  : Message :=
  let contextInfo :=
    "Restaurant: " +s restaurant_name +s nl
    +s "Hours: " +s restaurant_hours +s nl
    +s "Table: " +s text (tableNo b)
    +s menuContext in
  {| role := "system";
     content :=
       systemPrompt e (personality b) +s nl +s nl +s contextInfo
       +s nl +s nl +s "Be helpful and concise!" |}.

(** [conversationHistory.slice(-8)] *)
Definition slice_8 (h : list Message) : list Message :=
  skipn (List.length h - 8) h.

(** The messages of the request: the system message, then the history
    when there is one. *)
Definition messages_of (system : Message) (h : option (list Message))
  : list Message :=
  match h with
  | Some (m :: r) => system :: slice_8 (m :: r)
  | _ => [system]
  end.

(** [await groq.chat.completions.create(...)] *)
Definition completions_create (e : Env) (r : Request) : Eff Net Answer :=
  fun net =>
    match create e r with
    | Some completion => (Normal completion, net ++ [r])
    | None => (Throw "APIError", net ++ [r])
    end.

(** [content || "I'm here to help! ..."] *)
Definition reply_of (completion : Answer) : string :=
  match choice completion with
  | Some c =>
      if String.eqb c ""
      then "I'm here to help! What would you like to know?"
      else c
  | None => "I'm here to help! What would you like to know?"
  end.

(** The handler of both servers, from the validation on; they differ by
    the menu context and by the model they name. *)
Definition chatbot (e : Env) (menuContext model : string) (b : body)
  : Net -> Reply Data * Net :=
  fun net =>
    match
      (if negb (truthy (message b))
       then ret (Failure 400 "Message is required")
       else if negb (truthy (personality b))
       then ret (Failure 400 "Personality is required")
       else if negb (groq e)
       then ret (Failure 500 "Chatbot not configured properly")
       else
         completion <- completions_create e
           {| messages :=
                messages_of (system_message e b menuContext)
                  (conversationHistory b);
              model := model |} ;;
         ret (Success 200
                {| reply := reply_of completion;
                   reply_personality := personality b;
                   tokensUsed := js_or (total_tokens completion) 0 |}))%eff
        net
    with
    | (Normal r, net') => (r, net')
    | (Throw _, net') => (Failure 500 "Failed to generate response", net')
    end.

(** [app.post('/api/chatbot', ...)] of the document-store server. *)
Definition mongo_post_chatbot (m : Mongo.Env) (w : Menu.World) (e : Env)
  : body -> Net -> Reply Data * Net :=
  chatbot e (mongo_menuContext m w) "llama-3.1-70b-versatile".

(** [app.post('/api/chatbot', ...)] of the relational server. *)
Definition pg_post_chatbot (e : Env)
  : body -> Net -> Reply Data * Net :=
  chatbot e pg_menuContext "llama-3.3-70b-versatile".

End Chatbot.

(** A key, and an API that answers every request with the same text. *)
Definition chat_env : Chat.Env :=
  {| Chat.GROQ_API_KEY := Some "gsk_test";
     Chat.answer := fun _ => Some (JStr "Hello!") |}.

Definition chatbot_env : Chatbot.Env :=
  {| Chatbot.groq := true;
     Chatbot.create := fun _ =>
       Some {| Chatbot.choice := Some "Try the pizza.";
               Chatbot.total_tokens := Some 42 |};
     Chatbot.Object_prototype := fun _ => None |}.

(** An API whose answer has an empty text. *)
Definition chatbot_silent : Chatbot.Env :=
  {| Chatbot.groq := true;
     Chatbot.create := fun _ =>
       Some {| Chatbot.choice := Some "";
               Chatbot.total_tokens := None |};
     Chatbot.Object_prototype := fun _ => None |}.

Definition turn (n : Z) : Message :=
  {| role := "user"; content := "question " ++ toString n |}%string.

(** A conversation of ten turns. *)
Definition ten_turns : list Message :=
  map turn [1; 2; 3; 4; 5; 6; 7; 8; 9; 10].

Definition ask (history : option (list Message)) (m : string)
  : Chatbot.body :=
  {| Chatbot.message := Chatbot.SStr m;
     Chatbot.conversationHistory := history;
     Chatbot.tableNo := Chatbot.SNum 4;
     Chatbot.personality := Chatbot.SStr "family" |}.

(** The body [b] with another [message]. *)
Definition with_message (m : Chatbot.Scalar) (b : Chatbot.body)
  : Chatbot.body :=
  {| Chatbot.message := m;
     Chatbot.conversationHistory := Chatbot.conversationHistory b;
     Chatbot.tableNo := Chatbot.tableNo b;
     Chatbot.personality := Chatbot.personality b |}.

(** The history of a body, empty when the field is absent. *)
Definition history_of (b : Chatbot.body) : list Message :=
  match Chatbot.conversationHistory b with
  | Some h => h
  | None => []
  end.


(** The request of the chat router for the question [s] under [key]. *)
Definition chat_call (key s : string) : Chat.Call :=
  {| Chat.authorization := String.append "Bearer " key;
     Chat.model := "mixtral-8x7b-32768";
     Chat.messages :=
       [ {| role := "system"; content := Chat.system_content |};
         {| role := "user"; content := s |} ] |}.

(** ** Facts about the JavaScript values *)

Lemma includes_recognized (v : JsVal) :
  includes validStatuses v = true <-> recognized v.
Proof.
  unfold recognized, includes. split.
  - destruct v; try discriminate. intros H.
    apply existsb_exists in H. destruct H as [x [Hin Heq]].
    apply String.eqb_eq in Heq. subst x. eauto.
  - intros [s [-> Hin]]. apply existsb_exists.
    exists s. split; [assumption | apply String.eqb_refl].
Qed.

Lemma includes_unrecognized (v : JsVal) :
  ~ recognized v -> includes validStatuses v = false.
Proof.
  intros H. destruct (includes validStatuses v) eqn:E; [| reflexivity].
  apply includes_recognized in E. contradiction.
Qed.

(** The guard of [POST /api/order], as both servers write it. *)
Lemma missing_fields_guard (body : Req.order) :
  absent (Req.tableNo body) \/ Req.tableNo body = JNum 0 \/
  absent (Req.items body) \/ Req.items body = JArr [] \/
  absent (Req.total body) \/ Req.total body = JNum 0 ->
  negb (truthy (Req.tableNo body)) || negb (truthy (Req.items body))
  || negb (truthy (js_length (Req.items body)))
  || negb (truthy (Req.total body)) = true.
Proof.
  unfold absent.
  intros [[H | H] | [H | [[H | H] | [H | [[H | H] | H]]]]];
    rewrite H; simpl; rewrite ?orb_true_r; reflexivity.
Qed.

(** ** Rejected requests leave no trace *)

Lemma mongo_post_order_missing (e : Mongo.Env) (body : Req.order)
    (s : Mongo.Server) :
  absent (Req.tableNo body) \/ Req.tableNo body = JNum 0 \/
  absent (Req.items body) \/ Req.items body = JArr [] \/
  absent (Req.total body) \/ Req.total body = JNum 0 ->
  Mongo.post_order e body s = (Failure 400 "Missing required fields", s).
Proof.
  intros H. unfold Mongo.post_order, route.
  rewrite (missing_fields_guard body H). reflexivity.
Qed.

Lemma pg_post_order_missing (e : Postgres.Env) (body : Req.order)
    (s : Postgres.Server) :
  absent (Req.tableNo body) \/ Req.tableNo body = JNum 0 \/
  absent (Req.items body) \/ Req.items body = JArr [] \/
  absent (Req.total body) \/ Req.total body = JNum 0 ->
  Postgres.post_order e body s
  = (Failure 400 "Missing required fields: tableNo, items, total", s).
Proof.
  intros H. unfold Postgres.post_order, route.
  rewrite (missing_fields_guard body H). reflexivity.
Qed.

(** C1 (as amended). [placeOrder] fails with a [ValidationError] whenever
    [tableNo] is absent or zero, or [items] is absent or an empty sequence,
    or [total] is absent or zero; on every such failure the server state is
    the one before the request: the order store is not written and no event
    is published. This holds in both servers. *)
Theorem placeOrder_missing_fields_rejected (body : Req.order) :
  absent (Req.tableNo body) \/ Req.tableNo body = JNum 0 \/
  absent (Req.items body) \/ Req.items body = JArr [] \/
  absent (Req.total body) \/ Req.total body = JNum 0 ->
  (forall e s,
      ValidationError (fst (Mongo.post_order e body s)) /\
      snd (Mongo.post_order e body s) = s) /\
  (forall e s,
      ValidationError (fst (Postgres.post_order e body s)) /\
      snd (Postgres.post_order e body s) = s).
Proof.
  intros H. split; intros e s.
  - rewrite (mongo_post_order_missing e body s H). split; reflexivity.
  - rewrite (pg_post_order_missing e body s H). split; reflexivity.
Qed.

Lemma placeOrder_missing_fields_rejected_witness :
  (ValidationError (fst (Mongo.post_order (online 1000) no_items Mongo.init)) /\
   snd (Mongo.post_order (online 1000) no_items Mongo.init) = Mongo.init) /\
  (ValidationError
     (fst (Postgres.post_order (pg_up 1000) no_items Postgres.init)) /\
   snd (Postgres.post_order (pg_up 1000) no_items Postgres.init)
   = Postgres.init).
Proof.
  assert (H : absent (Req.tableNo no_items) \/ Req.tableNo no_items = JNum 0 \/
              absent (Req.items no_items) \/ Req.items no_items = JArr [] \/
              absent (Req.total no_items) \/ Req.total no_items = JNum 0)
    by (right; right; right; left; reflexivity).
  split.
  - apply (proj1 (placeOrder_missing_fields_rejected no_items H)).
  - apply (proj2 (placeOrder_missing_fields_rejected no_items H)).
Defined.

(** C1 (as stated) fails: a [tableNo] of -1 is not a positive integer, yet
    both servers accept the order, store it and publish it. *)
Lemma placeOrder_negative_table_accepted :
  ~ positive_integer (Req.tableNo table_minus1) /\
  (let run := Mongo.post_order (online 1000) table_minus1 Mongo.init in
   code_of (fst run) = 201 /\
   List.length (Mongo.orders (snd run)) = 1%nat /\
   List.length (Mongo.trace (snd run)) = 3%nat) /\
  code_of (fst (Postgres.post_order (pg_up 1000) table_minus1 Postgres.init))
  = 201.
Proof.
  split.
  - intros [n [H Hpos]]. inversion H. subst n. lia.
  - repeat split; reflexivity.
Qed.

(** ** What a run of [POST /api/order] does *)

Lemma Math_max_maximum (xs : list Z) :
  xs <> [] -> exists m, Math_max xs = Fin m /\ maximum m xs.
Proof.
  induction xs as [| x r IH]; [congruence |]. intros _.
  destruct r as [| y r'].
  - exists x. simpl. split; [reflexivity |].
    split; [left; reflexivity | constructor; [lia | constructor]].
  - destruct IH as [m [Hm [Hin Hall]]]; [discriminate |].
    exists (Z.max x m). split.
    + change (Math_max (x :: y :: r'))
        with (match Math_max (y :: r') with
              | Fin m0 => Fin (Z.max x m0)
              | NegInfinity => Fin x
              end).
      rewrite Hm. reflexivity.
    + split.
      * destruct (Z.max_spec x m) as [[_ ->] | [_ ->]];
          [right; assumption | left; reflexivity].
      * constructor; [lia |].
        eapply Forall_impl; [| exact Hall]. simpl. intros a Ha. lia.
Qed.

Lemma app3 {A : Type} (l : list A) (a b c : A) :
  ((l ++ [a]) ++ [b]) ++ [c] = l ++ [a; b; c].
Proof. rewrite <- !app_assoc. reflexivity. Qed.

(** A request that passes the guard, on a server whose store answers, is
    placed. *)
Lemma mongo_post_order_placed (e : Mongo.Env) (body : Req.order)
    (s : Mongo.Server) (l : list Item) :
  truthy (Req.tableNo body) = true ->
  Req.items body = JArr l -> l <> [] ->
  truthy (Req.total body) = true ->
  (Mongo.readyState e = 1 -> Mongo.driver_ok e = true) ->
  Mongo.post_order e body s
  = (Success 201 (mongo_order e body l),
     mongo_placed (mongo_store e) (mongo_order e body l) (Req.tableNo body) s).
Proof.
  intros Ht Hi Hl Htot Hd.
  unfold Mongo.post_order, route, mongo_order, mongo_store, mongo_placed.
  rewrite Hi, Ht, Htot. simpl.
  destruct l as [| i l']; [congruence |]. simpl List.length.
  replace (negb (Z.of_nat (S (List.length l')) =? 0)) with true
    by (symmetry; apply negb_true_iff, Z.eqb_neq; lia).
  simpl. unfold bind, items_map, ret.
  destruct (Mongo.readyState e =? 1) eqn:Er; simpl.
  - unfold Mongo.save, Mongo.driver, bind. rewrite Er.
    rewrite Hd by (apply Z.eqb_eq; exact Er). simpl.
    rewrite app3. reflexivity.
  - rewrite app3. reflexivity.
Qed.

(** Every run of [POST /api/order] of the document-store server: it is
    refused and leaves the state as it was, or the order is placed. *)
Lemma mongo_post_order_run (e : Mongo.Env) (body : Req.order)
    (s : Mongo.Server) :
  (exists code error,
      (code = 400 \/ code = 500) /\
      Mongo.post_order e body s = (Failure code error, s)) \/
  (exists l,
      Req.items body = JArr l /\ l <> [] /\
      (Mongo.readyState e = 1 -> Mongo.driver_ok e = true) /\
      Mongo.post_order e body s
      = (Success 201 (mongo_order e body l),
         mongo_placed (mongo_store e) (mongo_order e body l)
           (Req.tableNo body) s)).
Proof.
  destruct (truthy (Req.tableNo body)) eqn:Ht.
  2:{ left. exists 400, "Missing required fields". split; [auto |].
      unfold Mongo.post_order, route. rewrite Ht. reflexivity. }
  destruct (truthy (Req.items body)) eqn:Hi.
  2:{ left. exists 400, "Missing required fields". split; [auto |].
      unfold Mongo.post_order, route. rewrite Ht, Hi. reflexivity. }
  destruct (truthy (js_length (Req.items body))) eqn:Hl.
  2:{ left. exists 400, "Missing required fields". split; [auto |].
      unfold Mongo.post_order, route. rewrite Ht, Hi, Hl. reflexivity. }
  destruct (truthy (Req.total body)) eqn:Htot.
  2:{ left. exists 400, "Missing required fields". split; [auto |].
      unfold Mongo.post_order, route. rewrite Ht, Hi, Hl, Htot. reflexivity. }
  assert (G : negb (truthy (Req.tableNo body))
               || negb (truthy (Req.items body))
               || negb (truthy (js_length (Req.items body)))
               || negb (truthy (Req.total body)) = false)
    by (rewrite Ht, Hi, Hl, Htot; reflexivity).
  assert (Hcase : (exists l, Req.items body = JArr l) \/
                  (forall l, Req.items body <> JArr l))
    by (destruct (Req.items body); try (right; discriminate); left; eauto).
  destruct Hcase as [[l Ei] | Hn].
  - assert (Hne : l <> []) by (intros ->; rewrite Ei in Hl; discriminate).
    destruct (Mongo.readyState e =? 1) eqn:Er.
    + destruct (Mongo.driver_ok e) eqn:Ed.
      * right. exists l. repeat split; auto.
        apply mongo_post_order_placed; auto.
      * left. exists 500, "MongooseError". split; [auto |].
        unfold Mongo.post_order, route. rewrite G, Ei.
        unfold bind, items_map, ret, Mongo.save, Mongo.driver, bind.
        rewrite Er, Ed. reflexivity.
    + right. exists l. repeat split; auto.
      * intros H1. apply Z.eqb_neq in Er. contradiction.
      * apply mongo_post_order_placed; auto.
        intros H1. apply Z.eqb_neq in Er. contradiction.
  - left. exists 500, "items.map is not a function".
    split; [auto |].
    unfold Mongo.post_order, route. rewrite G.
    destruct (Req.items body); try reflexivity.
    exfalso. eapply Hn. reflexivity.
Qed.

Lemma pg_post_order_placed (e : Postgres.Env) (body : Req.order)
    (s : Postgres.Server) (l : list Item) :
  truthy (Req.tableNo body) = true ->
  Req.items body = JArr l -> l <> [] ->
  truthy (Req.total body) = true ->
  Postgres.pool_ok e = true ->
  Postgres.post_order e body s
  = (Success 201 (Postgres.record (pg_order e body l s)),
     pg_placed (pg_order e body l s) (Req.tableNo body) s).
Proof.
  intros Ht Hi Hl Htot Hd.
  unfold Postgres.post_order, route, pg_order, pg_placed.
  rewrite Hi, Ht, Htot. simpl.
  destruct l as [| i l']; [congruence |]. simpl List.length.
  replace (negb (Z.of_nat (S (List.length l')) =? 0)) with true
    by (symmetry; apply negb_true_iff, Z.eqb_neq; lia).
  simpl.
  unfold bind, items_map, ret, Postgres.Order_create, Postgres.query, bind.
  rewrite Hd. simpl. rewrite app3. reflexivity.
Qed.

(** Every run of [POST /api/order] of the relational server. *)
Lemma pg_post_order_run (e : Postgres.Env) (body : Req.order)
    (s : Postgres.Server) :
  (exists code error,
      (code = 400 \/ code = 500) /\
      Postgres.post_order e body s = (Failure code error, s)) \/
  (exists l,
      Req.items body = JArr l /\ l <> [] /\ Postgres.pool_ok e = true /\
      Postgres.post_order e body s
      = (Success 201 (Postgres.record (pg_order e body l s)),
         pg_placed (pg_order e body l s) (Req.tableNo body) s)).
Proof.
  destruct (truthy (Req.tableNo body)) eqn:Ht.
  2:{ left. exists 400, "Missing required fields: tableNo, items, total".
      split; [auto |].
      unfold Postgres.post_order, route. rewrite Ht. reflexivity. }
  destruct (truthy (Req.items body)) eqn:Hi.
  2:{ left. exists 400, "Missing required fields: tableNo, items, total".
      split; [auto |].
      unfold Postgres.post_order, route. rewrite Ht, Hi. reflexivity. }
  destruct (truthy (js_length (Req.items body))) eqn:Hl.
  2:{ left. exists 400, "Missing required fields: tableNo, items, total".
      split; [auto |].
      unfold Postgres.post_order, route. rewrite Ht, Hi, Hl. reflexivity. }
  destruct (truthy (Req.total body)) eqn:Htot.
  2:{ left. exists 400, "Missing required fields: tableNo, items, total".
      split; [auto |].
      unfold Postgres.post_order, route. rewrite Ht, Hi, Hl, Htot.
      reflexivity. }
  assert (G : negb (truthy (Req.tableNo body))
               || negb (truthy (Req.items body))
               || negb (truthy (js_length (Req.items body)))
               || negb (truthy (Req.total body)) = false)
    by (rewrite Ht, Hi, Hl, Htot; reflexivity).
  assert (Hcase : (exists l, Req.items body = JArr l) \/
                  (forall l, Req.items body <> JArr l))
    by (destruct (Req.items body); try (right; discriminate); left; eauto).
  destruct Hcase as [[l Ei] | Hn].
  - assert (Hne : l <> []) by (intros ->; rewrite Ei in Hl; discriminate).
    destruct (Postgres.pool_ok e) eqn:Ed.
    + right. exists l. repeat split; auto.
      apply pg_post_order_placed; auto.
    + left. exists 500, "DatabaseError". split; [auto |].
      unfold Postgres.post_order, route. rewrite G, Ei.
      unfold bind, items_map, ret, Postgres.Order_create, Postgres.query, bind.
      rewrite Ed. reflexivity.
  - left. exists 500, "items.map is not a function".
    split; [auto |].
    unfold Postgres.post_order, route. rewrite G.
    destruct (Req.items body); try reflexivity.
    exfalso. eapply Hn. reflexivity.
Qed.

(** ** What a run of [PUT /api/order/:id/status] does *)

Lemma mongo_put_status_unrecognized (e : Mongo.Env) (id : string)
    (st : JsVal) (s : Mongo.Server) :
  ~ recognized st ->
  Mongo.put_status e id st s = (Failure 400 "Invalid status", s).
Proof.
  intros H. unfold Mongo.put_status, route.
  rewrite (includes_unrecognized st H). reflexivity.
Qed.

Lemma mongo_put_status_cast_error (e : Mongo.Env) (id : string)
    (st : JsVal) (s : Mongo.Server) :
  recognized st ->
  Mongo.castObjectId id = None ->
  Mongo.put_status e id st s = (Failure 500 (Mongo.CastError id), s).
Proof.
  intros H Hc. apply includes_recognized in H.
  unfold Mongo.put_status, route. rewrite H. simpl.
  unfold bind, Mongo.findByIdAndUpdate. rewrite Hc. reflexivity.
Qed.

Lemma mongo_put_status_driver_down (e : Mongo.Env) (id : string)
    (st : JsVal) (s : Mongo.Server) :
  recognized st ->
  (Mongo.readyState e =? 1) && Mongo.driver_ok e = false ->
  exists error, Mongo.put_status e id st s = (Failure 500 error, s).
Proof.
  intros H Hd.
  destruct (Mongo.castObjectId id) as [oid |] eqn:Hc.
  - apply includes_recognized in H.
    unfold Mongo.put_status, route. rewrite H. simpl.
    unfold bind, Mongo.findByIdAndUpdate. rewrite Hc.
    unfold bind, Mongo.driver. rewrite Hd. eauto.
  - rewrite (mongo_put_status_cast_error e id st s H Hc). eauto.
Qed.

Lemma mongo_put_status_not_found (e : Mongo.Env) (id oid : string)
    (st : JsVal) (s : Mongo.Server) :
  recognized st ->
  (Mongo.readyState e =? 1) && Mongo.driver_ok e = true ->
  Mongo.castObjectId id = Some oid ->
  find (Mongo.has_id oid) (Mongo.orders s) = None ->
  Mongo.put_status e id st s = (Failure 404 "Order not found", s).
Proof.
  intros H Hd Hc Hf. apply includes_recognized in H.
  unfold Mongo.put_status, route. rewrite H. simpl.
  unfold bind, Mongo.findByIdAndUpdate. rewrite Hc.
  unfold bind, Mongo.driver. rewrite Hd, Hf.
  reflexivity.
Qed.

Lemma mongo_put_status_found (e : Mongo.Env) (id oid : string)
    (st : JsVal) (s : Mongo.Server) (o : Mongo.Order) :
  recognized st ->
  (Mongo.readyState e =? 1) && Mongo.driver_ok e = true ->
  Mongo.castObjectId id = Some oid ->
  find (Mongo.has_id oid) (Mongo.orders s) = Some o ->
  Mongo.put_status e id st s
  = (Success 200 (Mongo.set_status st (Mongo.now e) o),
     mongo_updated e oid st o s).
Proof.
  intros H Hd Hc Hf. apply includes_recognized in H.
  unfold Mongo.put_status, route, mongo_updated. rewrite H. simpl.
  unfold bind, Mongo.findByIdAndUpdate. rewrite Hc.
  unfold bind, Mongo.driver. rewrite Hd, Hf.
  simpl. rewrite app3. reflexivity.
Qed.

(** Every run of [PUT /api/order/:id/status] of the document-store server:
    either it fails and leaves the state, or the id casts to an [ObjectId]
    [oid] and the document with that id is updated. *)
Lemma mongo_put_status_run (e : Mongo.Env) (id : string) (st : JsVal)
    (s : Mongo.Server) :
  (exists code error,
      (code = 400 \/ code = 404 \/ code = 500) /\
      Mongo.put_status e id st s = (Failure code error, s)) \/
  (exists o oid,
      recognized st /\
      (Mongo.castObjectId id = Some oid /\
       find (Mongo.has_id oid) (Mongo.orders s) = Some o) /\
      Mongo.put_status e id st s
      = (Success 200 (Mongo.set_status st (Mongo.now e) o),
         mongo_updated e oid st o s)).
Proof.
  destruct (includes validStatuses st) eqn:Hr.
  - apply includes_recognized in Hr.
    destruct (Mongo.castObjectId id) as [oid |] eqn:Hc.
    + destruct ((Mongo.readyState e =? 1) && Mongo.driver_ok e) eqn:Hd.
      * destruct (find (Mongo.has_id oid) (Mongo.orders s)) as [o |] eqn:Hf.
        -- right. exists o, oid. repeat split; auto.
           apply mongo_put_status_found; auto.
        -- left. exists 404, "Order not found". split; [auto |].
           apply (mongo_put_status_not_found e id oid); auto.
      * left. destruct (mongo_put_status_driver_down e id st s Hr Hd)
          as [error Herr].
        exists 500, error. split; [auto | exact Herr].
    + left. exists 500, (Mongo.CastError id). split; [auto |].
      apply mongo_put_status_cast_error; auto.
  - left. exists 400, "Invalid status". split; [auto |].
    apply mongo_put_status_unrecognized.
    intros H. apply includes_recognized in H. congruence.
Qed.

Lemma parseInt_cases (s : string) :
  parseInt s = JNaN \/ exists n, parseInt s = JNum n.
Proof.
  unfold parseInt.
  destruct (match skip_spaces s with
            | String "-" r => (-1, r)
            | String "+" r => (1, r)
            | _ => (1, skip_spaces s)
            end) as [sign s2].
  destruct (match s2 with
            | String "0" (String "x" r) => (16, r)
            | String "0" (String "X" r) => (16, r)
            | _ => (10, s2)
            end) as [radix s3].
  destruct (digits radix s3 None); eauto.
Qed.

(** The identifier guard of the relational server lets exactly the
    identifiers through that [parseInt] reads as a number. *)
Lemma pg_id_guard (orderId : string) (n : Z) :
  parseInt orderId = JNum n ->
  String.eqb orderId "" || String.eqb orderId "undefined"
  || isNaN (parseInt orderId) = false.
Proof.
  intros H.
  destruct (String.eqb_spec orderId ""); [subst; discriminate |].
  destruct (String.eqb_spec orderId "undefined"); [subst; discriminate |].
  rewrite H. reflexivity.
Qed.

Lemma pg_put_status_invalid_id (e : Postgres.Env) (orderId : string)
    (st : JsVal) (s : Postgres.Server) :
  parseInt orderId = JNaN ->
  Postgres.put_status e orderId st s = (Failure 400 "Invalid order ID", s).
Proof.
  intros H. unfold Postgres.put_status, route. rewrite H. simpl.
  rewrite orb_true_r. reflexivity.
Qed.

Lemma pg_put_status_unrecognized (e : Postgres.Env) (orderId : string)
    (st : JsVal) (s : Postgres.Server) :
  ~ recognized st ->
  exists error,
    Postgres.put_status e orderId st s = (Failure 400 error, s).
Proof.
  intros H. destruct (parseInt_cases orderId) as [Hn | [n Hn]].
  - exists "Invalid order ID". apply pg_put_status_invalid_id. exact Hn.
  - exists "Invalid status". unfold Postgres.put_status, route.
    rewrite (pg_id_guard orderId n Hn), (includes_unrecognized st H).
    reflexivity.
Qed.

Lemma pg_put_status_pool_down (e : Postgres.Env) (orderId : string) (n : Z)
    (st : JsVal) (s : Postgres.Server) :
  parseInt orderId = JNum n -> recognized st ->
  Postgres.pool_ok e = false ->
  Postgres.put_status e orderId st s = (Failure 500 "DatabaseError", s).
Proof.
  intros Hn H Hd. apply includes_recognized in H.
  unfold Postgres.put_status, route.
  rewrite (pg_id_guard orderId n Hn), H. simpl.
  unfold bind, Postgres.Order_updateStatus, Postgres.query, bind.
  rewrite Hd. reflexivity.
Qed.

Lemma pg_put_status_not_found (e : Postgres.Env) (orderId : string) (n : Z)
    (st : JsVal) (s : Postgres.Server) :
  parseInt orderId = JNum n -> recognized st ->
  Postgres.pool_ok e = true ->
  find (Postgres.has_id (JNum n)) (Postgres.rows s) = None ->
  Postgres.put_status e orderId st s = (Failure 404 "Order not found", s).
Proof.
  intros Hn H Hd Hf. apply includes_recognized in H.
  unfold Postgres.put_status, route.
  rewrite (pg_id_guard orderId n Hn), H. simpl.
  unfold bind, Postgres.Order_updateStatus, Postgres.query, bind.
  rewrite Hd, Hn, Hf. reflexivity.
Qed.

Lemma pg_find_update_first (key : JsVal) (f : Postgres.Row -> Postgres.Row)
    (l : list Postgres.Row) (r : Postgres.Row) :
  (forall x, Postgres.has_id key (f x) = Postgres.has_id key x) ->
  find (Postgres.has_id key) l = Some r ->
  find (Postgres.has_id key) (Postgres.update_first key f l) = Some (f r).
Proof.
  intros Hf. induction l as [| x l IH]; simpl; [discriminate |].
  destruct (Postgres.has_id key x) eqn:E; simpl.
  - intros H. inversion H. subst x. rewrite Hf, E. reflexivity.
  - intros H. rewrite E. apply IH. exact H.
Qed.

Lemma pg_put_status_found (e : Postgres.Env) (orderId : string) (n : Z)
    (st : JsVal) (s : Postgres.Server) (r : Postgres.Row) :
  parseInt orderId = JNum n -> recognized st ->
  Postgres.pool_ok e = true ->
  find (Postgres.has_id (JNum n)) (Postgres.rows s) = Some r ->
  Postgres.put_status e orderId st s
  = (Success 200
       (Postgres.record (Postgres.set_status st (Postgres.now e) r)),
     pg_updated e (JNum n) st r s).
Proof.
  intros Hn H Hd Hf. apply includes_recognized in H.
  unfold Postgres.put_status, route, pg_updated.
  rewrite (pg_id_guard orderId n Hn), H. simpl.
  unfold bind, Postgres.Order_updateStatus, Postgres.Order_findById,
    Postgres.query, bind.
  rewrite Hd, Hn, Hf. simpl.
  rewrite (pg_find_update_first (JNum n) _ _ r) by (auto || reflexivity).
  simpl. rewrite app3. reflexivity.
Qed.

(** Every run of [PUT /api/order/:id/status] of the relational server. *)
Lemma pg_put_status_run (e : Postgres.Env) (orderId : string) (st : JsVal)
    (s : Postgres.Server) :
  (exists code error,
      (code = 400 \/ code = 404 \/ code = 500) /\
      Postgres.put_status e orderId st s = (Failure code error, s)) \/
  (exists n r,
      parseInt orderId = JNum n /\ recognized st /\
      find (Postgres.has_id (JNum n)) (Postgres.rows s) = Some r /\
      Postgres.put_status e orderId st s
      = (Success 200
           (Postgres.record (Postgres.set_status st (Postgres.now e) r)),
         pg_updated e (JNum n) st r s)).
Proof.
  destruct (parseInt_cases orderId) as [Hn | [n Hn]].
  { left. exists 400, "Invalid order ID". split; [auto |].
    apply pg_put_status_invalid_id. exact Hn. }
  destruct (includes validStatuses st) eqn:Hr.
  - apply includes_recognized in Hr.
    destruct (Postgres.pool_ok e) eqn:Hd.
    + destruct (find (Postgres.has_id (JNum n)) (Postgres.rows s))
        as [r |] eqn:Hf.
      * right. exists n, r. repeat split; auto.
        apply pg_put_status_found; auto.
      * left. exists 404, "Order not found". split; [auto |].
        eapply pg_put_status_not_found; eauto.
    + left. exists 500, "DatabaseError". split; [auto |].
      eapply pg_put_status_pool_down; eauto.
  - left. assert (Hu : ~ recognized st)
      by (intros H; apply includes_recognized in H; congruence).
    destruct (pg_put_status_unrecognized e orderId st s Hu) as [error He].
    exists 400, error. split; [auto | exact He].
Qed.

(** ** Placed orders *)

Lemma positive_number_truthy (v : JsVal) :
  positive_number v -> truthy v = true.
Proof.
  intros [n [-> Hn]]. simpl. apply negb_true_iff, Z.eqb_neq. lia.
Qed.

Lemma positive_integer_truthy (v : JsVal) :
  positive_integer v -> truthy v = true.
Proof.
  intros [n [-> Hn]]. simpl. apply negb_true_iff, Z.eqb_neq. lia.
Qed.

Lemma plus_Math_max (xs : list Z) :
  xs <> [] -> exists m, plus (Math_max xs) 5 = Fin (m + 5) /\ maximum m xs.
Proof.
  intros H. destruct (Math_max_maximum xs H) as [m [Hm Hmax]].
  exists m. rewrite Hm. split; [reflexivity | exact Hmax].
Qed.

Lemma mongo_order_pending (e : Mongo.Env) (body : Req.order) (l : list Item) :
  Mongo.status (mongo_order e body l) = JStr "pending".
Proof. unfold mongo_order. destruct (mongo_store e); reflexivity. Qed.

Lemma mongo_order_estimatedTime (e : Mongo.Env) (body : Req.order)
    (l : list Item) :
  Mongo.estimatedTime (mongo_order e body l)
  = plus (Math_max (map (fun item => js_or (prepTime item) 15) l)) 5.
Proof. unfold mongo_order. destruct (mongo_store e); reflexivity. Qed.

(** C2 (as amended). For every valid [placeOrder] input ([tableNo] a positive
    integer, [items] a non-empty sequence, [total] positive) and a store that
    takes the write, the order is returned with status [pending] and with an
    [estimatedTime] of the maximum over the items of the item's preparation
    time, plus 5; the preparation time of an item is its [prepTime], and 15
    when [prepTime] is absent or 0 (in the relational server: its
    [prep_time], and 15 when that is absent or 0 too). *)
Theorem placeOrder_pending_with_estimate (body : Req.order) (l : list Item) :
  positive_integer (Req.tableNo body) ->
  Req.items body = JArr l -> l <> [] ->
  positive_number (Req.total body) ->
  (forall e s,
      (Mongo.readyState e = 1 -> Mongo.driver_ok e = true) ->
      exists o m,
        fst (Mongo.post_order e body s) = Success 201 o /\
        Mongo.status o = JStr "pending" /\
        Mongo.estimatedTime o = Fin (m + 5) /\
        maximum m (map (fun item => js_or (prepTime item) 15) l)) /\
  (forall e s,
      Postgres.pool_ok e = true ->
      exists data m,
        fst (Postgres.post_order e body s) = Success 201 data /\
        lookup "status" data = Some (JStr "pending") /\
        lookup "estimatedTime" data = Some (JNum (m + 5)) /\
        maximum m
          (map (fun item => js_or (prepTime item) (js_or (prep_time item) 15))
             l)).
Proof.
  intros Ht Hi Hl Htot.
  apply positive_integer_truthy in Ht. apply positive_number_truthy in Htot.
  split; intros e s Hd.
  - destruct (plus_Math_max (map (fun item => js_or (prepTime item) 15) l))
      as [m [Hm Hmax]].
    { destruct l; [congruence | discriminate]. }
    exists (mongo_order e body l), m.
    rewrite (mongo_post_order_placed e body s l Ht Hi Hl Htot Hd).
    rewrite mongo_order_pending, mongo_order_estimatedTime, Hm. auto.
  - destruct (plus_Math_max
                (map (fun item =>
                        js_or (prepTime item) (js_or (prep_time item) 15)) l))
      as [m [Hm Hmax]].
    { destruct l; [congruence | discriminate]. }
    exists (Postgres.record (pg_order e body l s)), m.
    rewrite (pg_post_order_placed e body s l Ht Hi Hl Htot Hd).
    unfold pg_order. simpl. rewrite Hm. auto.
Qed.

Lemma placeOrder_pending_with_estimate_witness :
  (exists o m,
      fst (Mongo.post_order (online 1000) table4_pizza Mongo.init)
      = Success 201 o /\
      Mongo.status o = JStr "pending" /\
      Mongo.estimatedTime o = Fin (m + 5) /\
      maximum m (map (fun item => js_or (prepTime item) 15) [pizza])) /\
  (exists data m,
      fst (Postgres.post_order (pg_up 1000) table4_pizza Postgres.init)
      = Success 201 data /\
      lookup "status" data = Some (JStr "pending") /\
      lookup "estimatedTime" data = Some (JNum (m + 5)) /\
      maximum m
        (map (fun item => js_or (prepTime item) (js_or (prep_time item) 15))
           [pizza])).
Proof.
  assert (Ht : positive_integer (Req.tableNo table4_pizza))
    by (exists 4; split; [reflexivity | lia]).
  assert (Hl : [pizza] <> []) by discriminate.
  assert (Htot : positive_number (Req.total table4_pizza))
    by (exists 698; split; [reflexivity | lia]).
  split.
  - apply (proj1 (placeOrder_pending_with_estimate table4_pizza [pizza]
                    Ht eq_refl Hl Htot) (online 1000) Mongo.init).
    reflexivity.
  - apply (proj2 (placeOrder_pending_with_estimate table4_pizza [pizza]
                    Ht eq_refl Hl Htot) (pg_up 1000) Postgres.init).
    reflexivity.
Defined.

(** The example of the specification: a pizza of 20 minutes gives 25. *)
Example placeOrder_pizza_25 :
  exists o,
    fst (Mongo.post_order (online 1000) table4_pizza Mongo.init)
    = Success 201 o /\
    Mongo.status o = JStr "pending" /\ Mongo.estimatedTime o = Fin 25.
Proof. eexists. repeat split. Qed.

(** C2 (as stated) fails: an item whose [prepTime] is present and 0 counts
    as 15, so that an order of this one item is estimated at 20, not at
    0 + 5. *)
Lemma placeOrder_zero_prepTime_counts_15 :
  positive_integer (Req.tableNo table4_water) /\
  non_empty_sequence (Req.items table4_water) /\
  positive_number (Req.total table4_water) /\
  maximum 0 (map spec_prepTime [water]) /\
  exists o,
    fst (Mongo.post_order (online 1000) table4_water Mongo.init)
    = Success 201 o /\
    Mongo.estimatedTime o = Fin 20 /\
    Mongo.estimatedTime o <> Fin (0 + 5).
Proof.
  split; [exists 4; split; [reflexivity | lia] |].
  split; [exists water, []; reflexivity |].
  split; [exists 20; split; [reflexivity | lia] |].
  split.
  - split; [left; reflexivity | repeat constructor].
    unfold spec_prepTime, water. simpl. lia.
  - eexists. split; [reflexivity |]. split; [reflexivity | discriminate].
Qed.

(** ** Published events *)

Lemma lookup_cons (k k' : string) (v : JsVal) (r : Object) :
  lookup k ((k', v) :: r) = if String.eqb k' k then Some v else lookup k r.
Proof. reflexivity. Qed.

(** Case analysis on the key [k] that [H : lookup k [...] = Some v] finds. *)
Ltac by_key H k :=
  repeat (rewrite lookup_cons in H;
          match type of H with
          | context [String.eqb ?a k] =>
              destruct (String.eqb_spec a k); [subst k |]
          end);
  [.. | cbn in H; discriminate H].

Lemma pg_newOrder_snapshot (row : Postgres.Row) :
  snapshot_without ["updatedAt"] (Postgres.newOrder_payload row)
    (Postgres.record row).
Proof.
  intros k v Hk H. unfold Postgres.record in H.
  by_key H k; inversion H; subst;
    try (left; reflexivity); try (right; split; reflexivity).
  exfalso. apply Hk. simpl. tauto.
Qed.

Lemma pg_orderConfirmed_snapshot (row : Postgres.Row) :
  snapshot_without ["tableNo"; "items"; "total"; "createdAt"; "updatedAt"]
    (Postgres.orderConfirmed_payload row) (Postgres.record row).
Proof.
  intros k v Hk H. unfold Postgres.record in H.
  by_key H k; inversion H; subst;
    try (left; reflexivity); try (right; split; reflexivity);
    exfalso; apply Hk; simpl; tauto.
Qed.

(** C3 (as amended). Every successful [placeOrder] call publishes exactly
    two events, after its write: [newOrder] to the kitchen room and
    [orderConfirmed] to the room of the table of the request. In the
    document-store server both payloads are the created order itself. In the
    relational server the payload of [newOrder] is the created order without
    [updatedAt], and the payload of [orderConfirmed] is its identity, status
    and estimated time only. *)
Theorem placeOrder_publishes_two_events :
  (forall e body s code o,
      fst (Mongo.post_order e body s) = Success code o ->
      Mongo.trace (snd (Mongo.post_order e body s))
      = Mongo.trace s
        ++ [Mongo.Write (mongo_store e) o;
            Mongo.Emit chef_portal "newOrder" (Mongo.toJSON o);
            Mongo.Emit (table_ (Req.tableNo body)) "orderConfirmed"
              (Mongo.toJSON o)] /\
      full_snapshot (Mongo.toJSON o) (Mongo.toJSON o)) /\
  (forall e body s code data,
      fst (Postgres.post_order e body s) = Success code data ->
      exists row,
        data = Postgres.record row /\
        Postgres.trace (snd (Postgres.post_order e body s))
        = Postgres.trace s
          ++ [Postgres.Write row;
              Postgres.Emit chef_portal "newOrder"
                (Postgres.newOrder_payload row);
              Postgres.Emit (table_ (Req.tableNo body)) "orderConfirmed"
                (Postgres.orderConfirmed_payload row)] /\
        snapshot_without ["updatedAt"] (Postgres.newOrder_payload row) data /\
        snapshot_without
          ["tableNo"; "items"; "total"; "createdAt"; "updatedAt"]
          (Postgres.orderConfirmed_payload row) data).
Proof.
  split.
  - intros e body s code o H.
    destruct (mongo_post_order_run e body s)
      as [[c [err [_ Hrun]]] | [l [_ [_ [_ Hrun]]]]];
      rewrite Hrun in H |- *; simpl in H; [discriminate |].
    inversion H. subst. split; [reflexivity |].
    intros k v _ Hl. left. exact Hl.
  - intros e body s code data H.
    destruct (pg_post_order_run e body s)
      as [[c [err [_ Hrun]]] | [l [_ [_ [_ Hrun]]]]];
      rewrite Hrun in H |- *; simpl in H; [discriminate |].
    inversion H. subst. exists (pg_order e body l s).
    split; [reflexivity |]. split; [reflexivity |].
    split; [apply pg_newOrder_snapshot | apply pg_orderConfirmed_snapshot].
Qed.

Lemma placeOrder_publishes_two_events_witness :
  let o := mongo_order (online 1000) table4_pizza [pizza] in
  Mongo.trace mongo_one_order
  = [Mongo.Write Mongo.Collection o;
     Mongo.Emit chef_portal "newOrder" (Mongo.toJSON o);
     Mongo.Emit (table_ (JNum 4)) "orderConfirmed" (Mongo.toJSON o)].
Proof.
  exact (proj1 (proj1 placeOrder_publishes_two_events
                  (online 1000) table4_pizza Mongo.init 201
                  (mongo_order (online 1000) table4_pizza [pizza])
                  eq_refl)).
Defined.

(** C3 (as stated) fails in the relational server: the payload of
    [orderConfirmed] has no [items] (nor [tableNo], [total], [createdAt]),
    so that it is not the full snapshot of the created order. *)
Lemma pg_orderConfirmed_not_full_snapshot :
  exists data payload,
    fst (Postgres.post_order (pg_up 1000) table4_pizza Postgres.init)
    = Success 201 data /\
    In (Postgres.Emit (table_ (JNum 4)) "orderConfirmed" payload)
      (Postgres.trace pg_one_order) /\
    lookup "items" data = Some (JArr [pizza]) /\
    lookup "items" payload = None /\
    ~ full_snapshot payload data.
Proof.
  eexists. eexists. split; [reflexivity |].
  split; [right; right; left; reflexivity |].
  split; [reflexivity |]. split; [reflexivity |].
  intros H.
  destruct (H "items" (JArr [pizza])) as [H1 | [H1 _]];
    [intros [] | reflexivity | discriminate | discriminate].
Qed.

(** ** Status updates *)

(** C4. For every order id and every new status that is not one of the six
    recognized values, [updateStatus] fails with a [ValidationError] and
    leaves the server state as it was: the stored order (if any) is
    unchanged and no event is published. This holds in both servers. *)
Theorem updateStatus_unrecognized_rejected (st : JsVal) :
  ~ recognized st ->
  (forall e id s,
      ValidationError (fst (Mongo.put_status e id st s)) /\
      snd (Mongo.put_status e id st s) = s) /\
  (forall e id s,
      ValidationError (fst (Postgres.put_status e id st s)) /\
      snd (Postgres.put_status e id st s) = s).
Proof.
  intros H. split; intros e id s.
  - rewrite (mongo_put_status_unrecognized e id st s H). split; reflexivity.
  - destruct (pg_put_status_unrecognized e id st s H) as [error ->].
    split; reflexivity.
Qed.

Lemma updateStatus_unrecognized_rejected_witness :
  (let run :=
     Mongo.put_status (online 2000) oid1 (JStr "done") mongo_one_order in
   ValidationError (fst run) /\ snd run = mongo_one_order) /\
  (let run := Postgres.put_status (pg_up 2000) "1" (JStr "done") pg_one_order in
   ValidationError (fst run) /\ snd run = pg_one_order).
Proof.
  assert (H : ~ recognized (JStr "done")).
  { intros [s [H Hin]]. inversion H. subst s. simpl in Hin.
    repeat destruct Hin as [Hin | Hin]; try discriminate Hin. exact Hin. }
  split.
  - apply (proj1 (updateStatus_unrecognized_rejected (JStr "done") H)).
  - apply (proj2 (updateStatus_unrecognized_rejected (JStr "done") H)).
Defined.

(** ** Orders that do not exist *)


Lemma to_int_not_nil (z : Z) : Z.to_int z <> Pos Nil /\ Z.to_int z <> Neg Nil.
Proof.
  destruct z; simpl; split; try discriminate; intros H; inversion H as [H1];
    exact (DecimalPos.Unsigned.to_uint_nonnil _ H1).
Qed.

Lemma toString_inj (a b : Z) : toString a = toString b -> a = b.
Proof.
  unfold toString. intros H. apply DecimalZ.to_int_inj.
  assert (Ha := NilZero.isi (Z.to_int a) (proj1 (to_int_not_nil a))
                  (proj2 (to_int_not_nil a))).
  assert (Hb := NilZero.isi (Z.to_int b) (proj1 (to_int_not_nil b))
                  (proj2 (to_int_not_nil b))).
  rewrite H in Ha. rewrite Ha in Hb. congruence.
Qed.

Lemma string_of_list_ascii_length (l : list ascii) :
  String.length (string_of_list_ascii l) = List.length l.
Proof. induction l as [| c l IH]; simpl; congruence. Qed.

Lemma hex_list_length (k : nat) (n : Z) :
  List.length (Mongo.hex_list k n) = k.
Proof.
  revert n. induction k as [| k IH]; intros n; simpl; [reflexivity |].
  rewrite length_app, IH. simpl. lia.
Qed.

Lemma hex_digit_lower (d : Z) :
  0 <= d < 16 ->
  Mongo.is_hex (Mongo.hex_digit d) = true
  /\ Mongo.to_lower (Mongo.hex_digit d) = Mongo.hex_digit d.
Proof.
  intros H.
  assert (Hd : d = 0 \/ d = 1 \/ d = 2 \/ d = 3 \/ d = 4 \/ d = 5 \/ d = 6
               \/ d = 7 \/ d = 8 \/ d = 9 \/ d = 10 \/ d = 11 \/ d = 12
               \/ d = 13 \/ d = 14 \/ d = 15) by lia.
  repeat destruct Hd as [-> | Hd]; try subst d; split; reflexivity.
Qed.

Lemma hex_list_lower (k : nat) (n : Z) :
  Forall (fun c => Mongo.is_hex c = true /\ Mongo.to_lower c = c)
    (Mongo.hex_list k n).
Proof.
  revert n. induction k as [| k IH]; intros n; simpl; [constructor |].
  apply Forall_app. split; [apply IH |].
  constructor; [| constructor].
  apply hex_digit_lower. apply Z.mod_pos_bound. lia.
Qed.

(** The text of an [ObjectId] casts to itself. *)
Lemma castObjectId_toHexString (n : Z) :
  Mongo.castObjectId (Mongo.toHexString n) = Some (Mongo.toHexString n).
Proof.
  unfold Mongo.castObjectId, Mongo.toHexString, Mongo.toLowerCase.
  rewrite string_of_list_ascii_length, hex_list_length.
  rewrite list_ascii_of_string_of_list_ascii.
  pose proof (hex_list_lower 24 n) as H.
  assert (Hhex : forallb Mongo.is_hex (Mongo.hex_list 24 n) = true).
  { apply forallb_forall. intros c Hc.
    rewrite Forall_forall in H. apply (H c Hc). }
  assert (Hlow : map Mongo.to_lower (Mongo.hex_list 24 n)
                 = Mongo.hex_list 24 n).
  { rewrite <- (map_id (Mongo.hex_list 24 n)) at 2.
    apply map_ext_in. intros c Hc.
    rewrite Forall_forall in H. apply (H c Hc). }
  rewrite Hhex, Hlow. reflexivity.
Qed.

Lemma mongo_get_order_online (e : Mongo.Env) (id oid : string)
    (s : Mongo.Server) :
  Mongo.readyState e = 1 -> Mongo.driver_ok e = true ->
  Mongo.castObjectId id = Some oid ->
  Mongo.get_order e id s
  = (match find (Mongo.has_id oid) (Mongo.orders s) with
     | Some order => Success 200 order
     | None => Failure 404 "Order not found"
     end, s).
Proof.
  intros Hr Hd Hc. unfold Mongo.get_order, route.
  rewrite Hr. simpl.
  unfold bind, Mongo.findById. rewrite Hc.
  unfold bind, Mongo.driver. rewrite Hr, Hd. simpl.
  destruct (find (Mongo.has_id oid) (Mongo.orders s)); reflexivity.
Qed.


Lemma mongo_get_order_offline (e : Mongo.Env) (id : string) (s : Mongo.Server) :
  Mongo.readyState e <> 1 ->
  Mongo.get_order e id s
  = (match find (Mongo.has_id id) (Mongo.inMemoryOrders s) with
     | Some order => Success 200 order
     | None => Failure 404 "Order not found"
     end, s).
Proof.
  intros Hr. apply Z.eqb_neq in Hr. unfold Mongo.get_order, route.
  rewrite Hr. simpl.
  destruct (find (Mongo.has_id id) (Mongo.inMemoryOrders s)); reflexivity.
Qed.

Lemma pg_get_order_up (e : Postgres.Env) (id : string) (s : Postgres.Server) :
  Postgres.pool_ok e = true ->
  Postgres.get_order e id s
  = (match find (Postgres.has_id (JStr id)) (Postgres.rows s) with
     | Some order => Success 200 (Postgres.record order)
     | None => Failure 404 "Order not found"
     end, s).
Proof.
  intros Hd. unfold Postgres.get_order, route.
  unfold bind, Postgres.Order_findById, Postgres.query, bind. rewrite Hd.
  destruct (find (Postgres.has_id (JStr id)) (Postgres.rows s)); reflexivity.
Qed.



(** In the document-store server the id counts as the [ObjectId] it writes:
    in upper case it names the same order, and a text that writes none is
    not looked up at all. *)
Example mongo_order_ids :
  fst (Mongo.get_order (online 2000) oid1_upper mongo_one_order)
  = fst (Mongo.get_order (online 2000) oid1 mongo_one_order) /\
  code_of (fst (Mongo.get_order (online 2000) oid1 mongo_one_order)) = 200 /\
  code_of (fst (Mongo.get_order (online 2000) "abc" mongo_one_order)) = 500 /\
  code_of (fst (Mongo.put_status (online 2000) "abc" (JStr "ready")
                  mongo_one_order)) = 500.
Proof. repeat split. Qed.


(** ** [parseInt] reads the text of a number back *)

Lemma digits_step (c : ascii) (r : string) (acc : option Z) (k : Z) :
  digit_of 10 c = Some k ->
  digits 10 (String c r) acc
  = digits 10 r (Some (10 * match acc with Some a => a | None => 0 end + k)).
Proof. intros H. simpl. rewrite H. reflexivity. Qed.

Ltac digit_cases IH :=
  match goal with
  | |- digits 10 (String ?c _) _ = _ =>
      let k := eval vm_compute in (digit_of 10 c) in
      match k with
      | Some ?d => rewrite (digits_step c _ _ d) by reflexivity
      end
  end.

Lemma digits_of_uint_acc (d : uint) (acc : positive) :
  digits 10 (NilEmpty.string_of_uint d) (Some (Zpos acc))
  = Some (Zpos (Pos.of_uint_acc d acc)).
Proof.
  revert acc. induction d; intros acc;
    cbn [NilEmpty.string_of_uint Pos.of_uint_acc]; [reflexivity | ..];
    digit_cases IHd; rewrite <- IHd; f_equal; f_equal; lia.
Qed.

Lemma digits_of_uint_zero (d : uint) :
  digits 10 (NilEmpty.string_of_uint d) (Some 0)
  = Some (Z.of_N (Pos.of_uint d)).
Proof.
  induction d; cbn [NilEmpty.string_of_uint Pos.of_uint];
    [reflexivity | ..]; digit_cases IHd;
    [exact IHd | ..];
    (etransitivity; [| apply digits_of_uint_acc]); reflexivity.
Qed.

Lemma digits_of_uint (d : uint) :
  d <> Nil ->
  digits 10 (NilEmpty.string_of_uint d) None = Some (Z.of_N (Pos.of_uint d)).
Proof.
  destruct d; [congruence | ..]; intros _;
    cbn [NilEmpty.string_of_uint Pos.of_uint]; digit_cases I;
    [apply digits_of_uint_zero | ..];
    (etransitivity; [| apply digits_of_uint_acc]); reflexivity.
Qed.

Ltac reduce_parseInt :=
  unfold parseInt; cbn [NilEmpty.string_of_uint skip_spaces];
  repeat match goal with
         | |- context [is_space ?c] =>
             let b := eval vm_compute in (is_space c) in
             change (is_space c) with b
         end;
  cbv beta iota zeta.

Lemma parseInt_uint (d : uint) :
  d <> Nil ->
  parseInt (NilEmpty.string_of_uint d) = JNum (Z.of_N (Pos.of_uint d)) /\
  parseInt (String "-" (NilEmpty.string_of_uint d))
  = JNum (- Z.of_N (Pos.of_uint d)).
Proof.
  intros H. pose proof (digits_of_uint d H) as Hd.
  destruct d as [| d | d | d | d | d | d | d | d | d | d]; [congruence | ..].
  1: destruct d.
  all: cbn [NilEmpty.string_of_uint] in Hd; reduce_parseInt; rewrite Hd;
    split; f_equal; lia.
Qed.

Lemma parseInt_toString (n : Z) : parseInt (toString n) = JNum n.
Proof.
  unfold toString. destruct n as [| p | p]; [reflexivity | |].
  - simpl Z.to_int. simpl NilZero.string_of_int.
    assert (Hn := DecimalPos.Unsigned.to_uint_nonnil p).
    unfold NilZero.string_of_uint.
    destruct (Pos.to_uint p) eqn:E; [congruence | ..];
      rewrite (proj1 (parseInt_uint _ Hn)), <- E, DecimalPos.Unsigned.of_to;
      reflexivity.
  - simpl Z.to_int. simpl NilZero.string_of_int.
    assert (Hn := DecimalPos.Unsigned.to_uint_nonnil p).
    unfold NilZero.string_of_uint.
    destruct (Pos.to_uint p) eqn:E; [congruence | ..];
      rewrite (proj2 (parseInt_uint _ Hn)), <- E, DecimalPos.Unsigned.of_to;
      reflexivity.
Qed.

(** ** Reading an order back after an update *)

Lemma mongo_find_update_first (id : string)
    (f : Mongo.Order -> Mongo.Order) (l : list Mongo.Order) (o : Mongo.Order) :
  (forall x, Mongo.has_id id (f x) = Mongo.has_id id x) ->
  find (Mongo.has_id id) l = Some o ->
  find (Mongo.has_id id) (Mongo.update_first id f l) = Some (f o).
Proof.
  intros Hf. induction l as [| x l IH]; simpl; [discriminate |].
  destruct (Mongo.has_id id x) eqn:E; simpl.
  - intros H. inversion H. subst x. rewrite Hf, E. reflexivity.
  - intros H. rewrite E. apply IH. exact H.
Qed.

Lemma find_ext {A : Type} (p q : A -> bool) (l : list A) :
  (forall x, p x = q x) -> find p l = find q l.
Proof.
  intros H. induction l as [| a l IH]; simpl; [reflexivity |].
  rewrite H, IH. reflexivity.
Qed.

(** The text of a number identifies the same row as the number. *)
Lemma pg_has_id_toString (n : Z) (r : Postgres.Row) :
  Postgres.has_id (JStr (toString n)) r = Postgres.has_id (JNum n) r.
Proof.
  simpl. destruct (Z.eqb_spec (Postgres.id r) n) as [-> | Hne].
  - apply String.eqb_refl.
  - apply String.eqb_neq. intros H. apply toString_inj in H. congruence.
Qed.

(** C6 (as amended). After every successful [updateStatus] on an existing
    order, [getOrder] on the same id (the text of its number, in the
    relational server), asked of a store that answers, returns an order whose
    status is the new status and whose [updatedAt] is the time of the update:
    it is strictly later than the [updatedAt] before the update exactly when
    the clock has moved past that one in between. *)
Theorem updateStatus_then_getOrder :
  (forall e id st s code o,
      fst (Mongo.put_status e id st s) = Success code o ->
      forall e',
        Mongo.readyState e' = 1 -> Mongo.driver_ok e' = true ->
        exists o',
          fst (Mongo.get_order e' id (snd (Mongo.put_status e id st s)))
          = Success 200 o' /\
          Mongo.status o' = st /\
          Mongo.updatedAt o' = Some (Mongo.now e)) /\
  (forall e n st s code data,
      fst (Postgres.put_status e (toString n) st s) = Success code data ->
      forall e',
        Postgres.pool_ok e' = true ->
        exists data',
          fst (Postgres.get_order e' (toString n)
                 (snd (Postgres.put_status e (toString n) st s)))
          = Success 200 data' /\
          lookup "status" data' = Some st /\
          lookup "updatedAt" data' = Some (JDate (Postgres.now e))).
Proof.
  split.
  - intros e id st s code o H e' Hr Hd.
    destruct (mongo_put_status_run e id st s)
      as [[c [err [_ Hrun]]] | [o0 [oid [_ [[Hc Hf] Hrun]]]]];
      rewrite Hrun in H |- *; simpl in H; [discriminate |].
    exists (Mongo.set_status st (Mongo.now e) o0).
    simpl snd. rewrite (mongo_get_order_online e' id oid _ Hr Hd Hc).
    unfold mongo_updated. simpl Mongo.orders.
    rewrite (mongo_find_update_first oid _ _ o0) by (auto || reflexivity).
    repeat split.
  - intros e n st s code data H e' Hd.
    pose proof (parseInt_toString n) as Hn.
    destruct (pg_put_status_run e (toString n) st s)
      as [[c [err [_ Hrun]]] | [n0 [r [Hn0 [_ [Hf Hrun]]]]]];
      rewrite Hrun in H |- *; simpl in H; [discriminate |].
    assert (n0 = n) by congruence. subst n0.
    exists (Postgres.record (Postgres.set_status st (Postgres.now e) r)).
    simpl snd. rewrite (pg_get_order_up e' (toString n) _ Hd).
    unfold pg_updated. simpl Postgres.rows.
    rewrite (find_ext _ _ _ (pg_has_id_toString n)).
    rewrite (pg_find_update_first (JNum n) _ _ r) by (auto || reflexivity).
    repeat split.
Qed.

Lemma updateStatus_then_getOrder_witness :
  exists o',
    fst (Mongo.get_order (online 3000) oid1 mongo_preparing) = Success 200 o' /\
    Mongo.status o' = JStr "preparing" /\
    Mongo.updatedAt o' = Some 2000.
Proof.
  exact (proj1 updateStatus_then_getOrder
           (online 2000) oid1 (JStr "preparing") mongo_one_order 200 _
           eq_refl (online 3000) eq_refl eq_refl).
Defined.

(** C6 (as stated) fails: an order that is updated twice within the same
    millisecond has, after the second update, the [updatedAt] it had before
    it, not a strictly later one. *)
Lemma updateStatus_same_millisecond :
  exists before after,
    fst (Mongo.get_order (online 2000) oid1 mongo_preparing)
    = Success 200 before /\
    code_of (fst (Mongo.put_status (online 2000) oid1 (JStr "ready")
                    mongo_preparing)) = 200 /\
    fst (Mongo.get_order (online 3000) oid1 mongo_ready) = Success 200 after /\
    Mongo.status after = JStr "ready" /\
    Mongo.updatedAt before = Some 2000 /\
    Mongo.updatedAt after = Some 2000 /\
    ~ (exists t t',
          Mongo.updatedAt before = Some t /\ Mongo.updatedAt after = Some t' /\
          t < t').
Proof.
  eexists. eexists.
  split; [reflexivity |]. split; [reflexivity |]. split; [reflexivity |].
  split; [reflexivity |]. split; [reflexivity |]. split; [reflexivity |].
  intros [t [t' [H1 [H2 Hlt]]]]. simpl in H1, H2.
  inversion H1. inversion H2. lia.
Qed.

(** ** Listing orders *)

Lemma insert_desc_perm {A : Type} (time : A -> Z) (o : A) (l : list A) :
  Permutation (o :: l) (insert_desc time o l).
Proof.
  induction l as [| x r IH]; simpl; [apply Permutation_refl |].
  destruct (time x <? time o); [apply Permutation_refl |].
  eapply perm_trans; [apply perm_swap | apply perm_skip, IH].
Qed.

Lemma sort_desc_perm {A : Type} (time : A -> Z) (l : list A) :
  Permutation l (sort_desc time l).
Proof.
  induction l as [| x r IH]; simpl; [apply perm_nil |].
  eapply perm_trans; [apply perm_skip, IH | apply insert_desc_perm].
Qed.

Lemma insert_desc_hd {A : Type} (time : A -> Z) (a o : A) (l : list A) :
  time o <= time a ->
  HdRel (fun a b => time b <= time a) a l ->
  HdRel (fun a b => time b <= time a) a (insert_desc time o l).
Proof.
  intros Ho Hl. destruct l as [| x r]; simpl.
  - constructor. exact Ho.
  - destruct (time x <? time o); constructor; [exact Ho |].
    inversion Hl. assumption.
Qed.

Lemma insert_desc_descending {A : Type} (time : A -> Z) (o : A) (l : list A) :
  descending time l -> descending time (insert_desc time o l).
Proof.
  unfold descending. induction l as [| x r IH]; simpl; intros H.
  - repeat constructor.
  - destruct (Z.ltb_spec (time x) (time o)) as [Hlt | Hge].
    + constructor; [exact H | constructor; lia].
    + inversion H as [| ? ? Hs Hh]. subst.
      constructor; [apply IH; exact Hs |].
      apply insert_desc_hd; assumption.
Qed.

Lemma sort_desc_descending {A : Type} (time : A -> Z) (l : list A) :
  descending time (sort_desc time l).
Proof.
  induction l as [| x r IH]; simpl; [constructor |].
  apply insert_desc_descending. exact IH.
Qed.

Lemma sort_desc_In {A : Type} (time : A -> Z) (l : list A) (x : A) :
  In x (sort_desc time l) <-> In x l.
Proof.
  split; apply Permutation_in;
    [apply Permutation_sym |]; apply sort_desc_perm.
Qed.

(** What the document-store server lists: the orders that have the status of
    the query, whatever [tableNo] the query names, latest first. *)
Lemma mongo_get_orders_by_status (e : Mongo.Env) (q : Req.query)
    (s : Mongo.Server) :
  Mongo.readyState e = 1 -> Mongo.driver_ok e = true ->
  exists l,
    Mongo.get_orders e q s = (Success 200 l, s) /\
    descending Mongo.createdAt l /\
    forall o,
      In o l <->
      In o (Mongo.orders s) /\
      forall st, Mongo.status_filter q = Some st -> Mongo.status o = JStr st.
Proof.
  intros Hr Hd. eexists. split; [| split].
  - unfold Mongo.get_orders, route, bind, Mongo.find_sorted, Mongo.driver, bind.
    rewrite Hr, Hd. reflexivity.
  - apply sort_desc_descending.
  - intros o. split.
    + intros H. apply sort_desc_In in H.
      apply filter_In in H. destruct H as [Hin Hm]. split; [exact Hin |].
      intros st Hst. unfold Mongo.matches in Hm. rewrite Hst in Hm.
      destruct (Mongo.status o); try discriminate.
      apply String.eqb_eq in Hm. congruence.
    + intros [Hin Hst]. apply sort_desc_In.
      apply filter_In. split; [exact Hin |].
      unfold Mongo.matches. destruct (Mongo.status_filter q) as [st |];
        [| reflexivity].
      rewrite (Hst st eq_refl). apply String.eqb_refl.
Qed.

(** What the relational server lists: the orders that pass both filters of
    the query, latest first. *)
Lemma pg_get_orders_filtered (e : Postgres.Env) (q : Req.query)
    (s : Postgres.Server) :
  Postgres.pool_ok e = true ->
  exists l,
    Postgres.get_orders e q s = (Success 200 (map Postgres.transformed l), s) /\
    descending Postgres.created_at l /\
    forall r,
      In r l <->
      In r (Postgres.rows s) /\
      (forall st,
          Req.status q = Some st -> st <> "" -> Postgres.status r = JStr st) /\
      (forall t,
          Req.table q = Some t -> t <> "" ->
          exists n, parseInt t = JNum n /\ Postgres.table_no r = JNum n).
Proof.
  intros Hd. eexists. split; [| split].
  - unfold Postgres.get_orders, route, bind, Postgres.Order_findAll,
      Postgres.query, bind.
    rewrite Hd. reflexivity.
  - apply sort_desc_descending.
  - intros r. rewrite sort_desc_In, filter_In.
    unfold Postgres.matches, Postgres.given. simpl.
    apply and_iff_compat_l. rewrite andb_true_iff. split.
    + intros [Hs Ht]. split.
      * intros st Hq Hne. rewrite Hq in Hs.
        apply String.eqb_neq in Hne. rewrite Hne in Hs. simpl in Hs.
        destruct (Postgres.status r); try discriminate.
        apply String.eqb_eq in Hs. congruence.
      * intros t Hq Hne. rewrite Hq in Ht.
        apply String.eqb_neq in Hne. rewrite Hne in Ht. simpl in Ht.
        destruct (parseInt t) as [| | b | k | | str | ms | items];
          try discriminate.
        exists k. split; [reflexivity |].
        destruct (Postgres.table_no r); try discriminate.
        apply Z.eqb_eq in Ht. congruence.
    + intros [Hs Ht]. split.
      * destruct (Req.status q) as [st |]; [| reflexivity].
        destruct (String.eqb_spec st "") as [Hempty | Hgiven];
          [reflexivity |]. simpl.
        rewrite (Hs st eq_refl Hgiven). apply String.eqb_refl.
      * destruct (Req.table q) as [t |]; [| reflexivity].
        destruct (String.eqb_spec t "") as [Hempty | Hgiven];
          [reflexivity |]. simpl.
        destruct (Ht t eq_refl Hgiven) as [k [Hn Hr]].
        rewrite Hn, Hr. apply Z.eqb_refl.
Qed.

(** C7 fails in the document-store server: asked for the orders of table 2,
    it answers with the orders of every table, latest first. *)
Theorem mongo_listOrders_ignores_tableNo :
  exists l,
    Mongo.get_orders (online 3000) of_table2 mongo_two_tables
    = (Success 200 l, mongo_two_tables) /\
    map Mongo.tableNo l = [JNum 2; JNum 1].
Proof. eexists. split; reflexivity. Qed.

(** The relational server answers the same query with the order of table 2
    only. *)
Example pg_listOrders_of_table2 :
  exists l,
    Postgres.get_orders (pg_up 3000) of_table2 pg_two_tables
    = (Success 200 l, pg_two_tables) /\
    map (lookup "tableNo") l = [Some (JNum 2)].
Proof. eexists. split; reflexivity. Qed.

(** ** The stored status *)

Lemma recognized_pending : recognized (JStr "pending").
Proof. exists "pending". split; [reflexivity | simpl; tauto]. Qed.

Lemma mongo_get_order_state (e : Mongo.Env) (id : string) (s : Mongo.Server) :
  snd (Mongo.get_order e id s) = s.
Proof.
  unfold Mongo.get_order, route.
  destruct (negb (Mongo.readyState e =? 1)).
  - destruct (find (Mongo.has_id id) (Mongo.inMemoryOrders s)); reflexivity.
  - unfold bind, Mongo.findById.
    destruct (Mongo.castObjectId id) as [oid |]; [| reflexivity].
    unfold bind, Mongo.driver.
    destruct ((Mongo.readyState e =? 1) && Mongo.driver_ok e);
      [| reflexivity].
    destruct (find (Mongo.has_id oid) (Mongo.orders s)); reflexivity.
Qed.

Lemma mongo_get_orders_state (e : Mongo.Env) (q : Req.query)
    (s : Mongo.Server) :
  snd (Mongo.get_orders e q s) = s.
Proof.
  unfold Mongo.get_orders, route, bind, Mongo.find_sorted, Mongo.driver, bind.
  destruct ((Mongo.readyState e =? 1) && Mongo.driver_ok e); reflexivity.
Qed.

Lemma pg_get_order_state (e : Postgres.Env) (id : string)
    (s : Postgres.Server) :
  snd (Postgres.get_order e id s) = s.
Proof.
  unfold Postgres.get_order, route, bind, Postgres.Order_findById,
    Postgres.query, bind.
  destruct (Postgres.pool_ok e); [| reflexivity].
  destruct (find (Postgres.has_id (JStr id)) (Postgres.rows s)); reflexivity.
Qed.

Lemma pg_get_orders_state (e : Postgres.Env) (q : Req.query)
    (s : Postgres.Server) :
  snd (Postgres.get_orders e q s) = s.
Proof.
  unfold Postgres.get_orders, route, bind, Postgres.Order_findAll,
    Postgres.query, bind.
  destruct (Postgres.pool_ok e); reflexivity.
Qed.

Lemma mongo_update_first_In (id : string) (f : Mongo.Order -> Mongo.Order)
    (l : list Mongo.Order) (x : Mongo.Order) :
  In x (Mongo.update_first id f l) -> In x l \/ exists y, In y l /\ x = f y.
Proof.
  induction l as [| a l IH]; simpl; [tauto |].
  destruct (Mongo.has_id id a); simpl.
  - intros [<- | H]; [right; exists a; auto | auto].
  - intros [<- | H]; [auto |].
    destruct (IH H) as [H1 | [y [Hy ->]]]; [auto | right; exists y; auto].
Qed.

Lemma pg_update_first_In (key : JsVal) (f : Postgres.Row -> Postgres.Row)
    (l : list Postgres.Row) (x : Postgres.Row) :
  In x (Postgres.update_first key f l) ->
  In x l \/ exists y, In y l /\ x = f y.
Proof.
  induction l as [| a l IH]; simpl; [tauto |].
  destruct (Postgres.has_id key a); simpl.
  - intros [<- | H]; [right; exists a; auto | auto].
  - intros [<- | H]; [auto |].
    destruct (IH H) as [H1 | [y [Hy ->]]]; [auto | right; exists y; auto].
Qed.

Lemma mongo_status_invariant (s : Mongo.Server) :
  Mongo.reachable s ->
  forall o,
    In o (Mongo.orders s) \/ In o (Mongo.inMemoryOrders s) ->
    recognized (Mongo.status o).
Proof.
  induction 1 as [| e c s Hs IH]; [intros o [[] | []] |].
  destruct c as [body | id | q | id st]; simpl.
  - destruct (mongo_post_order_run e body s)
      as [[c [err [_ Hrun]]] | [l [_ [_ [_ Hrun]]]]];
      rewrite Hrun; simpl; [exact IH |].
    intros o Ho.
    assert (Hcase : (In o (Mongo.orders s) \/ In o (Mongo.inMemoryOrders s))
                    \/ o = mongo_order e body l).
    { destruct (mongo_store e); destruct Ho as [Ho | Ho];
        try (apply in_app_or in Ho; destruct Ho as [Ho | [<- | []]]); auto. }
    destruct Hcase as [Hold | ->]; [apply IH; exact Hold |].
    rewrite mongo_order_pending. apply recognized_pending.
  - rewrite mongo_get_order_state. exact IH.
  - rewrite mongo_get_orders_state. exact IH.
  - destruct (mongo_put_status_run e id st s)
      as [[c [err [_ Hrun]]] | [o0 [oid [Hst [_ Hrun]]]]];
      rewrite Hrun; simpl; [exact IH |].
    intros o [Ho | Ho]; [| apply IH; auto].
    apply mongo_update_first_In in Ho.
    destruct Ho as [Ho | [y [_ ->]]]; [apply IH; auto | exact Hst].
Qed.

Lemma pg_status_invariant (s : Postgres.Server) :
  Postgres.reachable s ->
  forall r, In r (Postgres.rows s) -> recognized (Postgres.status r).
Proof.
  induction 1 as [| e c s Hs IH]; [intros r [] |].
  destruct c as [body | id | q | id st]; simpl.
  - destruct (pg_post_order_run e body s)
      as [[c [err [_ Hrun]]] | [l [_ [_ [_ Hrun]]]]];
      rewrite Hrun; simpl; [exact IH |].
    intros r Hr. apply in_app_or in Hr.
    destruct Hr as [Hr | [<- | []]]; [apply IH; exact Hr |].
    apply recognized_pending.
  - rewrite pg_get_order_state. exact IH.
  - rewrite pg_get_orders_state. exact IH.
  - destruct (pg_put_status_run e id st s)
      as [[c [err [_ Hrun]]] | [n [r0 [_ [Hst [_ Hrun]]]]]];
      rewrite Hrun; simpl; [exact IH |].
    intros r Hr. apply pg_update_first_In in Hr.
    destruct Hr as [Hr | [y [_ ->]]]; [apply IH; auto | exact Hst].
Qed.

(** C8. In every reachable state of either server, the status of every
    stored order (a document of the collection, an object of the in-memory
    list, a row of the table) is one of the six defined values. *)
Theorem persisted_status_recognized :
  (forall s,
      Mongo.reachable s ->
      forall o,
        In o (Mongo.orders s) \/ In o (Mongo.inMemoryOrders s) ->
        recognized (Mongo.status o)) /\
  (forall s,
      Postgres.reachable s ->
      forall r, In r (Postgres.rows s) -> recognized (Postgres.status r)).
Proof.
  split; [exact mongo_status_invariant | exact pg_status_invariant].
Qed.

Lemma persisted_status_recognized_witness :
  recognized
    (Mongo.status
       (Mongo.set_status (JStr "preparing") 2000
          (mongo_order (online 1000) table4_pizza [pizza]))) /\
  recognized
    (Postgres.status
       (pg_order (pg_up 1000) table4_pizza [pizza] Postgres.init)).
Proof.
  split.
  - apply (proj1 persisted_status_recognized mongo_preparing);
      [| left; left; reflexivity].
    apply (Mongo.reachable_exec (online 2000)
             (Mongo.UpdateStatus oid1 (JStr "preparing"))).
    apply (Mongo.reachable_exec (online 1000) (Mongo.PlaceOrder table4_pizza)).
    apply Mongo.reachable_init.
  - apply (proj2 persisted_status_recognized pg_one_order);
      [| left; reflexivity].
    apply (Postgres.reachable_exec (pg_up 1000)
             (Postgres.PlaceOrder table4_pizza)).
    apply Postgres.reachable_init.
Defined.

(** ** Writes come before emissions *)

Lemma after_write_nil {E : Type} (is_write is_emit : E -> bool) :
  after_write is_write is_emit [].
Proof. intros pre x post H. destruct pre; discriminate H. Qed.

Lemma after_write_cons {E : Type} (is_write is_emit : E -> bool)
    (w : E) (es : list E) :
  is_write w = true -> is_emit w = false ->
  after_write is_write is_emit (w :: es).
Proof.
  intros Hw He pre x post H Hx. destruct pre as [| a pre'].
  - simpl in H. inversion H. subst x. congruence.
  - simpl in H. inversion H. subst a. simpl. rewrite Hw. reflexivity.
Qed.

(** C9. Every run of [placeOrder] and of [updateStatus], in either server,
    adds to the trace a part in which every emission comes after a store
    write that succeeded; and a run whose store write is refused leaves the
    state, hence the trace, as it was: nothing is emitted. *)
Theorem publish_only_after_write :
  (forall e body s,
      exists new,
        Mongo.trace (snd (Mongo.post_order e body s)) = Mongo.trace s ++ new /\
        after_write Mongo.is_write Mongo.is_emit new) /\
  (forall e id st s,
      exists new,
        Mongo.trace (snd (Mongo.put_status e id st s)) = Mongo.trace s ++ new /\
        after_write Mongo.is_write Mongo.is_emit new) /\
  (forall e body s,
      exists new,
        Postgres.trace (snd (Postgres.post_order e body s))
        = Postgres.trace s ++ new /\
        after_write Postgres.is_write Postgres.is_emit new) /\
  (forall e id st s,
      exists new,
        Postgres.trace (snd (Postgres.put_status e id st s))
        = Postgres.trace s ++ new /\
        after_write Postgres.is_write Postgres.is_emit new) /\
  (forall e body s,
      Mongo.readyState e = 1 -> Mongo.driver_ok e = false ->
      snd (Mongo.post_order e body s) = s) /\
  (forall e id st s,
      (Mongo.readyState e =? 1) && Mongo.driver_ok e = false ->
      snd (Mongo.put_status e id st s) = s) /\
  (forall e body s,
      Postgres.pool_ok e = false -> snd (Postgres.post_order e body s) = s) /\
  (forall e id st s,
      Postgres.pool_ok e = false -> snd (Postgres.put_status e id st s) = s).
Proof.
  repeat split.
  - intros e body s.
    destruct (mongo_post_order_run e body s)
      as [[c [err [_ Hrun]]] | [l [_ [_ [_ Hrun]]]]]; rewrite Hrun; simpl.
    + exists []. rewrite app_nil_r.
      split; [reflexivity | apply after_write_nil].
    + eexists. split; [reflexivity |]. apply after_write_cons; reflexivity.
  - intros e id st s.
    destruct (mongo_put_status_run e id st s)
      as [[c [err [_ Hrun]]] | [o [oid [_ [_ Hrun]]]]]; rewrite Hrun; simpl.
    + exists []. rewrite app_nil_r.
      split; [reflexivity | apply after_write_nil].
    + eexists. split; [reflexivity |]. apply after_write_cons; reflexivity.
  - intros e body s.
    destruct (pg_post_order_run e body s)
      as [[c [err [_ Hrun]]] | [l [_ [_ [_ Hrun]]]]]; rewrite Hrun; simpl.
    + exists []. rewrite app_nil_r.
      split; [reflexivity | apply after_write_nil].
    + eexists. split; [reflexivity |]. apply after_write_cons; reflexivity.
  - intros e id st s.
    destruct (pg_put_status_run e id st s)
      as [[c [err [_ Hrun]]] | [n [r [_ [_ [_ Hrun]]]]]]; rewrite Hrun; simpl.
    + exists []. rewrite app_nil_r.
      split; [reflexivity | apply after_write_nil].
    + eexists. split; [reflexivity |]. apply after_write_cons; reflexivity.
  - intros e body s Hr Hd.
    destruct (mongo_post_order_run e body s)
      as [[c [err [_ Hrun]]] | [l [_ [_ [Hok _]]]]].
    + rewrite Hrun. reflexivity.
    + rewrite (Hok Hr) in Hd. discriminate.
  - intros e id st s Hd.
    destruct (mongo_put_status_run e id st s)
      as [[c [err [_ Hrun]]] | [o [oid [Hst [_ Hrun]]]]].
    + rewrite Hrun. reflexivity.
    + destruct (mongo_put_status_driver_down e id st s Hst Hd)
        as [error Herr].
      rewrite Herr. reflexivity.
  - intros e body s Hd.
    destruct (pg_post_order_run e body s)
      as [[c [err [_ Hrun]]] | [l [_ [_ [Hok _]]]]].
    + rewrite Hrun. reflexivity.
    + congruence.
  - intros e id st s Hd.
    destruct (pg_put_status_run e id st s)
      as [[c [err [_ Hrun]]] | [n [r [Hn [Hst [_ Hrun]]]]]].
    + rewrite Hrun. reflexivity.
    + rewrite (pg_put_status_pool_down e id n st s Hn Hst Hd). reflexivity.
Qed.

Lemma publish_only_after_write_witness :
  snd (Postgres.post_order
         {| Postgres.now := 1000; Postgres.pool_ok := false |}
         table4_pizza Postgres.init)
  = Postgres.init.
Proof.
  apply (proj1 (proj2 (proj2 (proj2 (proj2 (proj2 (proj2
           publish_only_after_write))))))).
  reflexivity.
Defined.

(** ** The in-memory fallback *)

Lemma mongo_update_first_found (id : string) (f : Mongo.Order -> Mongo.Order)
    (l : list Mongo.Order) (o : Mongo.Order) :
  find (Mongo.has_id id) l = Some o -> In (f o) (Mongo.update_first id f l).
Proof.
  induction l as [| a l IH]; simpl; [discriminate |].
  destruct (Mongo.has_id id a); simpl.
  - intros H. inversion H. left. reflexivity.
  - intros H. right. apply IH. exact H.
Qed.

Lemma mongo_put_status_memory (e : Mongo.Env) (id : string) (st : JsVal)
    (s : Mongo.Server) :
  Mongo.inMemoryOrders (snd (Mongo.put_status e id st s))
  = Mongo.inMemoryOrders s.
Proof.
  destruct (mongo_put_status_run e id st s)
    as [[c [err [_ Hrun]]] | [o [oid [_ [_ Hrun]]]]]; rewrite Hrun; reflexivity.
Qed.

Lemma mongo_memory_pending (s : Mongo.Server) :
  Mongo.reachable s ->
  forall o, In o (Mongo.inMemoryOrders s) -> Mongo.status o = JStr "pending".
Proof.
  induction 1 as [| e c s Hs IH]; [intros o [] |].
  destruct c as [body | id | q | id st]; simpl.
  - destruct (mongo_post_order_run e body s)
      as [[c [err [_ Hrun]]] | [l [_ [_ [_ Hrun]]]]];
      rewrite Hrun; simpl; [exact IH |].
    destruct (mongo_store e); [exact IH |].
    intros o Ho. apply in_app_or in Ho.
    destruct Ho as [Ho | [<- | []]]; [apply IH; exact Ho |].
    apply mongo_order_pending.
  - rewrite mongo_get_order_state. exact IH.
  - rewrite mongo_get_orders_state. exact IH.
  - rewrite mongo_put_status_memory. exact IH.
Qed.

(** One request keeps every order of the in-memory list. *)
Lemma mongo_exec_memory (e : Mongo.Env) (c : Mongo.Call) (s : Mongo.Server)
    (o : Mongo.Order) :
  In o (Mongo.inMemoryOrders s) ->
  In o (Mongo.inMemoryOrders (Mongo.exec e c s)).
Proof.
  intros Ho. destruct c as [body | id | q | id st]; simpl.
  - destruct (mongo_post_order_run e body s)
      as [[c [err [_ Hrun]]] | [l [_ [_ [_ Hrun]]]]];
      rewrite Hrun; simpl; [exact Ho |].
    destruct (mongo_store e); [exact Ho |].
    apply in_or_app. left. exact Ho.
  - rewrite mongo_get_order_state. exact Ho.
  - rewrite mongo_get_orders_state. exact Ho.
  - rewrite mongo_put_status_memory. exact Ho.
Qed.

Lemma mongo_run_memory (s s' : Mongo.Server) (o : Mongo.Order) :
  mongo_run s s' ->
  In o (Mongo.inMemoryOrders s) -> In o (Mongo.inMemoryOrders s').
Proof.
  induction 1 as [s | e c s s' H IH]; intros Ho; [exact Ho |].
  apply mongo_exec_memory. apply IH. exact Ho.
Qed.

(** C10. In the document-store server, when the connection is down,
    [placeOrder], given a table, a non-empty array of items and a total,
    replies 201 with an order that is [pending], whose id is the text of the
    clock reading, and that it has appended to the in-memory list only;
    whatever requests follow, this very order stays in the in-memory list.
    [getOrder] reads from that list while the connection is down.
    [updateStatus] consults the collection only: it never changes the
    in-memory list, its reply does not depend on that list, what it finds is
    a document of the collection, and it finds nothing while the connection
    is down. Hence an order of the in-memory list has the status [pending]
    in every reachable state. *)
Theorem fallback_orders_stay_pending :
  (forall e body l s,
      Mongo.readyState e <> 1 ->
      truthy (Req.tableNo body) = true ->
      Req.items body = JArr l -> l <> [] ->
      truthy (Req.total body) = true ->
      exists o,
        fst (Mongo.post_order e body s) = Success 201 o /\
        Mongo._id o = toString (Mongo.now e) /\
        Mongo.tableNo o = Req.tableNo body /\
        Mongo.items o = Req.items body /\
        Mongo.total o = Req.total body /\
        Mongo.status o = JStr "pending" /\
        Mongo.orders (snd (Mongo.post_order e body s)) = Mongo.orders s /\
        Mongo.inMemoryOrders (snd (Mongo.post_order e body s))
        = Mongo.inMemoryOrders s ++ [o] /\
        forall s',
          mongo_run (snd (Mongo.post_order e body s)) s' ->
          In o (Mongo.inMemoryOrders s')) /\
  (forall e id s,
      Mongo.readyState e <> 1 ->
      Mongo.get_order e id s
      = (match find (Mongo.has_id id) (Mongo.inMemoryOrders s) with
         | Some order => Success 200 order
         | None => Failure 404 "Order not found"
         end, s)) /\
  (forall e id st s,
      Mongo.inMemoryOrders (snd (Mongo.put_status e id st s))
      = Mongo.inMemoryOrders s) /\
  (forall e id st s mem,
      fst (Mongo.put_status e id st (with_memory mem s))
      = fst (Mongo.put_status e id st s)) /\
  (forall e id st s code o,
      fst (Mongo.put_status e id st s) = Success code o ->
      Mongo.readyState e = 1 /\
      In o (Mongo.orders (snd (Mongo.put_status e id st s)))) /\
  (forall s,
      Mongo.reachable s ->
      forall o, In o (Mongo.inMemoryOrders s) ->
                Mongo.status o = JStr "pending").
Proof.
  split; [| split; [| split; [| split; [| split]]]].
  - intros e body l s Hr Ht Hi Hl Htot.
    assert (Hd : Mongo.readyState e = 1 -> Mongo.driver_ok e = true)
      by (intros H1; contradiction).
    rewrite (mongo_post_order_placed e body s l Ht Hi Hl Htot Hd).
    apply Z.eqb_neq in Hr.
    exists (mongo_order e body l).
    unfold mongo_order, mongo_placed, mongo_store. rewrite Hr. simpl.
    repeat split; try (symmetry; exact Hi).
    intros s' Hrun. apply (mongo_run_memory _ s' _ Hrun).
    simpl. apply in_or_app. right. left. reflexivity.
  - intros e id s Hr. apply mongo_get_order_offline. exact Hr.
  - intros e id st s. apply mongo_put_status_memory.
  - intros e id st s mem.
    destruct (includes validStatuses st) eqn:Hr.
    + apply includes_recognized in Hr.
      destruct (Mongo.castObjectId id) as [oid |] eqn:Hc.
      * destruct ((Mongo.readyState e =? 1) && Mongo.driver_ok e) eqn:Hd.
        -- destruct (find (Mongo.has_id oid) (Mongo.orders s))
             as [o |] eqn:Hf.
           ++ rewrite
                (mongo_put_status_found e id oid st (with_memory mem s) o),
                (mongo_put_status_found e id oid st s o); auto.
           ++ rewrite
                (mongo_put_status_not_found e id oid st (with_memory mem s)),
                (mongo_put_status_not_found e id oid st s); auto.
        -- apply includes_recognized in Hr.
           unfold Mongo.put_status, route. rewrite Hr. simpl.
           unfold bind, Mongo.findByIdAndUpdate. rewrite Hc.
           unfold bind, Mongo.driver. rewrite Hd. reflexivity.
      * rewrite (mongo_put_status_cast_error e id st _ Hr Hc),
          (mongo_put_status_cast_error e id st s Hr Hc). reflexivity.
    + assert (Hu : ~ recognized st)
        by (intros Hc; apply includes_recognized in Hc; congruence).
      rewrite (mongo_put_status_unrecognized e id st _ Hu),
        (mongo_put_status_unrecognized e id st s Hu). reflexivity.
  - intros e id st s code o H.
    destruct (mongo_put_status_run e id st s)
      as [[c [err [_ Hrun]]] | [o0 [oid [Hst [[Hc Hf] Hrun]]]]];
      rewrite Hrun in H |- *; simpl in H; [discriminate |].
    inversion H. split.
    + destruct (Z.eqb_spec (Mongo.readyState e) 1) as [Hr | Hr]; [exact Hr |].
      apply Z.eqb_neq in Hr.
      destruct (mongo_put_status_driver_down e id st s Hst) as [error Herr];
        [rewrite Hr; reflexivity |].
      rewrite Herr in Hrun. discriminate.
    + simpl. apply mongo_update_first_found. exact Hf.
  - exact mongo_memory_pending.
Qed.

Lemma fallback_orders_stay_pending_witness :
  exists o,
    fst (Mongo.post_order (offline 1000) table4_pizza Mongo.init)
    = Success 201 o /\
    Mongo._id o = toString (Mongo.now (offline 1000)) /\
    Mongo.tableNo o = Req.tableNo table4_pizza /\
    Mongo.items o = Req.items table4_pizza /\
    Mongo.total o = Req.total table4_pizza /\
    Mongo.status o = JStr "pending" /\
    Mongo.orders (snd (Mongo.post_order (offline 1000) table4_pizza
                         Mongo.init))
    = Mongo.orders Mongo.init /\
    Mongo.inMemoryOrders (snd (Mongo.post_order (offline 1000) table4_pizza
                                 Mongo.init))
    = Mongo.inMemoryOrders Mongo.init ++ [o] /\
    forall s',
      mongo_run (snd (Mongo.post_order (offline 1000) table4_pizza
                        Mongo.init)) s' ->
      In o (Mongo.inMemoryOrders s').
Proof.
  apply (proj1 fallback_orders_stay_pending (offline 1000) table4_pizza
           [pizza] Mongo.init);
    [discriminate | reflexivity | reflexivity | discriminate | reflexivity].
Defined.

(** The run of the fallback: the order is placed while the connection is
    down and can be read back, but an update of its id is refused, be the
    connection down or open again: the id, which is the text of a clock
    reading, does not write an [ObjectId]. With the order still in the
    in-memory list, [getOrder] on the open connection is refused as well. *)
Example fallback_order_cannot_be_updated :
  exists o,
    fst (Mongo.get_order (offline 2000) "1000" mongo_fallback_order)
    = Success 200 o /\
    Mongo.status o = JStr "pending" /\
    Mongo.put_status (offline 2000) "1000" (JStr "ready") mongo_fallback_order
    = (Failure 500 (Mongo.CastError "1000"), mongo_fallback_order) /\
    Mongo.put_status (online 2000) "1000" (JStr "ready") mongo_fallback_order
    = (Failure 500 (Mongo.CastError "1000"), mongo_fallback_order) /\
    Mongo.get_order (online 2000) "1000" mongo_fallback_order
    = (Failure 500 (Mongo.CastError "1000"), mongo_fallback_order).
Proof. eexists. repeat split. Qed.

(** ** Further properties of the order routes *)

(** X1. The read routes of both servers ([GET /api/order/:id] and
    [GET /api/orders]) are pure reads: whatever they reply, the store and the
    trace of emissions are the ones before the request. *)
Theorem reads_change_nothing :
  (forall e id s, snd (Mongo.get_order e id s) = s) /\
  (forall e q s, snd (Mongo.get_orders e q s) = s) /\
  (forall e id s, snd (Postgres.get_order e id s) = s) /\
  (forall e q s, snd (Postgres.get_orders e q s) = s).
Proof.
  split; [exact mongo_get_order_state |].
  split; [exact mongo_get_orders_state |].
  split; [exact pg_get_order_state | exact pg_get_orders_state].
Qed.

Lemma mongo_get_orders_down (e : Mongo.Env) (q : Req.query)
    (s : Mongo.Server) :
  (Mongo.readyState e =? 1) && Mongo.driver_ok e = false ->
  Mongo.get_orders e q s = (Failure 500 "MongooseError", s).
Proof.
  intros Hd.
  unfold Mongo.get_orders, route, bind, Mongo.find_sorted, Mongo.driver, bind.
  rewrite Hd. reflexivity.
Qed.

(** X2. [GET /api/orders] of the document-store server: with an open
    connection it lists exactly the documents of the collection that have
    the status of the query (all of them when the query names none), latest
    first; it has no fallback: with the connection down it replies 500,
    whatever the in-memory list holds. *)
Theorem mongo_listOrders_status_latest_first (e : Mongo.Env) (q : Req.query)
    (s : Mongo.Server) :
  (Mongo.readyState e = 1 -> Mongo.driver_ok e = true ->
   exists l,
     Mongo.get_orders e q s = (Success 200 l, s) /\
     descending Mongo.createdAt l /\
     forall o,
       In o l <->
       In o (Mongo.orders s) /\
       forall st, Mongo.status_filter q = Some st -> Mongo.status o = JStr st)
  /\
  (Mongo.readyState e <> 1 ->
   Mongo.get_orders e q s = (Failure 500 "MongooseError", s)).
Proof.
  split.
  - intros Hr Hd. apply mongo_get_orders_by_status; assumption.
  - intros Hr. apply mongo_get_orders_down.
    apply Z.eqb_neq in Hr. rewrite Hr. reflexivity.
Qed.

Lemma mongo_listOrders_status_latest_first_witness :
  (exists l,
      Mongo.get_orders (online 3000) of_table2 mongo_two_tables
      = (Success 200 l, mongo_two_tables) /\
      descending Mongo.createdAt l /\
      forall o,
        In o l <->
        In o (Mongo.orders mongo_two_tables) /\
        forall st,
          Mongo.status_filter of_table2 = Some st -> Mongo.status o = JStr st)
  /\
  Mongo.get_orders (offline 3000) of_table2 mongo_fallback_order
  = (Failure 500 "MongooseError", mongo_fallback_order).
Proof.
  split.
  - apply (proj1 (mongo_listOrders_status_latest_first
                    (online 3000) of_table2 mongo_two_tables));
      reflexivity.
  - apply (proj2 (mongo_listOrders_status_latest_first
                    (offline 3000) of_table2 mongo_fallback_order)).
    discriminate.
Defined.

Lemma find_app_fresh {A : Type} (p : A -> bool) (l : list A) (o : A) :
  (forall x, In x l -> p x = false) -> p o = true ->
  find p (l ++ [o]) = Some o.
Proof.
  intros Hl Ho. induction l as [| a l IH]; simpl.
  - rewrite Ho. reflexivity.
  - rewrite (Hl a) by (left; reflexivity). apply IH.
    intros x Hx. apply Hl. right. exact Hx.
Qed.

Lemma find_app_first {A : Type} (p : A -> bool) (l r : list A) (a : A) :
  find p l = Some a -> find p (l ++ r) = Some a.
Proof.
  induction l as [| x l IH]; simpl; [discriminate |].
  destruct (p x); [trivial | exact IH].
Qed.

Lemma mongo_order_id (e : Mongo.Env) (body : Req.order) (l : list Item) :
  Mongo._id (mongo_order e body l)
  = match mongo_store e with
    | Mongo.Collection => Mongo.objectId e
    | Mongo.Memory => toString (Mongo.now e)
    end.
Proof. unfold mongo_order. destruct (mongo_store e); reflexivity. Qed.

(** X3. A placed order can be read back by its id. With an open connection:
    when the driver gave the document an id that no document had, [getOrder]
    on the id of the returned order returns that order. With the connection
    down: when no in-memory order had the text of the clock reading as its
    id, [getOrder], asked while the connection is still down, returns the
    order that was placed. *)
Theorem placeOrder_then_getOrder :
  (forall e body s code o,
      fst (Mongo.post_order e body s) = Success code o ->
      Mongo.readyState e = 1 ->
      (forall x, In x (Mongo.orders s) -> Mongo._id x <> Mongo.objectId e) ->
      forall e',
        Mongo.readyState e' = 1 -> Mongo.driver_ok e' = true ->
        Mongo.get_order e' (Mongo._id o) (snd (Mongo.post_order e body s))
        = (Success 200 o, snd (Mongo.post_order e body s))) /\
  (forall e body s code o,
      fst (Mongo.post_order e body s) = Success code o ->
      Mongo.readyState e <> 1 ->
      (forall x, In x (Mongo.inMemoryOrders s) ->
                 Mongo._id x <> toString (Mongo.now e)) ->
      forall e',
        Mongo.readyState e' <> 1 ->
        Mongo.get_order e' (Mongo._id o) (snd (Mongo.post_order e body s))
        = (Success 200 o, snd (Mongo.post_order e body s))).
Proof.
  split.
  - intros e body s code o H Hr Hfresh e' Hr' Hd'.
    destruct (mongo_post_order_run e body s)
      as [[c [err [_ Hrun]]] | [l [_ [_ [_ Hrun]]]]];
      rewrite Hrun in H |- *; simpl in H; [discriminate |].
    inversion H. subst code o. simpl snd.
    assert (Hid : Mongo._id (mongo_order e body l) = Mongo.objectId e).
    { rewrite mongo_order_id. unfold mongo_store.
      apply Z.eqb_eq in Hr. rewrite Hr. reflexivity. }
    rewrite Hid.
    rewrite (mongo_get_order_online e' _ (Mongo.objectId e) _ Hr' Hd'
               (castObjectId_toHexString _)).
    unfold mongo_store, mongo_placed.
    apply Z.eqb_eq in Hr. rewrite Hr. simpl Mongo.orders.
    rewrite find_app_fresh; [reflexivity | |].
    + intros x Hx. apply String.eqb_neq. apply Hfresh. exact Hx.
    + unfold Mongo.has_id. rewrite Hid. apply String.eqb_refl.
  - intros e body s code o H Hr Hfresh e' Hr'.
    destruct (mongo_post_order_run e body s)
      as [[c [err [_ Hrun]]] | [l [_ [_ [_ Hrun]]]]];
      rewrite Hrun in H |- *; simpl in H; [discriminate |].
    inversion H. subst code o. simpl snd.
    rewrite (mongo_get_order_offline e' _ _ Hr').
    rewrite mongo_order_id. unfold mongo_store, mongo_placed.
    apply Z.eqb_neq in Hr. rewrite Hr. simpl Mongo.inMemoryOrders.
    rewrite find_app_fresh; [reflexivity | |].
    + intros x Hx. apply String.eqb_neq. apply Hfresh. exact Hx.
    + unfold Mongo.has_id. rewrite mongo_order_id. unfold mongo_store.
      rewrite Hr. apply String.eqb_refl.
Qed.

Lemma placeOrder_then_getOrder_witness :
  Mongo.get_order (online 2000) oid1 mongo_one_order
  = (Success 200 (mongo_order (online 1000) table4_pizza [pizza]),
     mongo_one_order) /\
  Mongo.get_order (offline 2000) "1000" mongo_fallback_order
  = (Success 200 (mongo_order (offline 1000) table4_pizza [pizza]),
     mongo_fallback_order).
Proof.
  split.
  - apply (proj1 placeOrder_then_getOrder (online 1000) table4_pizza
             Mongo.init 201 (mongo_order (online 1000) table4_pizza [pizza]));
      try reflexivity.
    intros x [].
  - apply (proj2 placeOrder_then_getOrder (offline 1000) table4_pizza
             Mongo.init 201 (mongo_order (offline 1000) table4_pizza [pizza]));
      try reflexivity; try discriminate.
    intros x [].
Defined.

(** X4. The id of a fallback order is the text of the clock reading. Two
    orders placed within one millisecond while the connection is down get the
    same id, and [getOrder] on it returns the first of them: the second one
    is stored but cannot be fetched. *)
Theorem fallback_ids_collide_within_a_millisecond
    (e1 e2 : Mongo.Env) (b1 b2 : Req.order) (s : Mongo.Server)
    (c1 c2 : Z) (o1 o2 : Mongo.Order) :
  Mongo.readyState e1 <> 1 -> Mongo.readyState e2 <> 1 ->
  Mongo.now e1 = Mongo.now e2 ->
  (forall x, In x (Mongo.inMemoryOrders s) ->
             Mongo._id x <> toString (Mongo.now e1)) ->
  fst (Mongo.post_order e1 b1 s) = Success c1 o1 ->
  fst (Mongo.post_order e2 b2 (snd (Mongo.post_order e1 b1 s)))
  = Success c2 o2 ->
  let s2 := snd (Mongo.post_order e2 b2 (snd (Mongo.post_order e1 b1 s))) in
  Mongo._id o2 = Mongo._id o1 /\
  In o2 (Mongo.inMemoryOrders s2) /\
  forall e', Mongo.readyState e' <> 1 ->
             Mongo.get_order e' (Mongo._id o2) s2 = (Success 200 o1, s2).
Proof.
  intros Hr1 Hr2 Hnow Hfresh H1 H2.
  destruct (mongo_post_order_run e1 b1 s)
    as [[c [err [_ Hrun1]]] | [l1 [_ [_ [_ Hrun1]]]]];
    rewrite Hrun1 in H1, H2 |- *; simpl in H1; [discriminate |].
  inversion H1. subst c1 o1. simpl snd in *.
  destruct (mongo_post_order_run e2 b2
              (mongo_placed (mongo_store e1) (mongo_order e1 b1 l1)
                 (Req.tableNo b1) s))
    as [[c [err [_ Hrun2]]] | [l2 [_ [_ [_ Hrun2]]]]];
    rewrite Hrun2 in H2 |- *; simpl in H2; [discriminate |].
  inversion H2. subst c2 o2. simpl.
  assert (Hs1 : mongo_store e1 = Mongo.Memory)
    by (unfold mongo_store; apply Z.eqb_neq in Hr1; rewrite Hr1; reflexivity).
  assert (Hs2 : mongo_store e2 = Mongo.Memory)
    by (unfold mongo_store; apply Z.eqb_neq in Hr2; rewrite Hr2; reflexivity).
  assert (Hid : Mongo._id (mongo_order e2 b2 l2)
                = Mongo._id (mongo_order e1 b1 l1))
    by (rewrite !mongo_order_id, Hs1, Hs2, Hnow; reflexivity).
  split; [exact Hid |]. rewrite Hs1, Hs2. simpl. split.
  - apply in_or_app. right. left. reflexivity.
  - intros e' Hr'. rewrite (mongo_get_order_offline e' _ _ Hr'). simpl.
    rewrite Hid.
    rewrite (find_app_first _ _ _ (mongo_order e1 b1 l1)); [reflexivity |].
    apply find_app_fresh.
    + intros x Hx. apply String.eqb_neq. rewrite mongo_order_id, Hs1.
      apply Hfresh. exact Hx.
    + apply String.eqb_refl.
Qed.

Lemma fallback_ids_collide_within_a_millisecond_witness :
  Mongo._id (mongo_order (offline 1000) table2_pizza [pizza])
  = Mongo._id (mongo_order (offline 1000) table4_pizza [pizza]) /\
  In (mongo_order (offline 1000) table2_pizza [pizza])
    (Mongo.inMemoryOrders mongo_same_millisecond) /\
  forall e', Mongo.readyState e' <> 1 ->
             Mongo.get_order e'
               (Mongo._id (mongo_order (offline 1000) table2_pizza [pizza]))
               mongo_same_millisecond
             = (Success 200 (mongo_order (offline 1000) table4_pizza [pizza]),
                mongo_same_millisecond).
Proof.
  apply (fallback_ids_collide_within_a_millisecond
           (offline 1000) (offline 1000) table4_pizza table2_pizza Mongo.init
           201 201);
    try reflexivity; try discriminate.
  intros x [].
Defined.

Lemma extends_refl {A : Type} (l : list A) : extends l l.
Proof. exists []. symmetry. apply app_nil_r. Qed.

Lemma extends_app {A : Type} (l r : list A) : extends l (l ++ r).
Proof. exists r. reflexivity. Qed.

Lemma extends_trans {A : Type} (l1 l2 l3 : list A) :
  extends l1 l2 -> extends l2 l3 -> extends l1 l3.
Proof.
  intros [r1 ->] [r2 ->]. exists (r1 ++ r2). symmetry. apply app_assoc.
Qed.

Lemma mongo_identity_update_first (id : string) (st : JsVal) (t : Z)
    (l : list Mongo.Order) :
  map mongo_identity (Mongo.update_first id (Mongo.set_status st t) l)
  = map mongo_identity l.
Proof.
  induction l as [| o l IH]; simpl; [reflexivity |].
  destruct (Mongo.has_id id o); simpl; [reflexivity |].
  rewrite IH. reflexivity.
Qed.

(** One request: the orders keep their place and their identity, the
    in-memory list and the trace are continued. *)
Lemma mongo_exec_extends (e : Mongo.Env) (c : Mongo.Call) (s : Mongo.Server) :
  extends (map mongo_identity (Mongo.orders s))
    (map mongo_identity (Mongo.orders (Mongo.exec e c s))) /\
  extends (Mongo.inMemoryOrders s) (Mongo.inMemoryOrders (Mongo.exec e c s)) /\
  extends (Mongo.trace s) (Mongo.trace (Mongo.exec e c s)).
Proof.
  destruct c as [body | id | q | id st]; simpl.
  - destruct (mongo_post_order_run e body s)
      as [[c [err [_ Hrun]]] | [l [_ [_ [_ Hrun]]]]]; rewrite Hrun; simpl.
    + repeat split; apply extends_refl.
    + destruct (mongo_store e); repeat split;
        try rewrite map_app; try apply extends_app; apply extends_refl.
  - rewrite mongo_get_order_state. repeat split; apply extends_refl.
  - rewrite mongo_get_orders_state. repeat split; apply extends_refl.
  - destruct (mongo_put_status_run e id st s)
      as [[c [err [_ Hrun]]] | [o [oid [_ [_ Hrun]]]]]; rewrite Hrun; simpl.
    + repeat split; apply extends_refl.
    + rewrite mongo_identity_update_first.
      repeat split; try apply extends_app; apply extends_refl.
Qed.

(** X5. No route of the document-store server deletes or reorders an order,
    nor changes its id, table, items, total, creation time or estimated
    time: along every run the list of these identities is only continued;
    so are the in-memory list (whose orders never change at all) and the
    trace of writes and emissions. *)
Theorem orders_are_only_added (s s' : Mongo.Server) :
  mongo_run s s' ->
  extends (map mongo_identity (Mongo.orders s))
    (map mongo_identity (Mongo.orders s')) /\
  extends (Mongo.inMemoryOrders s) (Mongo.inMemoryOrders s') /\
  extends (Mongo.trace s) (Mongo.trace s').
Proof.
  induction 1 as [s | e c s s' H [IH1 [IH2 IH3]]].
  - repeat split; apply extends_refl.
  - destruct (mongo_exec_extends e c s') as [H1 [H2 H3]].
    repeat split; eapply extends_trans; eassumption.
Qed.

Lemma orders_are_only_added_witness :
  extends (map mongo_identity (Mongo.orders mongo_one_order))
    (map mongo_identity (Mongo.orders mongo_ready)) /\
  extends (Mongo.inMemoryOrders mongo_one_order)
    (Mongo.inMemoryOrders mongo_ready) /\
  extends (Mongo.trace mongo_one_order) (Mongo.trace mongo_ready).
Proof.
  apply (orders_are_only_added mongo_one_order mongo_ready).
  apply (mongo_run_step (online 2000) (Mongo.UpdateStatus oid1 (JStr "ready"))).
  apply (mongo_run_step (online 2000)
           (Mongo.UpdateStatus oid1 (JStr "preparing"))).
  apply mongo_run_refl.
Defined.

Lemma mongo_update_first_other (id : string) (f : Mongo.Order -> Mongo.Order)
    (l : list Mongo.Order) (x : Mongo.Order) :
  (forall y, Mongo._id (f y) = Mongo._id y) ->
  Mongo._id x <> id ->
  (In x (Mongo.update_first id f l) <-> In x l).
Proof.
  intros Hf Hx. induction l as [| a l IH]; simpl; [tauto |].
  destruct (Mongo.has_id id a) eqn:E; simpl.
  - apply String.eqb_eq in E. split.
    + intros [H | H]; [| auto]. exfalso. apply Hx. rewrite <- H, Hf. exact E.
    + intros [H | H]; [| auto]. exfalso. apply Hx. rewrite <- H. exact E.
  - rewrite IH. tauto.
Qed.

(** X6. [updateStatus] of the document-store server touches no order but
    the one it names, which is the document whose id is the [ObjectId] that
    the id of the request writes: whatever it replies, the documents with
    another id and the number of documents are those before the request (and
    no document changes when the id writes no [ObjectId]). *)
Theorem updateStatus_leaves_other_orders (e : Mongo.Env) (id : string)
    (st : JsVal) (s : Mongo.Server) :
  List.length (Mongo.orders (snd (Mongo.put_status e id st s)))
  = List.length (Mongo.orders s) /\
  forall o,
    Some (Mongo._id o) <> Mongo.castObjectId id ->
    (In o (Mongo.orders (snd (Mongo.put_status e id st s))) <->
     In o (Mongo.orders s)).
Proof.
  destruct (mongo_put_status_run e id st s)
    as [[c [err [_ Hrun]]] | [o0 [oid [_ [[Hc _] Hrun]]]]]; rewrite Hrun; simpl.
  - split; [reflexivity | tauto].
  - split.
    + rewrite <- (length_map mongo_identity), mongo_identity_update_first.
      apply length_map.
    + intros o Ho. apply mongo_update_first_other; [reflexivity |].
      intros Heq. apply Ho. rewrite Hc, Heq. reflexivity.
Qed.

Lemma updateStatus_leaves_other_orders_witness :
  In (mongo_order (online 1000) table1_pizza [pizza])
    (Mongo.orders
       (snd (Mongo.put_status (online 3000) oid2 (JStr "ready")
               mongo_two_tables))).
Proof.
  apply (proj2 (updateStatus_leaves_other_orders (online 3000) oid2
                  (JStr "ready") mongo_two_tables)).
  - vm_compute. discriminate.
  - left. reflexivity.
Defined.

Lemma count_app {A : Type} (p : A -> bool) (l r : list A) :
  count p (l ++ r) = (count p l + count p r)%nat.
Proof. unfold count. rewrite filter_app. apply length_app. Qed.

(** X7. Every stored order of the document-store server was announced
    once: in every reachable state the number of [newOrder] emissions and
    the number of [orderConfirmed] emissions both equal the number of stored
    orders (documents and in-memory orders), and there are as many
    [orderStatusUpdate] as [orderStatusUpdated] emissions. *)
Theorem every_order_announced_once (s : Mongo.Server) :
  Mongo.reachable s ->
  count (mongo_emits "newOrder") (Mongo.trace s)
  = (List.length (Mongo.orders s)
     + List.length (Mongo.inMemoryOrders s))%nat /\
  count (mongo_emits "orderConfirmed") (Mongo.trace s)
  = (List.length (Mongo.orders s)
     + List.length (Mongo.inMemoryOrders s))%nat /\
  count (mongo_emits "orderStatusUpdate") (Mongo.trace s)
  = count (mongo_emits "orderStatusUpdated") (Mongo.trace s).
Proof.
  induction 1 as [| e c s Hs [IH1 [IH2 IH3]]]; [repeat split |].
  destruct c as [body | id | q | id st]; simpl.
  - destruct (mongo_post_order_run e body s)
      as [[c [err [_ Hrun]]] | [l [_ [_ [_ Hrun]]]]]; rewrite Hrun; simpl;
      [auto |].
    rewrite !count_app, IH1, IH2, IH3.
    destruct (mongo_store e); rewrite length_app; simpl;
      repeat split; unfold count; simpl; lia.
  - rewrite mongo_get_order_state. auto.
  - rewrite mongo_get_orders_state. auto.
  - destruct (mongo_put_status_run e id st s)
      as [[c [err [_ Hrun]]] | [o [oid [_ [_ Hrun]]]]]; rewrite Hrun; simpl;
      [auto |].
    rewrite !count_app, IH1, IH2, IH3.
    rewrite <- (length_map mongo_identity (Mongo.update_first _ _ _)),
      mongo_identity_update_first, length_map.
    repeat split; unfold count; simpl; lia.
Qed.

Lemma every_order_announced_once_witness :
  count (mongo_emits "newOrder") (Mongo.trace mongo_same_millisecond) = 2%nat.
Proof.
  assert (H : Mongo.reachable mongo_same_millisecond).
  { apply (Mongo.reachable_exec (offline 1000)
             (Mongo.PlaceOrder table2_pizza)).
    apply (Mongo.reachable_exec (offline 1000)
             (Mongo.PlaceOrder table4_pizza)).
    apply Mongo.reachable_init. }
  exact (proj1 (every_order_announced_once mongo_same_millisecond H)).
Defined.

(** The events that go to each kind of room. *)
Lemma mongo_routing_invariant (s : Mongo.Server) :
  Mongo.reachable s ->
  forall room event payload,
    In (Mongo.Emit room event payload) (Mongo.trace s) ->
    (room = chef_portal /\
     (event = "newOrder" \/ event = "orderStatusUpdated")) \/
    (exists t, room = table_ t /\
               (event = "orderConfirmed" \/ event = "orderStatusUpdate")).
Proof.
  induction 1 as [| e c s Hs IH]; [intros room event payload [] |].
  destruct c as [body | id | q | id st]; simpl.
  - destruct (mongo_post_order_run e body s)
      as [[c [err [_ Hrun]]] | [l [_ [_ [_ Hrun]]]]]; rewrite Hrun; simpl;
      [exact IH |].
    intros room event payload H. apply in_app_or in H.
    destruct H as [H | [H | [H | [H | []]]]]; [eauto | discriminate | |];
      inversion H; subst; [left | right]; eauto.
  - rewrite mongo_get_order_state. exact IH.
  - rewrite mongo_get_orders_state. exact IH.
  - destruct (mongo_put_status_run e id st s)
      as [[c [err [_ Hrun]]] | [o [oid [_ [_ Hrun]]]]]; rewrite Hrun; simpl;
      [exact IH |].
    intros room event payload H. apply in_app_or in H.
    destruct H as [H | [H | [H | [H | []]]]]; [eauto | discriminate | |];
      inversion H; subst; [right | left]; eauto.
Qed.

Lemma pg_routing_invariant (s : Postgres.Server) :
  Postgres.reachable s ->
  forall room event payload,
    In (Postgres.Emit room event payload) (Postgres.trace s) ->
    (room = chef_portal /\
     (event = "newOrder" \/ event = "orderStatusUpdated")) \/
    (exists t, room = table_ t /\
               (event = "orderConfirmed" \/ event = "orderStatusUpdate")).
Proof.
  induction 1 as [| e c s Hs IH]; [intros room event payload [] |].
  destruct c as [body | id | q | id st]; simpl.
  - destruct (pg_post_order_run e body s)
      as [[c [err [_ Hrun]]] | [l [_ [_ [_ Hrun]]]]]; rewrite Hrun; simpl;
      [exact IH |].
    intros room event payload H. apply in_app_or in H.
    destruct H as [H | [H | [H | [H | []]]]]; [eauto | discriminate | |];
      inversion H; subst; [left | right]; eauto.
  - rewrite pg_get_order_state. exact IH.
  - rewrite pg_get_orders_state. exact IH.
  - destruct (pg_put_status_run e id st s)
      as [[c [err [_ Hrun]]] | [n [r [_ [_ [_ Hrun]]]]]]; rewrite Hrun; simpl;
      [exact IH |].
    intros room event payload H. apply in_app_or in H.
    destruct H as [H | [H | [H | [H | []]]]]; [eauto | discriminate | |];
      inversion H; subst; [right | left]; eauto.
Qed.

(** X8. Kitchen events and table events never cross, in either server: in
    every reachable state an emission to the kitchen room is a [newOrder] or
    an [orderStatusUpdated], and an emission to a table room is an
    [orderConfirmed] or an [orderStatusUpdate]. *)
Theorem events_go_to_their_rooms :
  (forall s,
      Mongo.reachable s ->
      forall room event payload,
        In (Mongo.Emit room event payload) (Mongo.trace s) ->
        (room = chef_portal /\
         (event = "newOrder" \/ event = "orderStatusUpdated")) \/
        (exists t, room = table_ t /\
                   (event = "orderConfirmed" \/
                    event = "orderStatusUpdate"))) /\
  (forall s,
      Postgres.reachable s ->
      forall room event payload,
        In (Postgres.Emit room event payload) (Postgres.trace s) ->
        (room = chef_portal /\
         (event = "newOrder" \/ event = "orderStatusUpdated")) \/
        (exists t, room = table_ t /\
                   (event = "orderConfirmed" \/
                    event = "orderStatusUpdate"))).
Proof.
  split; [exact mongo_routing_invariant | exact pg_routing_invariant].
Qed.

Lemma events_go_to_their_rooms_witness :
  (chef_portal = chef_portal /\
   ("newOrder" = "newOrder" \/ "newOrder" = "orderStatusUpdated")) \/
  (exists t, chef_portal = table_ t /\
             ("newOrder" = "orderConfirmed" \/
              "newOrder" = "orderStatusUpdate")).
Proof.
  apply (proj1 events_go_to_their_rooms mongo_one_order
           (Mongo.reachable_exec (online 1000) (Mongo.PlaceOrder table4_pizza)
              Mongo.init Mongo.reachable_init)
           chef_portal "newOrder"
           (Mongo.toJSON (mongo_order (online 1000) table4_pizza [pizza]))).
  right. left. reflexivity.
Defined.







(** X10. While the clock of the document-store server never goes back, a
    document is never updated before it was created: in every state so
    reached, each document has an [updatedAt], not earlier than its
    [createdAt] and not later than the latest clock reading. *)
Theorem created_before_updated (t : Z) (s : Mongo.Server) :
  mongo_timed t s ->
  forall o,
    In o (Mongo.orders s) ->
    exists u,
      Mongo.updatedAt o = Some u /\ Mongo.createdAt o <= u /\ u <= t.
Proof.
  induction 1 as [t | e c s t Hs IH Ht]; [intros o [] |].
  assert (Hold : forall o,
             In o (Mongo.orders s) ->
             exists u, Mongo.updatedAt o = Some u /\
                       Mongo.createdAt o <= u /\ u <= Mongo.now e).
  { intros o Ho. destruct (IH o Ho) as [u [Hu [H1 H2]]].
    exists u. repeat split; [exact Hu | exact H1 | lia]. }
  destruct c as [body | id | q | id st]; simpl.
  - destruct (mongo_post_order_run e body s)
      as [[c [err [_ Hrun]]] | [l [_ [_ [_ Hrun]]]]]; rewrite Hrun; simpl;
      [exact Hold |].
    unfold mongo_order. destruct (mongo_store e); [| exact Hold].
    intros o Ho. apply in_app_or in Ho.
    destruct Ho as [Ho | [<- | []]]; [apply Hold; exact Ho |].
    exists (Mongo.now e). simpl. repeat split; lia.
  - rewrite mongo_get_order_state. exact Hold.
  - rewrite mongo_get_orders_state. exact Hold.
  - destruct (mongo_put_status_run e id st s)
      as [[c [err [_ Hrun]]] | [o1 [oid [_ [_ Hrun]]]]]; rewrite Hrun; simpl;
      [exact Hold |].
    intros o Ho. apply mongo_update_first_In in Ho.
    destruct Ho as [Ho | [y [Hy ->]]]; [apply Hold; exact Ho |].
    destruct (IH y Hy) as [u [Hu [H1 H2]]].
    exists (Mongo.now e). simpl. repeat split; lia.
Qed.

Lemma created_before_updated_witness :
  exists u,
    Mongo.updatedAt
      (Mongo.set_status (JStr "preparing") 2000
         (mongo_order (online 1000) table4_pizza [pizza])) = Some u /\
    Mongo.createdAt
      (Mongo.set_status (JStr "preparing") 2000
         (mongo_order (online 1000) table4_pizza [pizza])) <= u /\
    u <= 2000.
Proof.
  apply (created_before_updated 2000 mongo_preparing).
  - apply (mongo_timed_exec (online 2000)
             (Mongo.UpdateStatus oid1 (JStr "preparing")) _ 1000);
      [| simpl; lia].
    apply (mongo_timed_exec (online 1000) (Mongo.PlaceOrder table4_pizza)
             _ 0); [| simpl; lia].
    apply mongo_timed_init.
  - left. reflexivity.
Defined.

(** X11. A text in place of the array of items passes the guard of
    [placeOrder] (it has a length) and fails at [items.map]: both servers
    reply 500, not 400, and neither writes nor publishes. *)
Theorem placeOrder_items_text_is_500 (body : Req.order) (text : string) :
  truthy (Req.tableNo body) = true ->
  Req.items body = JStr text -> text <> "" ->
  truthy (Req.total body) = true ->
  (forall e s,
      Mongo.post_order e body s
      = (Failure 500 "items.map is not a function", s)) /\
  (forall e s,
      Postgres.post_order e body s
      = (Failure 500 "items.map is not a function", s)).
Proof.
  intros Ht Hi Hne Htot.
  assert (Hlen : truthy (js_length (JStr text)) = true).
  { destruct text; [congruence | reflexivity]. }
  assert (Hs : truthy (JStr text) = true).
  { destruct text; [congruence | reflexivity]. }
  split; intros e s.
  - unfold Mongo.post_order, route. rewrite Hi, Ht, Hs, Hlen, Htot.
    reflexivity.
  - unfold Postgres.post_order, route. rewrite Hi, Ht, Hs, Hlen, Htot.
    reflexivity.
Qed.

Lemma placeOrder_items_text_is_500_witness :
  Mongo.post_order (online 1000) items_as_text Mongo.init
  = (Failure 500 "items.map is not a function", Mongo.init) /\
  Postgres.post_order (pg_up 1000) items_as_text Postgres.init
  = (Failure 500 "items.map is not a function", Postgres.init).
Proof.
  assert (H : "pizza" <> "") by discriminate.
  split.
  - apply (proj1 (placeOrder_items_text_is_500 items_as_text "pizza"
                    eq_refl eq_refl H eq_refl)).
  - apply (proj2 (placeOrder_items_text_is_500 items_as_text "pizza"
                    eq_refl eq_refl H eq_refl)).
Defined.

Lemma Math_max_cons (x : Z) (xs : list Z) :
  Math_max (x :: xs)
  = match Math_max xs with
    | Fin m => Fin (Z.max x m)
    | NegInfinity => Fin x
    end.
Proof. reflexivity. Qed.

Lemma Math_max_permutation (xs ys : list Z) :
  Permutation xs ys -> Math_max xs = Math_max ys.
Proof.
  induction 1 as [| x l l' _ IH | x y l | l l' l'' _ IH1 _ IH2].
  - reflexivity.
  - rewrite !Math_max_cons, IH. reflexivity.
  - rewrite !Math_max_cons. destruct (Math_max l); f_equal; lia.
  - congruence.
Qed.

(** X12. The estimated time does not depend on the order in which the items
    are listed: two requests of the document-store server whose item lists
    are permutations of each other get the same [estimatedTime]. *)
Theorem estimate_ignores_item_order (e : Mongo.Env) (s : Mongo.Server)
    (b b' : Req.order) (l l' : list Item) (c c' : Z) (o o' : Mongo.Order) :
  Req.items b = JArr l -> Req.items b' = JArr l' -> Permutation l l' ->
  fst (Mongo.post_order e b s) = Success c o ->
  fst (Mongo.post_order e b' s) = Success c' o' ->
  Mongo.estimatedTime o = Mongo.estimatedTime o'.
Proof.
  intros Hi Hi' Hp H H'.
  destruct (mongo_post_order_run e b s)
    as [[k [err [_ Hrun]]] | [l0 [Hl0 [_ [_ Hrun]]]]];
    rewrite Hrun in H; simpl in H; [discriminate |].
  destruct (mongo_post_order_run e b' s)
    as [[k [err [_ Hrun']]] | [l1 [Hl1 [_ [_ Hrun']]]]];
    rewrite Hrun' in H'; simpl in H'; [discriminate |].
  inversion H. inversion H'. subst.
  rewrite !mongo_order_estimatedTime.
  assert (l0 = l) by congruence. assert (l1 = l') by congruence. subst.
  rewrite (Math_max_permutation _ _ (Permutation_map _ Hp)). reflexivity.
Qed.

Lemma estimate_ignores_item_order_witness :
  Mongo.estimatedTime
    (mongo_order (online 1000)
       {| Req.tableNo := JNum 4; Req.items := JArr [pizza; water];
          Req.total := JNum 718 |} [pizza; water])
  = Mongo.estimatedTime
      (mongo_order (online 1000)
         {| Req.tableNo := JNum 4; Req.items := JArr [water; pizza];
            Req.total := JNum 718 |} [water; pizza]).
Proof.
  apply (estimate_ignores_item_order (online 1000) Mongo.init
           {| Req.tableNo := JNum 4; Req.items := JArr [pizza; water];
              Req.total := JNum 718 |}
           {| Req.tableNo := JNum 4; Req.items := JArr [water; pizza];
              Req.total := JNum 718 |}
           [pizza; water] [water; pizza] 201 201);
    try reflexivity.
  apply perm_swap.
Defined.

(** X13. [PUT /api/order/:id/status] of the relational server knows the id
    of the path only through [parseInt]: two ids that [parseInt] reads alike
    are the same request, so that an id with trailing text, as [12abc],
    addresses order 12. *)
Theorem pg_updateStatus_reads_id_with_parseInt (a b : string) :
  parseInt a = parseInt b ->
  forall e st s, Postgres.put_status e a st s = Postgres.put_status e b st s.
Proof.
  intros Hab e st s.
  destruct (parseInt_cases a) as [Ha | [n Ha]].
  - rewrite (pg_put_status_invalid_id e a st s Ha).
    rewrite (pg_put_status_invalid_id e b st s); [reflexivity | congruence].
  - assert (Hb : parseInt b = JNum n) by congruence.
    unfold Postgres.put_status, route.
    rewrite (pg_id_guard a n Ha), (pg_id_guard b n Hb), Ha, Hb. reflexivity.
Qed.

Lemma pg_updateStatus_reads_id_with_parseInt_witness :
  Postgres.put_status (pg_up 2000) "1abc" (JStr "ready") pg_one_order
  = Postgres.put_status (pg_up 2000) "1" (JStr "ready") pg_one_order.
Proof.
  apply (pg_updateStatus_reads_id_with_parseInt "1abc" "1"). reflexivity.
Defined.

(** ** The QR-code routes: the list *)

Lemma is_digit_cases (c : ascii) :
  QR.is_digit c = true ->
  In c ["0"; "1"; "2"; "3"; "4"; "5"; "6"; "7"; "8"; "9"]%char.
Proof.
  destruct c as [[] [] [] [] [] [] [] []]; intros H;
    vm_compute in H; try discriminate H; simpl; tauto.
Qed.

Lemma is_digit_digit_of (c : ascii) :
  QR.is_digit c = true -> exists k, digit_of 10 c = Some k /\ 0 <= k.
Proof.
  intros H. apply is_digit_cases in H. simpl in H.
  repeat destruct H as [<- | H]; try contradiction;
    match goal with
    | |- exists k, digit_of 10 ?c = Some k /\ _ =>
        let r := eval vm_compute in (digit_of 10 c) in
        match r with
        | Some ?d => exists d; split; [reflexivity | lia]
        end
    end.
Qed.

(** [digits] reads a run of digits to its end. *)
Lemma digits_of_digit_run (g : string) (a : Z) :
  Forall (fun c => QR.is_digit c = true) (list_ascii_of_string g) ->
  0 <= a ->
  exists n, digits 10 g (Some a) = Some n /\ 0 <= n.
Proof.
  revert a. induction g as [| c g IH]; intros a Hg Ha.
  - exists a. split; [reflexivity | exact Ha].
  - simpl in Hg. inversion Hg as [| ? ? Hc Hr]. subst.
    destruct (is_digit_digit_of c Hc) as [k [Hk Hk0]].
    rewrite (digits_step c g (Some a) k Hk). apply IH; [exact Hr | lia].
Qed.

Lemma parseInt_digit_run (g : string) :
  g <> "" ->
  Forall (fun c => QR.is_digit c = true) (list_ascii_of_string g) ->
  exists n, parseInt g = JNum n /\ 0 <= n.
Proof.
  intros Hne Hg. destruct g as [| c g]; [congruence |].
  simpl in Hg. inversion Hg as [| ? ? Hc Hr]. subst.
  assert (Hd : exists n, digits 10 (String c g) None = Some n /\ 0 <= n).
  { destruct (is_digit_digit_of c Hc) as [k [Hk Hk0]].
    rewrite (digits_step c g None k Hk).
    apply digits_of_digit_run; [exact Hr | lia]. }
  destruct Hd as [n [Hn Hn0]]. exists n. split; [| exact Hn0].
  apply is_digit_cases in Hc. simpl in Hc.
  destruct g as [| c' g'].
  - repeat destruct Hc as [<- | Hc]; try contradiction;
      vm_compute in Hn; inversion Hn; reflexivity.
  - simpl in Hr. inversion Hr as [| ? ? Hc' _]. subst.
    apply is_digit_cases in Hc'. simpl in Hc'.
    repeat destruct Hc as [<- | Hc]; try contradiction;
      repeat destruct Hc' as [<- | Hc']; try contradiction;
      unfold parseInt; cbn [skip_spaces];
      repeat match goal with
             | |- context [is_space ?c] =>
                 let b := eval vm_compute in (is_space c) in
                 change (is_space c) with b
             end;
      cbv beta iota zeta; rewrite Hn; f_equal; lia.
Qed.

Lemma span_digits_run (s : string) :
  Forall (fun c => QR.is_digit c = true)
    (list_ascii_of_string (fst (QR.span_digits s))).
Proof.
  induction s as [| c s IH]; simpl; [constructor |].
  destruct (QR.is_digit c) eqn:Hc; [| constructor].
  destruct (QR.span_digits s) as [ds rest]. simpl in *.
  constructor; assumption.
Qed.

Lemma match_here_group (s g : string) :
  QR.match_here s = Some g ->
  g <> "" /\ Forall (fun c => QR.is_digit c = true) (list_ascii_of_string g).
Proof.
  unfold QR.match_here.
  destruct (QR.after_prefix "table-" s) as [r |]; [| discriminate].
  pose proof (span_digits_run r) as Hrun.
  destruct (QR.span_digits r) as [ds rest]. simpl in Hrun.
  destruct ds as [| c ds]; [discriminate |].
  destruct (QR.after_prefix ".png" rest); [| discriminate].
  intros H. inversion H. subst g. split; [discriminate | exact Hrun].
Qed.

Lemma match_table_group (f g : string) :
  QR.match_table f = Some g ->
  g <> "" /\ Forall (fun c => QR.is_digit c = true) (list_ascii_of_string g).
Proof.
  induction f as [| c f IH]; simpl.
  - discriminate.
  - destruct (QR.match_here (String c f)) as [g0 |] eqn:E; [| exact IH].
    intros H. inversion H. subst g0. apply match_here_group in E. exact E.
Qed.

Lemma after_prefix_app (p s r : string) :
  QR.after_prefix p s = Some r -> s = String.append p r.
Proof.
  revert s. induction p as [| a p IH]; intros s; simpl.
  - intros H. inversion H. reflexivity.
  - destruct s as [| b s]; [discriminate |].
    destruct (Ascii.eqb_spec a b) as [-> | Hne]; [| discriminate].
    intros H. rewrite (IH s H). reflexivity.
Qed.

Lemma span_digits_app (s : string) :
  s = String.append (fst (QR.span_digits s)) (snd (QR.span_digits s)).
Proof.
  induction s as [| c s IH]; simpl; [reflexivity |].
  destruct (QR.is_digit c); [| reflexivity].
  destruct (QR.span_digits s) as [ds rest]. simpl in *. congruence.
Qed.

Lemma match_here_app (s g : string) :
  QR.match_here s = Some g ->
  exists post,
    s = String.append "table-" (String.append g (String.append ".png" post)).
Proof.
  unfold QR.match_here.
  destruct (QR.after_prefix "table-" s) as [r |] eqn:Hr; [| discriminate].
  apply after_prefix_app in Hr.
  pose proof (span_digits_app r) as Hspan.
  destruct (QR.span_digits r) as [ds rest]. simpl in Hspan.
  destruct ds as [| c ds]; [discriminate |].
  destruct (QR.after_prefix ".png" rest) as [post |] eqn:Hp; [| discriminate].
  apply after_prefix_app in Hp.
  intros H. inversion H. subst g. exists post.
  rewrite Hr, Hspan, Hp. reflexivity.
Qed.

Lemma match_table_app (f g : string) :
  QR.match_table f = Some g ->
  exists pre post,
    f = String.append pre
          (String.append "table-"
             (String.append g (String.append ".png" post))).
Proof.
  induction f as [| c f IH]; simpl.
  - discriminate.
  - destruct (QR.match_here (String c f)) as [g0 |] eqn:E.
    + intros H. inversion H. subst g0.
      destruct (match_here_app _ _ E) as [post Hpost].
      exists "", post. exact Hpost.
    + intros H. destruct (IH H) as [pre [post Hf]].
      exists (String c pre), post.
      apply (f_equal (String c)) in Hf. exact Hf.
Qed.

(** A run of digits is a decimal numeral. *)
Lemma uint_of_digit_run (g : string) :
  Forall (fun c => QR.is_digit c = true) (list_ascii_of_string g) ->
  exists d, NilEmpty.uint_of_string g = Some d.
Proof.
  induction g as [| c g IH]; intros Hg; [exists Nil; reflexivity |].
  simpl in Hg. inversion Hg as [| ? ? Hc Hr]. subst.
  destruct (IH Hr) as [d Hd]. simpl. rewrite Hd.
  apply is_digit_cases in Hc. simpl in Hc.
  repeat destruct Hc as [<- | Hc]; try contradiction; eexists; reflexivity.
Qed.

(** [parseInt] reads a run of digits as the number that it writes. *)
Lemma parseInt_numeral (g : string) :
  g <> "" ->
  Forall (fun c => QR.is_digit c = true) (list_ascii_of_string g) ->
  exists d,
    NilZero.uint_of_string g = Some d /\ parseInt g = JNum (Z.of_uint d).
Proof.
  intros Hne Hg. destruct (uint_of_digit_run g Hg) as [d Hd].
  exists d. split.
  - unfold NilZero.uint_of_string. destruct g; [congruence | exact Hd].
  - pose proof (NilEmpty.sus g d Hd) as Hs.
    assert (Hnil : d <> Nil).
    { intros ->. simpl in Hs. congruence. }
    rewrite <- Hs. rewrite (proj1 (parseInt_uint d Hnil)). reflexivity.
Qed.

Lemma info_of_match {S : Type} (f : string) (s : S) :
  QR.match_table f <> None ->
  exists i,
    QR.info_of f s = (Normal i, s) /\ QR.fileName i = f /\ numbered i /\
    names_its_table i.
Proof.
  intros H. unfold QR.info_of.
  destruct (QR.match_table f) as [g |] eqn:E; [| congruence].
  destruct (match_table_group f g E) as [Hne Hg].
  destruct (match_table_app f g E) as [pre [post Hf]].
  destruct (parseInt_numeral g Hne Hg) as [d [Hd Hn]].
  eexists. split; [reflexivity |]. split; [reflexivity |]. split.
  - exists (Z.of_uint d). simpl. split; [exact Hn |].
    unfold Z.of_uint. apply N2Z.is_nonneg.
  - exists pre, g, post, d. simpl. rewrite Hn. simpl.
    repeat split; assumption.
Qed.


Lemma each_info_of_stray {S : Type} (files : list string) (s : S) (f : string) :
  In f files -> QR.match_table f = None ->
  QR.each QR.info_of files s
  = (Throw "Cannot read properties of null (reading '1')", s).
Proof.
  induction files as [| g files IH]; intros Hin Hf; [destruct Hin |].
  simpl. unfold bind.
  destruct (QR.match_table g) as [grp |] eqn:E.
  - destruct (info_of_match g s) as [i [Hi _]]; [congruence |].
    rewrite Hi. destruct Hin as [-> | Hin]; [congruence |].
    rewrite (IH Hin Hf). reflexivity.
  - unfold QR.info_of. rewrite E. reflexivity.
Qed.








Example qr_list_sample :
  exists l,
    fst (QR.get_qr_codes_list (Some qr_sample_dir)) = Success 200 l /\
    map QR.tableNo l = [JNum 9; JNum 10].
Proof. eexists. split; reflexivity. Qed.

(** X15. [GET /api/qr-codes-list] breaks on a stray image: when the
    directory holds a name that ends with [.png] in which the pattern
    [table-(\d+)\.png] does not match (as [logo.png]), the reply is 500 and
    no code is listed. *)
Theorem qr_list_stray_png (d : QR.Dir) (f : string) :
  In f (map fst d) -> QR.endsWith ".png" f = true ->
  QR.match_table f = None ->
  QR.get_qr_codes_list (Some d)
  = (Failure 500 "Cannot read properties of null (reading '1')",
     Some d).
Proof.
  intros Hin Hpng Hno. unfold QR.get_qr_codes_list, route, bind.
  rewrite (each_info_of_stray _ (Some d) f); [reflexivity | | exact Hno].
  apply filter_In. split; assumption.
Qed.

Lemma qr_list_stray_png_witness :
  QR.get_qr_codes_list (Some (("logo.png", "a logo") :: qr_sample_dir))
  = (Failure 500 "Cannot read properties of null (reading '1')",
     Some (("logo.png", "a logo") :: qr_sample_dir)).
Proof.
  apply (qr_list_stray_png (("logo.png", "a logo") :: qr_sample_dir)
           "logo.png");
    [left; reflexivity | reflexivity | reflexivity].
Defined.

(** ** The QR-code routes: generating, then listing *)












(** ** The menu route *)

Lemma menu_insert_In (a x : Menu.MenuItem) (l : list Menu.MenuItem) :
  In x (Menu.insert a l) <-> x = a \/ In x l.
Proof.
  induction l as [| y r IH]; simpl.
  - intuition.
  - destruct (Menu.precedes y a); simpl; [rewrite IH |]; intuition.
Qed.

Lemma menu_sort_In (x : Menu.MenuItem) (l : list Menu.MenuItem) :
  In x (Menu.sort l) <-> In x l.
Proof.
  induction l as [| a r IH]; simpl; [tauto |].
  rewrite menu_insert_In, IH. intuition.
Qed.

Lemma rating_le_total (a b : option Q) :
  Menu.rating_le a b = false -> Menu.rating_le b a = true.
Proof.
  destruct a as [x |], b as [y |]; simpl; try discriminate; auto.
  intros H. apply Qle_bool_iff. apply Qlt_le_weak. apply Qnot_le_lt.
  intros Hle. apply Qle_bool_iff in Hle. congruence.
Qed.

Lemma menu_precedes_total (a b : Menu.MenuItem) :
  Menu.precedes a b = false -> Menu.precedes b a = true.
Proof.
  unfold Menu.precedes. intros H.
  apply orb_false_iff in H. destruct H as [Hlt Hand].
  apply Z.ltb_ge in Hlt.
  destruct (Z.ltb_spec (Menu.popular_rank a) (Menu.popular_rank b))
    as [Hl | Hg]; [reflexivity |].
  assert (Heq : Menu.popular_rank a = Menu.popular_rank b) by lia.
  rewrite Heq, Z.eqb_refl in *. simpl in *.
  now apply rating_le_total.
Qed.

Lemma menu_insert_sorted (a : Menu.MenuItem) (l : list Menu.MenuItem) :
  Sorted (fun x y => Menu.precedes x y = true) l ->
  Sorted (fun x y => Menu.precedes x y = true) (Menu.insert a l).
Proof.
  induction l as [| x r IH]; intros Hs; simpl.
  - constructor; constructor.
  - inversion Hs as [| ? ? Hr Hhd]; subst.
    destruct (Menu.precedes x a) eqn:Hxa.
    + constructor; [now apply IH |].
      destruct r as [| y r']; simpl.
      * constructor. exact Hxa.
      * destruct (Menu.precedes y a); constructor;
          [now inversion Hhd | exact Hxa].
    + constructor; [exact Hs |]. constructor.
      now apply menu_precedes_total.
Qed.

Lemma menu_sort_sorted (l : list Menu.MenuItem) :
  Sorted (fun x y => Menu.precedes x y = true) (Menu.sort l).
Proof.
  induction l as [| a r IH]; simpl; [constructor |].
  now apply menu_insert_sorted.
Qed.

Lemma menu_given_some (category : option string) (c : string) :
  Menu.given category = Some c <-> category = Some c /\ c <> "".
Proof.
  unfold Menu.given. destruct category as [k |]; [| split; [discriminate |]].
  - destruct (String.eqb_spec k ""); split.
    + discriminate.
    + intros [H1 H2]. congruence.
    + intros H. inversion H; subst. auto.
    + intros [H1 H2]. exact H1.
  - intros [H _]. discriminate.
Qed.

(** X18. With the connection open and a driver that answers, [GET
    /api/menu] replies 200 and leaves the store as it was; the list holds
    exactly the items of the collection whose [available] is [true] and,
    when a non-empty [category] is asked for, whose category is that one;
    and no item of the list comes before one that is more popular, or as
    popular and better rated. *)
Theorem menu_lists_available_popular_first
  (e : Mongo.Env) (category : option string) (w : Menu.World) :
  Mongo.readyState e = 1 ->
  Mongo.driver_ok e = true ->
  exists l,
    Menu.get_menu e category w = (Success 200 l, w)
    /\ (forall x,
          In x l <->
          In x (Menu.items w)
          /\ Menu.available x = Some true
          /\ (forall c, category = Some c -> c <> "" ->
                        Menu.category x = c))
    /\ Sorted (fun a b => Menu.precedes a b = true) l.
Proof.
  intros Hr Hd.
  exists (Menu.sort
            (List.filter (Menu.matches (Menu.given category)) (Menu.items w))).
  split; [| split].
  - unfold Menu.get_menu, bind, ret, Menu.find_sorted.
    rewrite Hr, Hd. reflexivity.
  - intros x. rewrite menu_sort_In, filter_In.
    unfold Menu.matches.
    split.
    + intros [Hin Hm]. split; [exact Hin |].
      destruct (Menu.available x) as [[|] |]; try discriminate.
      split; [reflexivity |].
      intros c Hc Hne.
      assert (Hg : Menu.given category = Some c)
        by (apply menu_given_some; auto).
      rewrite Hg in Hm. now apply String.eqb_eq.
    + intros [Hin [Ha Hc]]. split; [exact Hin |].
      rewrite Ha.
      destruct (Menu.given category) as [c |] eqn:Hg; [| reflexivity].
      apply menu_given_some in Hg. destruct Hg as [Hg Hne].
      apply String.eqb_eq. now apply Hc.
  - apply menu_sort_sorted.
Qed.

Lemma menu_lists_available_popular_first_witness :
  Menu.get_menu (online 1000) (Some "main") sample_menu
  = (Success 200 [margherita], sample_menu)
  /\ exists l,
       Menu.get_menu (online 1000) None sample_menu = (Success 200 l, sample_menu)
       /\ (forall x,
             In x l <->
             In x (Menu.items sample_menu)
             /\ Menu.available x = Some true
             /\ (forall c, None = Some c -> c <> "" ->
                           Menu.category x = c))
       /\ Sorted (fun a b => Menu.precedes a b = true) l.
Proof.
  split; [reflexivity |].
  apply (menu_lists_available_popular_first (online 1000) None sample_menu);
    reflexivity.
Defined.

(** X19. As long as the seed data can be loaded, [GET /api/menu] never
    fails: without a connection it serves the seed items of the category
    asked for (all of them when none is), whatever their availability; and
    when the driver raises on an open connection it serves the whole seed
    list, whatever the category. *)
Theorem menu_falls_back_on_seed
  (e : Mongo.Env) (category : option string) (w : Menu.World)
  (seed : list Menu.MenuItem) :
  Menu.seedData w = Some seed ->
  exists l,
    Menu.get_menu e category w = (Success 200 l, w)
    /\ (Mongo.readyState e <> 1 ->
        forall x,
          In x l <->
          In x seed
          /\ (forall c, category = Some c -> c <> "" ->
                        Menu.category x = c))
    /\ (Mongo.readyState e = 1 -> Mongo.driver_ok e = false -> l = seed).
Proof.
  intros Hs.
  unfold Menu.get_menu, bind, ret, Menu.find_sorted, Menu.require_seedData.
  destruct (Z.eqb_spec (Mongo.readyState e) 1) as [Hr | Hr]; simpl.
  - destruct (Mongo.driver_ok e) eqn:Hd.
    + eexists. split; [reflexivity |]. split; [tauto | congruence].
    + rewrite Hs. eexists. split; [reflexivity |]. split; [tauto | auto].
  - rewrite Hs. eexists. split; [reflexivity |]. split; [| tauto].
    intros _ x.
    destruct (Menu.given category) as [c |] eqn:Hg.
    + apply menu_given_some in Hg. destruct Hg as [Hg Hne].
      rewrite filter_In, String.eqb_eq. split.
      * intros [Hin Hc]. split; [exact Hin |]. intros c' Hc' _. congruence.
      * intros [Hin Hc]. split; [exact Hin | now apply Hc].
    + split; [| tauto]. intros Hin. split; [exact Hin |].
      intros c Hc Hne.
      assert (Hg' : Menu.given category = Some c)
        by (apply menu_given_some; auto).
      congruence.
Qed.

Lemma menu_falls_back_on_seed_witness :
  Menu.get_menu (offline 1000) (Some "main") sample_menu
  = (Success 200 [margherita; tikka], sample_menu)
  /\ Menu.get_menu (driver_raises 1000) (Some "dessert") sample_menu
     = (Success 200 [margherita; tikka; lava_cake], sample_menu)
  /\ exists l,
       Menu.get_menu (offline 1000) (Some "main") sample_menu
       = (Success 200 l, sample_menu)
       /\ (Mongo.readyState (offline 1000) <> 1 ->
           forall x,
             In x l <->
             In x [margherita; tikka; lava_cake]
             /\ (forall c, Some "main" = Some c -> c <> "" ->
                           Menu.category x = c))
       /\ (Mongo.readyState (offline 1000) = 1 ->
           Mongo.driver_ok (offline 1000) = false ->
           l = [margherita; tikka; lava_cake]).
Proof.
  split; [reflexivity |]. split; [reflexivity |].
  apply (menu_falls_back_on_seed (offline 1000) (Some "main") sample_menu
           [margherita; tikka; lava_cake]).
  reflexivity.
Defined.

(** ** The chat routes *)











Example chat_blank_message_refused :
  Chat.post chat_env (JStr "   ") [] = (Failure 400 "Message is required", [])
  /\ Chat.post chat_env (JNum 7) []
     = (Failure 500 "Failed to get response from AI", [])
  /\ Chat.post chat_env (JStr " hi ") []
     = (Success 200 (JStr "Hello!"), [chat_call "gsk_test" " hi "]).
Proof. repeat split. Qed.

Lemma messages_of_history (system : Message) (b : Chatbot.body) :
  Chatbot.messages_of system (Chatbot.conversationHistory b)
  = system :: Chatbot.slice_8 (history_of b).
Proof.
  unfold history_of.
  destruct (Chatbot.conversationHistory b) as [[| m r] |]; reflexivity.
Qed.

Lemma slice_8_recent (h : list Message) :
  h = firstn (List.length h - 8) h ++ Chatbot.slice_8 h
  /\ List.length (Chatbot.slice_8 h) = Nat.min 8 (List.length h).
Proof.
  unfold Chatbot.slice_8. split.
  - symmetry. apply firstn_skipn.
  - rewrite length_skipn. lia.
Qed.

Lemma chatbot_run (e : Chatbot.Env) (menuContext model : string)
  (b : Chatbot.body) (net : Chatbot.Net) :
  Chatbot.truthy (Chatbot.message b) = true ->
  Chatbot.truthy (Chatbot.personality b) = true ->
  Chatbot.groq e = true ->
  let r :=
    {| Chatbot.messages :=
         Chatbot.system_message e b menuContext
         :: Chatbot.slice_8 (history_of b);
       Chatbot.model := model |} in
  Chatbot.chatbot e menuContext model b net
  = (match Chatbot.create e r with
     | Some completion =>
         Success 200
           {| Chatbot.reply := Chatbot.reply_of completion;
              Chatbot.reply_personality := Chatbot.personality b;
              Chatbot.tokensUsed :=
                js_or (Chatbot.total_tokens completion) 0 |}
     | None => Failure 500 "Failed to generate response"
     end, net ++ [r]).
Proof.
  intros Hm Hp Hg r.
  unfold Chatbot.chatbot, bind, ret, Chatbot.completions_create.
  rewrite Hm, Hp, Hg. simpl.
  rewrite messages_of_history. fold r.
  destruct (Chatbot.create e r); reflexivity.
Qed.

Lemma chatbot_refuses (e : Chatbot.Env) (menuContext model : string)
  (b : Chatbot.body) (net : Chatbot.Net) :
  Chatbot.truthy (Chatbot.message b)
  && Chatbot.truthy (Chatbot.personality b) && Chatbot.groq e = false ->
  exists error,
    Chatbot.chatbot e menuContext model b net
    = (Failure (if Chatbot.truthy (Chatbot.message b)
                   && Chatbot.truthy (Chatbot.personality b)
                then 500 else 400) error, net).
Proof.
  intros H. unfold Chatbot.chatbot, ret.
  destruct (Chatbot.truthy (Chatbot.message b)); simpl in *; [| eauto].
  destruct (Chatbot.truthy (Chatbot.personality b)); simpl in *; [| eauto].
  rewrite H. simpl. eauto.
Qed.

(** X21. In both servers, a chatbot request with a message, a personality
    and a configured client sends exactly one request to the model; its
    messages are one system message followed by the last eight entries of
    the conversation history, in their order (all of them when there are
    fewer, none when the history is absent). *)
Theorem chatbot_sends_last_eight_turns
  (m : Mongo.Env) (w : Menu.World) (e : Chatbot.Env) (b : Chatbot.body)
  (net : Chatbot.Net) :
  Chatbot.truthy (Chatbot.message b) = true ->
  Chatbot.truthy (Chatbot.personality b) = true ->
  Chatbot.groq e = true ->
  forall post,
    post = Chatbot.mongo_post_chatbot m w e
    \/ post = Chatbot.pg_post_chatbot e ->
    exists r system older recent,
      snd (post b net) = net ++ [r]
      /\ Chatbot.messages r = system :: recent
      /\ role system = "system"
      /\ history_of b = older ++ recent
      /\ List.length recent = Nat.min 8 (List.length (history_of b)).
Proof.
  intros Hm Hp Hg post Hpost.
  destruct (slice_8_recent (history_of b)) as [Happ Hlen].
  destruct Hpost; subst post;
    unfold Chatbot.mongo_post_chatbot, Chatbot.pg_post_chatbot;
    rewrite (chatbot_run _ _ _ _ _ Hm Hp Hg); simpl;
    eexists; eexists; eexists; eexists;
    (split; [reflexivity |]); simpl;
    (split; [reflexivity |]); (split; [reflexivity |]);
    (split; [exact Happ | exact Hlen]).
Qed.

Lemma chatbot_sends_last_eight_turns_witness :
  exists r system older recent,
    snd (Chatbot.pg_post_chatbot chatbot_env
           (ask (Some ten_turns) "What is good?") [])
    = [] ++ [r]
    /\ Chatbot.messages r = system :: recent
    /\ role system = "system"
    /\ history_of (ask (Some ten_turns) "What is good?") = older ++ recent
    /\ List.length recent
       = Nat.min 8
           (List.length (history_of (ask (Some ten_turns) "What is good?"))).
Proof.
  apply (chatbot_sends_last_eight_turns (online 1000) sample_menu chatbot_env
           (ask (Some ten_turns) "What is good?") []);
    [reflexivity | reflexivity | reflexivity | right; reflexivity].
Defined.

(** X22. The chatbot route only tests that [message] is there: the
    request to the model and the reply are the same for any two messages.
    The question reaches the model only if the client has put it in the
    conversation history. *)
Theorem chatbot_message_not_forwarded
  (m : Mongo.Env) (w : Menu.World) (e : Chatbot.Env) (b : Chatbot.body)
  (message' : Chatbot.Scalar) (net : Chatbot.Net) :
  Chatbot.truthy (Chatbot.message b) = true ->
  Chatbot.truthy message' = true ->
  Chatbot.mongo_post_chatbot m w e (with_message message' b) net
  = Chatbot.mongo_post_chatbot m w e b net
  /\ Chatbot.pg_post_chatbot e (with_message message' b) net
     = Chatbot.pg_post_chatbot e b net.
Proof.
  intros Hm Hm'.
  unfold Chatbot.mongo_post_chatbot, Chatbot.pg_post_chatbot,
    Chatbot.chatbot, with_message. simpl.
  rewrite Hm, Hm'. split; reflexivity.
Qed.

Lemma chatbot_message_not_forwarded_witness :
  Chatbot.mongo_post_chatbot (online 1000) sample_menu chatbot_env
    (with_message (Chatbot.SStr "The bill, please")
       (ask (Some ten_turns) "What is good?")) []
  = Chatbot.mongo_post_chatbot (online 1000) sample_menu chatbot_env
      (ask (Some ten_turns) "What is good?") []
  /\ Chatbot.pg_post_chatbot chatbot_env
       (with_message (Chatbot.SStr "The bill, please")
          (ask (Some ten_turns) "What is good?")) []
     = Chatbot.pg_post_chatbot chatbot_env
         (ask (Some ten_turns) "What is good?") [].
Proof.
  apply (chatbot_message_not_forwarded (online 1000) sample_menu chatbot_env
           (ask (Some ten_turns) "What is good?")
           (Chatbot.SStr "The bill, please") []);
    reflexivity.
Defined.

(** X23. In both servers, a successful chatbot reply is never the empty
    text (an empty or missing answer of the model is replaced), it echoes
    the personality of the request, and it was preceded by one request to the
    model. *)
Theorem chatbot_reply_never_empty
  (m : Mongo.Env) (w : Menu.World) (e : Chatbot.Env) (b : Chatbot.body)
  (net : Chatbot.Net) (code : Z) (d : Chatbot.Data) :
  forall post,
    post = Chatbot.mongo_post_chatbot m w e
    \/ post = Chatbot.pg_post_chatbot e ->
    fst (post b net) = Success code d ->
    Chatbot.reply d <> ""
    /\ Chatbot.reply_personality d = Chatbot.personality b
    /\ code = 200
    /\ exists r, snd (post b net) = net ++ [r].
Proof.
  intros post Hpost.
  assert (H : forall menuContext model,
             fst (Chatbot.chatbot e menuContext model b net)
             = Success code d ->
             Chatbot.reply d <> ""
             /\ Chatbot.reply_personality d = Chatbot.personality b
             /\ code = 200
             /\ exists r,
                  snd (Chatbot.chatbot e menuContext model b net)
                  = net ++ [r]).
  { intros mc model.
    destruct (Chatbot.truthy (Chatbot.message b)
              && Chatbot.truthy (Chatbot.personality b)
              && Chatbot.groq e) eqn:Hv.
    - apply andb_true_iff in Hv. destruct Hv as [Hv Hg].
      apply andb_true_iff in Hv. destruct Hv as [Hm Hp].
      rewrite (chatbot_run _ mc model _ net Hm Hp Hg). simpl.
      destruct (Chatbot.create e _) as [c |]; [| discriminate].
      intros Heq. inversion Heq; subst. simpl.
      split; [| split; [reflexivity | split; [reflexivity | eauto]]].
      unfold Chatbot.reply_of.
      destruct (Chatbot.choice c) as [t |]; [| discriminate].
      destruct (String.eqb_spec t ""); [discriminate | assumption].
    - destruct (chatbot_refuses e mc model b net Hv) as [error Hr].
      rewrite Hr. discriminate. }
  destruct Hpost; subst post; apply H.
Qed.

Lemma chatbot_reply_never_empty_witness :
  fst (Chatbot.mongo_post_chatbot (online 1000) sample_menu chatbot_silent
         (ask None "What is good?") [])
  = Success 200
      {| Chatbot.reply := "I'm here to help! What would you like to know?";
         Chatbot.reply_personality := Chatbot.SStr "family";
         Chatbot.tokensUsed := 0 |}
  /\ "I'm here to help! What would you like to know?" <> "".
Proof.
  split; [reflexivity |].
  exact (proj1 (chatbot_reply_never_empty (online 1000) sample_menu
                  chatbot_silent (ask None "What is good?") [] 200
                  {| Chatbot.reply :=
                       "I'm here to help! What would you like to know?";
                     Chatbot.reply_personality := Chatbot.SStr "family";
                     Chatbot.tokensUsed := 0 |}
                  (Chatbot.mongo_post_chatbot (online 1000) sample_menu
                     chatbot_silent)
                  (or_introl eq_refl) eq_refl)).
Defined.

(** X24. In both servers, a chatbot request without a message or without a
    personality is refused with 400, and one that has both is refused with
    500 when the client of the model is not configured; in each case no
    request is sent to the model. *)
Theorem chatbot_refusals_send_nothing
  (m : Mongo.Env) (w : Menu.World) (e : Chatbot.Env) (b : Chatbot.body)
  (net : Chatbot.Net) :
  Chatbot.truthy (Chatbot.message b)
  && Chatbot.truthy (Chatbot.personality b) && Chatbot.groq e = false ->
  forall post,
    post = Chatbot.mongo_post_chatbot m w e
    \/ post = Chatbot.pg_post_chatbot e ->
    exists error,
      post b net
      = (Failure (if Chatbot.truthy (Chatbot.message b)
                     && Chatbot.truthy (Chatbot.personality b)
                  then 500 else 400) error, net).
Proof.
  intros H post Hpost.
  destruct Hpost; subst post; now apply chatbot_refuses.
Qed.

Lemma chatbot_refusals_send_nothing_witness :
  exists error,
    Chatbot.pg_post_chatbot chatbot_env (ask (Some ten_turns) "") []
    = (Failure (if Chatbot.truthy
                     (Chatbot.message (ask (Some ten_turns) ""))
                   && Chatbot.truthy
                        (Chatbot.personality (ask (Some ten_turns) ""))
                then 500 else 400) error, []).
Proof.
  apply (chatbot_refusals_send_nothing (online 1000) sample_menu chatbot_env
           (ask (Some ten_turns) "") []);
    [reflexivity | right; reflexivity].
Defined.

(** ** Seeding the menu *)

Lemma menu_given_none (category : option string) :
  Menu.given category = None <->
  (forall c, category = Some c -> c = "").
Proof.
  unfold Menu.given. destruct category as [k |].
  - destruct (String.eqb_spec k ""); split; intros H.
    + intros c Hc. congruence.
    + reflexivity.
    + discriminate.
    + exfalso. auto.
  - split; [intros _ c Hc; discriminate | reflexivity].
Qed.

Lemma menu_with_defaults_available (s : Menu.MenuItem) :
  Menu.available (Menu.with_defaults s) = Some true <->
  Menu.available s <> Some false.
Proof.
  simpl. destruct (Menu.available s) as [[|] |]; split; congruence.
Qed.

(** X25. With an open connection, a driver that answers and seed data
    that pass the validation of the schema, [POST /api/seed-menu] replaces
    the collection by the seed items with the defaults of the schema filled
    in; seeding again gives the same collection; and the menu listed
    afterwards holds exactly the seed items that are not marked unavailable
    (of the category asked for, if any). *)
Theorem seed_then_menu
  (e : Mongo.Env) (category : option string) (w : Menu.World)
  (seed : list Menu.MenuItem) :
  Mongo.readyState e = 1 ->
  Mongo.driver_ok e = true ->
  Menu.seedData w = Some seed ->
  forallb Menu.valid seed = true ->
  let w' := with_items (map Menu.with_defaults seed) w in
  Menu.seed_menu e w = (Success 200 (Z.of_nat (List.length seed)), w')
  /\ Menu.seed_menu e w' = (Success 200 (Z.of_nat (List.length seed)), w')
  /\ exists l,
       Menu.get_menu e category w' = (Success 200 l, w')
       /\ forall x,
            In x l <->
            exists s,
              In s seed /\ x = Menu.with_defaults s
              /\ Menu.available s <> Some false
              /\ (forall c, category = Some c -> c <> "" ->
                            Menu.category s = c).
Proof.
  intros Hr Hd Hs Hv w'.
  assert (Hseed : forall w0, Menu.seedData w0 = Some seed ->
            Menu.seed_menu e w0
            = (Success 200 (Z.of_nat (List.length seed)),
               with_items (map Menu.with_defaults seed) w0)).
  { intros w0 H0.
    unfold Menu.seed_menu, route, bind, ret, Menu.deleteMany,
      Menu.insertMany, Menu.driver, Menu.require_seedData.
    rewrite Hr, Hd. unfold with_items. simpl. rewrite H0, Hv.
    reflexivity. }
  split; [now apply Hseed |]. split; [now apply (Hseed w') |].
  destruct (menu_lists_available_popular_first e category w' Hr Hd)
    as [l [Hl [Hin _]]].
  exists l. split; [exact Hl |].
  intros x. rewrite Hin. simpl. rewrite in_map_iff. split.
  - intros [[s [Hx Hsin]] [Ha Hc]]. subst x.
    exists s. split; [exact Hsin |]. split; [reflexivity |].
    split; [now apply menu_with_defaults_available | exact Hc].
  - intros [s [Hsin [Hx [Ha Hc]]]]. subst x.
    split; [eauto |].
    split; [now apply menu_with_defaults_available | exact Hc].
Qed.

Lemma seed_then_menu_witness :
  let w' :=
    with_items (map Menu.with_defaults [margherita; tikka; lava_cake])
      sample_menu in
  Menu.seed_menu (online 1000) sample_menu = (Success 200 3, w')
  /\ Menu.seed_menu (online 1000) w' = (Success 200 3, w')
  /\ exists l,
       Menu.get_menu (online 1000) (Some "main") w' = (Success 200 l, w')
       /\ forall x,
            In x l <->
            exists s,
              In s [margherita; tikka; lava_cake]
              /\ x = Menu.with_defaults s
              /\ Menu.available s <> Some false
              /\ (forall c, Some "main" = Some c -> c <> "" ->
                            Menu.category s = c).
Proof.
  apply (seed_then_menu (online 1000) (Some "main") sample_menu
           [margherita; tikka; lava_cake]);
    reflexivity.
Defined.

(** X26. [POST /api/seed-menu] empties the collection before it loads and
    validates the seed data: when the seed data cannot be loaded, or one of
    their items fails the validation of the schema, the route replies 500
    and the menu is left empty. *)
Theorem failed_seed_empties_menu (e : Mongo.Env) (w : Menu.World) :
  Mongo.readyState e = 1 ->
  Mongo.driver_ok e = true ->
  match Menu.seedData w with
  | Some seed => forallb Menu.valid seed = false
  | None => True
  end ->
  exists error,
    Menu.seed_menu e w = (Failure 500 error, with_items [] w)
    /\ forall category,
         Menu.get_menu e category (with_items [] w)
         = (Success 200 [], with_items [] w).
Proof.
  intros Hr Hd Hs.
  assert (Hget : forall category,
            Menu.get_menu e category (with_items [] w)
            = (Success 200 [], with_items [] w)).
  { intros category.
    unfold Menu.get_menu, bind, ret, Menu.find_sorted.
    rewrite Hr, Hd. reflexivity. }
  unfold Menu.seed_menu, route, bind, ret, Menu.deleteMany,
    Menu.insertMany, Menu.driver, Menu.require_seedData, throw.
  rewrite Hr, Hd. simpl.
  destruct (Menu.seedData w) as [seed |] eqn:Hsd.
  - rewrite Hs. eexists.
    split; [unfold with_items; rewrite Hsd; reflexivity | exact Hget].
  - eexists.
    split; [unfold with_items; rewrite Hsd; reflexivity | exact Hget].
Qed.

Lemma failed_seed_empties_menu_witness :
  exists error,
    Menu.seed_menu (online 1000) bad_seed_menu
    = (Failure 500 error, with_items [] bad_seed_menu)
    /\ forall category,
         Menu.get_menu (online 1000) category (with_items [] bad_seed_menu)
         = (Success 200 [], with_items [] bad_seed_menu).
Proof.
  apply (failed_seed_empties_menu (online 1000) bad_seed_menu);
    [reflexivity | reflexivity | reflexivity].
Defined.

(** X27. The seeding at connection time never removes or changes an item:
    the collection afterwards is the one before, followed by what was
    added, and nothing is added to a collection that has an item. *)
Theorem autoSeed_keeps_the_menu (e : Mongo.Env) (w : Menu.World) :
  exists added,
    Menu.autoSeedMenu e w = with_items (Menu.items w ++ added) w
    /\ (Menu.items w <> [] -> added = []).
Proof.
  assert (Hw : w = with_items (Menu.items w ++ []) w)
    by (rewrite app_nil_r; destruct w; reflexivity).
  unfold Menu.autoSeedMenu, bind, ret, Menu.countDocuments,
    Menu.insertMany, Menu.driver, Menu.require_seedData, throw.
  destruct ((Mongo.readyState e =? 1) && Mongo.driver_ok e) eqn:Hc;
    simpl; [| exists []; auto].
  destruct (Menu.items w) as [| a r] eqn:Hi.
  - simpl. destruct (Menu.seedData w) as [seed |] eqn:Hs;
      [| exists []; split; [exact Hw | auto]].
    destruct (forallb Menu.valid seed);
      [| exists []; split; [exact Hw | auto]].
    simpl. exists (map Menu.with_defaults seed).
    split; [| intros H; now contradiction H].
    unfold with_items. rewrite ?Hi, ?Hs. reflexivity.
  - replace (Z.of_nat (List.length (a :: r)) =? 0) with false
      by (symmetry; apply Z.eqb_neq; simpl List.length; lia).
    exists []. split; [exact Hw | auto].
Qed.

Lemma autoSeed_keeps_the_menu_witness :
  exists added,
    Menu.autoSeedMenu (online 1000) (with_items [] sample_menu)
    = with_items (Menu.items (with_items [] sample_menu) ++ added)
        (with_items [] sample_menu)
    /\ (Menu.items (with_items [] sample_menu) <> [] -> added = []).
Proof.
  apply (autoSeed_keeps_the_menu (online 1000) (with_items [] sample_menu)).
Defined.
